(** * Reddit Out Loud

    A shallow embedding of the extension's content script
    ([src/content/content.ts]), of its stand-alone playback engine
    ([src/playback/playback.ts]), of the comment flattener
    ([src/utils/flattenComments.ts]) and of the voice selection and
    progress display of the popup ([src/popup/popup.tsx]), with the
    properties of the text sanitizer, the voice allocator, the comment
    expansion loop, the extractor, the playback sequencer and the answers
    of the message listener.

    Conventions of the embedding.
    - A JavaScript string is a [string]: the sequence of its bytes in UTF-8.
      White space ([\s], [trim], [parseInt]) is that of the language: the
      six characters of ASCII and the characters beyond, of two or three
      bytes. [\w] is a class of ASCII in the language too. [toLowerCase] is
      modelled on the letters of ASCII, of which the words that the source
      compares its result with are made.
    - An integer-valued JavaScript number is a [Z]; a number that may be
      [NaN] (the result of [parseInt]) is an [option Z] with [None] for
      [NaN]. The numbers of the source are counts and depths; the model
      follows it as long as they stay below 2^53, where the arithmetic of
      the language is exact, and a statement on the numeral that [parseInt]
      reads asks for this.
    - A playback rate is a rational [Q], which every finite number of the
      language is; [NaN] has no model.
    - [highlightComment] pastes the id of a comment between double quotes
      into a selector. The model follows the source on the ids that need no
      escape there; a statement that an item is spoken asks for such ids.
    - Module-level [let] variables of a script become the fields of a state
      record, and every function that touches them passes the record on. *)

From Stdlib Require Import ZArith QArith String Ascii List Bool Lia DecimalString.
From Stdlib Require Import DecimalNat DecimalFacts Sorting.Sorted.
From stdpp Require Import base option list gmap strings.
Import ListNotations.

(** ** JavaScript primitives used by the sources *)

Module JS.

(** [NaN]-aware numbers: the results of [parseInt]. *)
Definition number := option Z.

(** [a < b], [a <= b], [a === b] on numbers: false as soon as one side is [NaN]. *)
Definition lt (a b : number) : bool :=
  match a, b with Some x, Some y => (x <? y)%Z | _, _ => false end.
Definition le (a b : number) : bool :=
  match a, b with Some x, Some y => (x <=? y)%Z | _, _ => false end.
Definition strictEq (a b : number) : bool :=
  match a, b with Some x, Some y => (x =? y)%Z | _, _ => false end.
Definition add (a b : number) : number :=
  match a, b with Some x, Some y => Some (x + y)%Z | _, _ => None end.
Definition sub (a b : number) : number :=
  match a, b with Some x, Some y => Some (x - y)%Z | _, _ => None end.

(** [l[i]]: [undefined] outside of the array. *)
Definition nth {A : Type} (l : list A) (i : Z) : option A :=
  if (i <? 0)%Z then None else l !! Z.to_nat i.

(** [l.sort(cmp)]: the sort is stable; an element moves behind another
    one only when the comparator is positive on them. *)
Fixpoint insertSorted {A : Type} (cmp : A -> A -> number) (x : A) (l : list A) : list A :=
  match l with
  | [] => [x]
  | y :: l' => if lt (Some 0%Z) (cmp x y) then y :: insertSorted cmp x l' else x :: l
  end.

Definition sort {A : Type} (cmp : A -> A -> number) (l : list A) : list A :=
  List.fold_right (insertSorted cmp) [] l.

(** The white space of ASCII: the tab, the line feed, the vertical tab,
    the form feed, the carriage return and the space. *)
Definition isSpace (c : ascii) : bool :=
  let n := nat_of_ascii c in
  ((9 <=? n) && (n <=? 13) || (n =? 32))%nat.

(** The white space beyond ASCII, by its bytes in UTF-8: U+00A0 in two
    bytes; U+1680, U+2000 to U+200A, U+2028, U+2029, U+202F, U+205F, U+3000
    and U+FEFF in three. *)
Definition isSpace2 (a b : ascii) : bool :=
  ((nat_of_ascii a =? 194) && (nat_of_ascii b =? 160))%nat.

Definition isSpace3 (a b c : ascii) : bool :=
  let x := nat_of_ascii a in
  let y := nat_of_ascii b in
  let z := nat_of_ascii c in
  ((x =? 225) && (y =? 154) && (z =? 128)
   || (x =? 226) && (y =? 128)
      && ((128 <=? z) && (z <=? 138) || (z =? 168) || (z =? 169) || (z =? 175))
   || (x =? 226) && (y =? 129) && (z =? 159)
   || (x =? 227) && (y =? 128) && (z =? 128)
   || (x =? 239) && (y =? 187) && (z =? 191))%nat.

(** [\s], which is also the white space of [trim] and of [parseInt]: the
    number of bytes of the white-space character at the head of [s], 0
    when [s] does not begin with one. *)
Definition spaceWidth (s : string) : nat :=
  match s with
  | String a r =>
      if isSpace a then 1
      else
        match r with
        | String b r' =>
            if isSpace2 a b then 2
            else
              match r' with
              | String c _ => if isSpace3 a b c then 3 else 0
              | EmptyString => 0
              end
        | EmptyString => 0
        end
  | EmptyString => 0
  end.

Definition isDigit (c : ascii) : bool :=
  let n := nat_of_ascii c in ((48 <=? n) && (n <=? 57))%nat.

(** [\w] is [[A-Za-z0-9_]]. *)
Definition isWord (c : ascii) : bool :=
  let n := nat_of_ascii c in
  ((65 <=? n) && (n <=? 90) || (97 <=? n) && (n <=? 122)
   || (48 <=? n) && (n <=? 57) || (n =? 95))%nat.

Definition lowerChar (c : ascii) : ascii :=
  let n := nat_of_ascii c in
  if ((65 <=? n) && (n <=? 90))%nat then ascii_of_nat (n + 32) else c.

(** [s.toLowerCase()] *)
Fixpoint toLowerCase (s : string) : string :=
  match s with
  | EmptyString => EmptyString
  | String c r => String (lowerChar c) (toLowerCase r)
  end.

(** [s.startsWith(p)] *)
Fixpoint startsWith (s p : string) {struct p} : bool :=
  match p with
  | EmptyString => true
  | String b p' =>
      match s with
      | EmptyString => false
      | String a s' => Ascii.eqb a b && startsWith s' p'
      end
  end.

(** [s.includes(p)]: [p] starts at some position of [s]. *)
Fixpoint includes (s p : string) : bool :=
  startsWith s p ||
  match s with
  | EmptyString => false
  | String _ s' => includes s' p
  end.

(** [s.endsWith(p)]: some suffix of [s] is [p]. *)
Fixpoint endsWith (s p : string) : bool :=
  String.eqb s p ||
  match s with
  | EmptyString => false
  | String _ s' => endsWith s' p
  end.

(** Truthiness of a string: every string but the empty one. *)
Definition truthy (s : string) : bool :=
  match s with EmptyString => false | String _ _ => true end.

(** [a || b] where [a] is [string | null]. *)
Definition orElse (a : option string) (b : string) : string :=
  match a with
  | Some s => if truthy s then s else b
  | None => b
  end.

(** [a || null] where [a] is [string | null]. *)
Definition orNull (a : option string) : option string :=
  match a with
  | Some s => if truthy s then Some s else None
  | None => None
  end.

(** [s] without the white space at its head; [skip] bytes are still to
    pass of the character being dropped. *)
Fixpoint dropSpace (skip : nat) (s : string) : string :=
  match s with
  | EmptyString => EmptyString
  | String _ r =>
      match skip with
      | S k => dropSpace k r
      | O => match spaceWidth s with S k => dropSpace k r | O => s end
      end
  end.

Definition trimStart (s : string) : string := dropSpace 0 s.

(** [s] without the white space at its end: what follows a character is
    dropped with it when it is white space only from this character on. *)
Fixpoint trimEnd (s : string) : string :=
  match s with
  | EmptyString => EmptyString
  | String c r =>
      match trimStart s with
      | EmptyString => EmptyString
      | String _ _ => String c (trimEnd r)
      end
  end.

(** [s.trim()] *)
Definition trim (s : string) : string := trimEnd (trimStart s).

Definition digitValue (c : ascii) : Z := Z.of_nat (nat_of_ascii c) - 48.

(** The value of the longest prefix of decimal digits, after [acc];
    [seen] tells whether a digit was read. *)
Fixpoint digits (s : string) (acc : Z) (seen : bool) : number :=
  match s with
  | String c r =>
      if isDigit c then digits r (10 * acc + digitValue c)%Z true
      else if seen then Some acc else None
  | EmptyString => if seen then Some acc else None
  end.

(** [parseInt(s, 10)]: leading white space, an optional sign, then the
    longest prefix of digits; [NaN] when there is no digit. The number is
    the one the digits write, which the language rounds from 2^53 on. *)
Definition parseInt (s : string) : number :=
  match trimStart s with
  | String "-" r => option_map Z.opp (digits r 0 false)
  | String "+" r => digits r 0 false
  | r => digits r 0 false
  end.

(** A non-negative integer printed in a template literal. *)
Definition ofNat (n : nat) : string := NilEmpty.string_of_uint (Nat.to_uint n).

End JS.

(** ** Regular expressions

    The fragment of JavaScript regular expressions the sanitizer uses:
    literals, greedy [+] over a character class, greedy [?] on a literal,
    the word boundary [\b], one capture group and concatenation, matched by
    backtracking in the order of the language standard; and
    [String.prototype.replace] with a global pattern. A class of ASCII
    characters and its complement ([\w], [[^\]]], [[^\)]]) is a test on
    bytes; a class that white space decides ([\s], [[^\s]]) is told by the
    number of bytes it takes at the head of a text, a white-space character
    being one to three bytes. *)

Module Regex.

Inductive regex :=
| Empty
| Lit (c : ascii)
| Plus (p : ascii -> bool)
| PlusWide (w : string -> nat)
| Opt (c : ascii)
| Boundary
| Group (r : regex)
| Seq (r1 r2 : regex).

(** A point of a match attempt: the character before it, the text from
    it on, the number of characters matched so far, the capture. *)
Record position := mkPosition {
  before : option ascii;
  input : string;
  offset : nat;
  group1 : option string
}.

Definition cont := position -> option position.

(** The rest of a greedy [+]: take one more character of the class when
    the continuation then succeeds, stop here otherwise. *)
Fixpoint more (p : ascii -> bool) (k : cont)
    (b : option ascii) (s : string) (n : nat) (g : option string) : option position :=
  match s with
  | String c r =>
      if p c then
        match more p k (Some c) r (S n) g with
        | Some m => Some m
        | None => k (mkPosition b s n g)
        end
      else k (mkPosition b s n g)
  | EmptyString => k (mkPosition b s n g)
  end.

(** The same for a class told by its width: [w s] is the number of bytes
    that the class takes at the head of [s], 0 when [s] does not begin in
    the class; [skip] bytes are still to pass of the character taken. *)
Fixpoint moreWide (w : string -> nat) (k : cont) (skip : nat)
    (b : option ascii) (s : string) (n : nat) (g : option string) : option position :=
  match s with
  | String c r =>
      match skip with
      | S j => moreWide w k j (Some c) r (S n) g
      | O =>
          match w s with
          | S j =>
              match moreWide w k j (Some c) r (S n) g with
              | Some m => Some m
              | None => k (mkPosition b s n g)
              end
          | O => k (mkPosition b s n g)
          end
      end
  | EmptyString =>
      match skip with
      | O => k (mkPosition b s n g)
      | S _ => None
      end
  end.

Definition wordBefore (x : position) : bool :=
  match before x with Some c => JS.isWord c | None => false end.

Definition wordAfter (x : position) : bool :=
  match input x with String c _ => JS.isWord c | EmptyString => false end.

Fixpoint run (r : regex) (k : cont) (x : position) : option position :=
  match r with
  | Empty => k x
  | Lit c =>
      match input x with
      | String a s =>
          if Ascii.eqb a c
          then k (mkPosition (Some a) s (S (offset x)) (group1 x))
          else None
      | EmptyString => None
      end
  | Plus p =>
      match input x with
      | String a s =>
          if p a then more p k (Some a) s (S (offset x)) (group1 x) else None
      | EmptyString => None
      end
  | PlusWide w =>
      match input x with
      | String a s =>
          match w (input x) with
          | S j => moreWide w k j (Some a) s (S (offset x)) (group1 x)
          | O => None
          end
      | EmptyString => None
      end
  | Opt c =>
      match input x with
      | String a s =>
          if Ascii.eqb a c then
            match k (mkPosition (Some a) s (S (offset x)) (group1 x)) with
            | Some m => Some m
            | None => k x
            end
          else k x
      | EmptyString => k x
      end
  | Boundary => if xorb (wordBefore x) (wordAfter x) then k x else None
  | Group r1 =>
      run r1 (fun y =>
        k (mkPosition (before y) (input y) (offset y)
             (Some (substring 0 (offset y - offset x) (input x))))) x
  | Seq r1 r2 => run r1 (run r2 k) x
  end.

(** One match attempt at a position of the subject: the text from there
    on and the character before it. *)
Definition exec (r : regex) (b : option ascii) (s : string) : option position :=
  run r Some (mkPosition b s 0 None).

(** [s.replace(/r/g, t)], scanning the text from its character [b] on;
    [skip] counts the characters of the last match still to pass. *)
Fixpoint replaceFrom (r : regex) (t : option string -> string)
    (b : option ascii) (skip : nat) (s : string) : string :=
  match s with
  | EmptyString =>
      match skip with
      | O => match exec r b s with Some m => t (group1 m) | None => EmptyString end
      | S _ => EmptyString
      end
  | String c rest =>
      match skip with
      | S k => replaceFrom r t (Some c) k rest
      | O =>
          match exec r b s with
          | Some m =>
              match offset m with
              | O => t (group1 m) +:+ String c (replaceFrom r t (Some c) 0 rest)
              | S k => t (group1 m) +:+ replaceFrom r t (Some c) k rest
              end
          | None => String c (replaceFrom r t (Some c) 0 rest)
          end
      end
  end.

Definition replaceAll (r : regex) (t : option string -> string) (s : string) : string :=
  replaceFrom r t None 0 s.

(** The replacement patterns ['$1'] and a literal text. *)
Definition dollar1 (g : option string) : string :=
  match g with Some s => s | None => EmptyString end.
Definition text (s : string) (_ : option string) : string := s.

(** Concatenation of several pieces, and a literal word. *)
Fixpoint cat (rs : list regex) : regex :=
  match rs with
  | [] => Empty
  | r :: rs' => Seq r (cat rs')
  end.

Fixpoint Str (s : string) : regex :=
  match s with
  | EmptyString => Empty
  | String c r => Seq (Lit c) (Str r)
  end.

(** [[^c]] *)
Definition notChar (c : ascii) (a : ascii) : bool := negb (Ascii.eqb a c).

(** [\s]: a white-space character. *)
Definition space : string -> nat := JS.spaceWidth.

(** [[^\s]]: a byte of a character that is not white space. *)
Definition notSpace (s : string) : nat :=
  match s with
  | String _ _ => match JS.spaceWidth s with O => 1 | S _ => 0 end
  | EmptyString => 0
  end.

End Regex.

(** ** The document

    The live page as the scripts see it: a tree of elements with
    attributes and text, queried with CSS selectors. *)

Module Dom.

#[warnings="-register-all"] Inductive Node :=
| Element (localName : string) (attributes : list (string * string)) (childNodes : list Node)
| Text (data : string).

(** An element handle: the node, its ancestors from the parent up, and
    the child indices that lead to it from the root. *)
Record Handle := mkHandle {
  node : Node;
  ancestors : list Node;
  path : list nat
}.

Definition localNameOf (n : Node) : string :=
  match n with Element l _ _ => l | Text _ => EmptyString end.

(** [el.getAttribute(a)] *)
Definition getAttribute (n : Node) (a : string) : option string :=
  match n with
  | Element _ attrs _ =>
      option_map snd (List.find (fun kv => String.eqb (fst kv) a) attrs)
  | Text _ => None
  end.

(** [el.textContent] *)
Fixpoint textContent (n : Node) : string :=
  match n with
  | Text d => d
  | Element _ _ cs =>
      (fix all (l : list Node) : string :=
         match l with
         | [] => EmptyString
         | c :: l' => textContent c +:+ all l'
         end) cs
  end.

(** The element [n] and the elements below it, in tree order. *)
Fixpoint elementsFrom (anc : list Node) (p : list nat) (n : Node) : list Handle :=
  match n with
  | Text _ => []
  | Element _ _ cs =>
      mkHandle n anc p ::
      (fix children (i : nat) (l : list Node) : list Handle :=
         match l with
         | [] => []
         | c :: l' => elementsFrom (n :: anc) (p ++ [i]) c ++ children (S i) l'
         end) 0%nat cs
  end.

(** The elements strictly below a handle, in tree order. *)
Definition descendants (h : Handle) : list Handle :=
  List.tl (elementsFrom (ancestors h) (path h) (node h)).

Inductive Selector :=
| Tag (t : string)                          (* [t] *)
| AttrIs (a v : string)                     (* [[a="v"]] *)
| AttrEndsWith (a v : string)               (* [[a$="v"]] *)
| Both (s1 s2 : Selector)                   (* [s1s2], a compound *)
| Inside (outer inner : Selector).          (* [outer inner] *)

Fixpoint matches (sel : Selector) (anc : list Node) (n : Node) : bool :=
  match sel with
  | Tag t => String.eqb (localNameOf n) t
  | AttrIs a v =>
      match getAttribute n a with Some x => String.eqb x v | None => false end
  | AttrEndsWith a v =>
      match getAttribute n a with
      | Some x => JS.truthy v && JS.endsWith x v
      | None => false
      end
  | Both s1 s2 => matches s1 anc n && matches s2 anc n
  | Inside outer inner =>
      matches inner anc n &&
      (fix up (l : list Node) : bool :=
         match l with
         | [] => false
         | a :: l' => matches outer l' a || up l'
         end) anc
  end.

Definition selects (sel : Selector) (h : Handle) : bool :=
  matches sel (ancestors h) (node h).

(** [document.querySelectorAll(sel)] and [document.querySelector(sel)],
    the document being given by its root element. *)
Definition querySelectorAll (sel : Selector) (root : Node) : list Handle :=
  List.filter (selects sel) (elementsFrom [] [] root).

Definition querySelector (sel : Selector) (root : Node) : option Handle :=
  List.head (querySelectorAll sel root).

(** [el.querySelector(sel)] *)
Definition querySelectorIn (sel : Selector) (h : Handle) : option Handle :=
  List.head (List.filter (selects sel) (descendants h)).

End Dom.

(** ** The speech engine

    [window.speechSynthesis]: utterance objects live in a heap and are
    shared by reference between the script and the engine's queue. *)

Module Speech.

Record Voice := mkVoice {
  name : string;
  voiceLang : string
}.

Record Utterance := mkUtterance {
  text : string;
  rate : Q;
  pitch : Q;
  volume : Q;
  lang : option string;
  voice : option Voice
}.

Record Synthesis := mkSynthesis {
  heap : gmap nat Utterance;   (* the utterances created so far *)
  fresh : nat;                 (* the next object identity *)
  queue : list nat;            (* in flight first, then pending *)
  paused : bool
}.

Definition initial : Synthesis := mkSynthesis ∅ 0 [] false.

(** [synthesis.speaking] *)
Definition speaking (y : Synthesis) : bool :=
  match queue y with [] => false | _ :: _ => true end.

(** [new SpeechSynthesisUtterance(text)] with its fields set *)
Definition create (u : Utterance) (y : Synthesis) : nat * Synthesis :=
  (fresh y, mkSynthesis (<[fresh y := u]> (heap y)) (S (fresh y)) (queue y) (paused y)).

(** [synthesis.speak(u)] *)
Definition speak (u : nat) (y : Synthesis) : Synthesis :=
  mkSynthesis (heap y) (fresh y) (queue y ++ [u]) (paused y).

(** [synthesis.cancel()] *)
Definition cancel (y : Synthesis) : Synthesis :=
  mkSynthesis (heap y) (fresh y) [] (paused y).

(** [synthesis.pause()] and [synthesis.resume()] *)
Definition pause (y : Synthesis) : Synthesis :=
  mkSynthesis (heap y) (fresh y) (queue y) true.
Definition resume (y : Synthesis) : Synthesis :=
  mkSynthesis (heap y) (fresh y) (queue y) false.

(** [u.rate = r] on the utterance object [u] *)
Definition setRate (u : nat) (r : Q) (y : Synthesis) : Synthesis :=
  mkSynthesis
    (alter (fun x => mkUtterance (text x) r (pitch x) (volume x) (lang x) (voice x)) u
       (heap y))
    (fresh y) (queue y) (paused y).

(** The engine finishes [u]: it leaves the queue if it was in flight. A
    callback of an utterance that is no longer in flight finds the
    queue as it is. *)
Definition finish (u : nat) (y : Synthesis) : Synthesis :=
  match queue y with
  | v :: rest =>
      if (v =? u)%nat then mkSynthesis (heap y) (fresh y) rest (paused y) else y
  | [] => y
  end.

(** The utterance in flight. *)
Definition inFlight (y : Synthesis) : option nat := List.head (queue y).

End Speech.

(** ** The content script ([src/content/content.ts]) *)

Module Content.

(** List of bot/moderator accounts to filter out *)
Definition FILTERED_AUTHORS : list string :=
  ["automoderator"; "automod"; "moderator"; "bot"; "modbot"; "reddit"].

(** [FILTERED_AUTHORS.includes(x)] *)
Definition listIncludes (l : list string) (x : string) : bool :=
  existsb (String.eqb x) l.

(** Check if an author should be filtered out *)
Definition shouldFilterAuthor (author : option string) : bool :=
  match JS.orNull author with
  | None => false
  | Some author =>
      let lowerAuthor := JS.toLowerCase author in
      if listIncludes FILTERED_AUTHORS lowerAuthor then true
      else if JS.includes lowerAuthor "bot" then true
      else if JS.endsWith lowerAuthor "bot" || JS.endsWith lowerAuthor "_bot" then true
      else if JS.startsWith lowerAuthor "mod" then true
      else false
  end.

(** [/\[([^\]]+)\]\([^\)]+\)/] *)
Definition markdownLink : Regex.regex :=
  Regex.cat [Regex.Lit "["; Regex.Group (Regex.Plus (Regex.notChar "]")); Regex.Lit "]";
             Regex.Lit "("; Regex.Plus (Regex.notChar ")"); Regex.Lit ")"].

(** [/https?:\/\/[^\s]+/] *)
Definition httpUrl : Regex.regex :=
  Regex.cat [Regex.Str "http"; Regex.Opt "s"; Regex.Str "://";
             Regex.PlusWide Regex.notSpace].

(** [/www\.[^\s]+/] *)
Definition wwwUrl : Regex.regex :=
  Regex.cat [Regex.Str "www."; Regex.PlusWide Regex.notSpace].

(** [/\br\/\w+/] *)
Definition subredditLink : Regex.regex :=
  Regex.cat [Regex.Boundary; Regex.Str "r/"; Regex.Plus JS.isWord].

(** [/\bu\/\w+/] *)
Definition userMention : Regex.regex :=
  Regex.cat [Regex.Boundary; Regex.Str "u/"; Regex.Plus JS.isWord].

(** [/\s+/] *)
Definition spaces : Regex.regex := Regex.PlusWide Regex.space.

(** Remove URLs from text *)
Definition removeLinks (text : string) : string :=
  (* Remove markdown links [text](url) *)
  let text := Regex.replaceAll markdownLink Regex.dollar1 text in
  (* Remove plain URLs (http, https, www) *)
  let text := Regex.replaceAll httpUrl (Regex.text "") text in
  let text := Regex.replaceAll wwwUrl (Regex.text "") text in
  (* Remove subreddit links (r/something) *)
  let text := Regex.replaceAll subredditLink (Regex.text "") text in
  (* Remove user mentions (u/someone) *)
  let text := Regex.replaceAll userMention (Regex.text "") text in
  (* Clean up extra spaces *)
  JS.trim (Regex.replaceAll spaces (Regex.text " ") text).

(** *** Voices *)

Definition getVoiceForIndex (filteredVoices : list Speech.Voice) (useUniqueVoices : bool)
    (selectedVoiceNames : list string) (index : Z) : option Speech.Voice :=
  if (length filteredVoices =? 0)%nat then None
  else if negb useUniqueVoices then filteredVoices !! 0%nat
  else
    (* If user has selected specific voices, use only those *)
    let voicesToUse :=
      if (0 <? length selectedVoiceNames)%nat then
        let voicesToUse :=
          List.filter (fun v => listIncludes selectedVoiceNames (Speech.name v)) filteredVoices in
        if (length voicesToUse =? 0)%nat then filteredVoices else voicesToUse
      else filteredVoices in
    let voiceIndex := Z.rem index (Z.of_nat (length voicesToUse)) in
    JS.nth voicesToUse voiceIndex.

(** *** Expansion of the comment tree *)

Inductive Strategy := Breadth | Depth | Balanced.

Module Control.
(** A "More replies" button and its depth. *)
Record t := mk { button : Dom.Handle; depth : JS.number }.
End Control.

Definition commentSelector : Dom.Selector := Dom.Tag "shreddit-comment".
Definition topLevelSelector : Dom.Selector :=
  Dom.Both (Dom.Tag "shreddit-comment") (Dom.AttrIs "depth" "0").
Definition partialSelector : Dom.Selector := Dom.Tag "faceplate-partial".

(** [document.querySelectorAll('shreddit-comment').length] *)
Definition countComments (doc : Dom.Node) : Z :=
  Z.of_nat (length (Dom.querySelectorAll commentSelector doc)).

(** [document.querySelectorAll('shreddit-comment[depth="0"]').length] *)
Definition countTopLevel (doc : Dom.Node) : Z :=
  Z.of_nat (length (Dom.querySelectorAll topLevelSelector doc)).

(** The walk up the parents of a partial: one more than the depth of the
    nearest comment above it, 0 when there is none. *)
Fixpoint depthFrom (parents : list Dom.Node) : JS.number :=
  match parents with
  | [] => Some 0%Z
  | parent :: above =>
      if String.eqb (JS.toLowerCase (Dom.localNameOf parent)) "shreddit-comment"
      then JS.add (JS.parseInt (JS.orElse (Dom.getAttribute parent "depth") "0")) (Some 1%Z)
      else depthFrom above
  end.

(** The callback of [.map] over the partials: [null] unless the partial
    holds a button labelled "more replies" or "more comment". *)
Definition moreControl (partial : Dom.Handle) : option Control.t :=
  match Dom.querySelectorIn (Dom.Tag "button") partial with
  | None => None
  | Some button =>
      let text := JS.toLowerCase (Dom.textContent (Dom.node button)) in
      if negb (JS.includes text "more replies") && negb (JS.includes text "more comment")
      then None
      else Some (Control.mk button (depthFrom (Dom.ancestors partial)))
  end.

(** For non-depth strategies, check if there are still depth buttons to click *)
Definition hasDepthButtons (doc : Dom.Node) : bool :=
  existsb
    (fun partial =>
       match moreControl partial with
       | None => false
       | Some c => JS.lt (Some 0%Z) (Control.depth c)
       end)
    (Dom.querySelectorAll partialSelector doc).

(** What the page and the user do while the script waits: the document
    after the wait, and whether a [stopExtraction] message arrived. *)
Record Host (W : Type) := mkHost {
  settleBatch : W -> Dom.Node -> list Control.t -> W * Dom.Node * bool;
  settleIteration : W -> Dom.Node -> W * Dom.Node * bool
}.
Arguments settleBatch {W}.
Arguments settleIteration {W}.

Record Extraction (W : Type) := mkExtraction {
  world : W;
  document : Dom.Node;
  isExtracting : bool;
  shouldStopExtraction : bool;
  extractionProgress : Z;
  clicks : list Control.t       (* every [button.click()] so far *)
}.
Arguments mkExtraction {W}.
Arguments world {W}.
Arguments document {W}.
Arguments isExtracting {W}.
Arguments shouldStopExtraction {W}.
Arguments extractionProgress {W}.
Arguments clicks {W}.

Definition setProgress {W} (n : Z) (x : Extraction W) : Extraction W :=
  mkExtraction (world x) (document x) (isExtracting x) (shouldStopExtraction x) n (clicks x).

Definition setExtracting {W} (b : bool) (x : Extraction W) : Extraction W :=
  mkExtraction (world x) (document x) b (shouldStopExtraction x) (extractionProgress x) (clicks x).

Section Expansion.

Context {W : Type} (host : Host W).
Variables (targetDepth maxTopLevel maxTotal : Z) (strategy : Strategy).

(** The strategy filter on the buttons. *)
Definition strategyFilter (topLevelCount : Z) (item : Control.t) : bool :=
  match strategy with
  | Breadth =>
      if JS.strictEq (Control.depth item) (Some 0%Z) && (maxTopLevel <=? topLevelCount)%Z
      then false
      else JS.le (Control.depth item) (Some (Z.min 2 targetDepth))
  | Depth =>
      if JS.strictEq (Control.depth item) (Some 0%Z)
         && (Z.min 10 maxTopLevel <=? topLevelCount)%Z
      then false
      else JS.lt (Control.depth item) (Some targetDepth)
  | Balanced =>
      if JS.strictEq (Control.depth item) (Some 0%Z) && (maxTopLevel <=? topLevelCount)%Z
      then false
      else JS.lt (Control.depth item) (Some targetDepth)
  end.

(** The comparator of the sort. *)
Definition order (a b : Control.t) : JS.number :=
  match strategy with
  | Breadth => JS.sub (Control.depth a) (Control.depth b)
  | Depth => JS.sub (Control.depth b) (Control.depth a)
  | Balanced => JS.sub (Control.depth a) (Control.depth b)
  end.

(** Find all "More replies" buttons with their depths *)
Definition moreButtons (doc : Dom.Node) (topLevelCount : Z) : list Control.t :=
  JS.sort order
    (List.filter (strategyFilter topLevelCount)
       (omap moreControl (Dom.querySelectorAll partialSelector doc))).

Definition batchSize : nat :=
  match strategy with Breadth => 3 | _ => 2 end.

(** The loop over the batches, [i] being its counter; it runs at most
    once per button. *)
Fixpoint clickBatches (fuel i : nat) (buttonsToClick : list Control.t)
    (x : Extraction W) : Extraction W :=
  match fuel with
  | O => x
  | S fuel' =>
      if (length buttonsToClick <=? i)%nat then x
      else if shouldStopExtraction x then x
      else
        let currentCount := countComments (document x) in
        let x := setProgress currentCount x in
        if (maxTotal <=? currentCount)%Z then x
        else
          let batch := firstn batchSize (skipn i buttonsToClick) in
          let '(w, d, stop) := settleBatch host (world x) (document x) batch in
          clickBatches fuel' (i + batchSize) buttonsToClick
            (mkExtraction w d (isExtracting x) (shouldStopExtraction x || stop)
               (extractionProgress x) (clicks x ++ batch))
  end.

(** The [while] loop, [remaining] being [maxIterations - iterations]. *)
Fixpoint iterate (remaining : nat) (x : Extraction W) : Extraction W :=
  match remaining with
  | O => x
  | S remaining' =>
      if shouldStopExtraction x then x
      else
        (* Count current comments FIRST before finding buttons *)
        let currentTotal := countComments (document x) in
        let x := setProgress currentTotal x in
        let topLevelCount := countTopLevel (document x) in
        (* STOP if we've hit ANY limit *)
        if (maxTotal <=? currentTotal)%Z then x
        else if (maxTopLevel <=? topLevelCount)%Z
                && negb (match strategy with Depth => true | _ => false end)
                && negb (hasDepthButtons (document x)) then x
        else
          let buttons := moreButtons (document x) topLevelCount in
          if (length buttons =? 0)%nat then x
          else
            let remainingBudget := (maxTotal - currentTotal)%Z in
            if (remainingBudget <=? 0)%Z then x
            else
              let estimatedCommentsPerButton := 7%Z in
              let maxButtonsToClick :=
                Z.max 1 (remainingBudget / estimatedCommentsPerButton) in
              let buttonsToClick :=
                firstn (Z.to_nat (Z.min (Z.of_nat (length buttons)) maxButtonsToClick))
                  buttons in
              let x := clickBatches (length buttonsToClick) 0 buttonsToClick x in
              let '(w, d, stop) := settleIteration host (world x) (document x) in
              iterate remaining'
                (mkExtraction w d (isExtracting x) (shouldStopExtraction x || stop)
                   (extractionProgress x) (clicks x))
  end.

Definition maxIterations : nat := 50.

(** Auto-expand "More replies" buttons with strategy support *)
Definition expandCommentsToDepth (x : Extraction W) : Extraction W :=
  let x := mkExtraction (world x) (document x) true false
             (extractionProgress x) (clicks x) in
  (* Check initial state *)
  let initialComments := countComments (document x) in
  let x := setProgress initialComments x in
  (* If we already have too many, don't expand at all *)
  if (maxTotal <=? initialComments)%Z then setExtracting false x
  else
    let x := iterate maxIterations x in
    let finalCount := countComments (document x) in
    setExtracting false (setProgress finalCount x).

End Expansion.

(** *** Extraction *)

Module CommentData.
Record t := mk {
  id : string;
  text : string;
  author : option string;
  depth : JS.number;
  permalink : string;
  element : Dom.Handle
}.
End CommentData.

(** [a || b] on element handles. *)
Definition orHandle (a b : option Dom.Handle) : option Dom.Handle :=
  match a with Some _ => a | None => b end.

(** [el?.textContent?.trim() || ''] *)
Definition trimmedText (el : option Dom.Handle) : string :=
  match el with
  | Some h => JS.trim (Dom.textContent (Dom.node h))
  | None => EmptyString
  end.

Definition extractPostContent (doc : Dom.Node) : string * string :=
  let titleElement :=
    orHandle (Dom.querySelector (Dom.Inside (Dom.Tag "shreddit-post") (Dom.Tag "h1")) doc)
      (orHandle (Dom.querySelector (Dom.AttrIs "slot" "title") doc)
         (Dom.querySelector (Dom.Tag "h1") doc)) in
  let title := removeLinks (trimmedText titleElement) in
  let bodyElement :=
    orHandle
      (Dom.querySelector
         (Dom.Inside (Dom.Tag "shreddit-post")
            (Dom.Both (Dom.Tag "div") (Dom.AttrIs "slot" "text-body"))) doc)
      (orHandle (Dom.querySelector (Dom.AttrIs "data-click-id" "text") doc)
         (Dom.querySelector
            (Dom.Both (Dom.Tag "div") (Dom.AttrIs "data-test-id" "post-content")) doc)) in
  let body := removeLinks (trimmedText bodyElement) in
  (title, body).

(** The callback of [commentElements.forEach], on the records pushed so
    far and the count of filtered authors. *)
Definition visitComment (acc : list CommentData.t * Z) (commentEl : Dom.Handle)
    : list CommentData.t * Z :=
  let '(extractedComments, filteredCount) := acc in
  let attr := Dom.getAttribute (Dom.node commentEl) in
  let thingId := JS.orElse (attr "thingid") "" in
  let id :=
    if JS.truthy thingId then thingId
    else "comment-" +:+ JS.ofNat (length extractedComments) in
  let author := JS.orNull (attr "author") in
  let depth := JS.parseInt (JS.orElse (attr "depth") "0") in
  if shouldFilterAuthor author then (extractedComments, (filteredCount + 1)%Z)
  else
    let contentDiv :=
      Dom.querySelectorIn (Dom.AttrEndsWith "id" "-comment-rtjson-content") commentEl in
    let text := trimmedText contentDiv in
    (* Remove links from comment text *)
    let text := removeLinks text in
    if negb (JS.truthy text) then (extractedComments, filteredCount)
    else
      let permalink := JS.orElse (attr "permalink") ("#" +:+ id) in
      (extractedComments ++ [CommentData.mk id text author depth permalink commentEl],
       filteredCount).

Definition walkComments (doc : Dom.Node) : list CommentData.t * Z :=
  List.fold_left visitComment (Dom.querySelectorAll commentSelector doc) ([], 0%Z).

Definition extractComments (doc : Dom.Node) : list CommentData.t :=
  fst (walkComments doc).

(** The number the function logs as filtered out. *)
Definition filteredCount (doc : Dom.Node) : Z := snd (walkComments doc).

(** *** Playback *)

Inductive ItemType := title | body | comment.

Module Item.
(** An entry of [allContent]. *)
Record t := mk {
  type : ItemType;
  text : string;
  author : option string;
  depth : option JS.number;
  id : option string
}.
End Item.

(** What the script does to the page and the engine, in order. *)
Inductive Effect :=
| HighlightPost
| HighlightComment (id : string)
| ClearHighlight
| Speak (index : Z) (utterance : nat).

Record State := mkState {
  comments : list CommentData.t;
  currentIndex : Z;
  playbackSpeed : Q;
  isPlaying : bool;
  isPaused : bool;
  synthesis : Speech.Synthesis;
  currentUtterance : option nat;
  availableVoices : list Speech.Voice;
  filteredVoices : list Speech.Voice;
  useUniqueVoices : bool;
  voiceLocale : string;
  selectedVoiceNames : list string;
  postTitle : string;
  postBody : string;
  allContent : list Item.t;
  timers : nat;      (* pending [setTimeout(() => readContent(currentIndex), 100)] *)
  journal : list Effect
}.

Definition setCurrentIndex (i : Z) (s : State) : State :=
  mkState (comments s) i (playbackSpeed s) (isPlaying s) (isPaused s) (synthesis s)
    (currentUtterance s) (availableVoices s) (filteredVoices s) (useUniqueVoices s)
    (voiceLocale s) (selectedVoiceNames s) (postTitle s) (postBody s) (allContent s)
    (timers s) (journal s).

Definition setPlaybackSpeed (r : Q) (s : State) : State :=
  mkState (comments s) (currentIndex s) r (isPlaying s) (isPaused s) (synthesis s)
    (currentUtterance s) (availableVoices s) (filteredVoices s) (useUniqueVoices s)
    (voiceLocale s) (selectedVoiceNames s) (postTitle s) (postBody s) (allContent s)
    (timers s) (journal s).

Definition setFlags (playing paused : bool) (s : State) : State :=
  mkState (comments s) (currentIndex s) (playbackSpeed s) playing paused (synthesis s)
    (currentUtterance s) (availableVoices s) (filteredVoices s) (useUniqueVoices s)
    (voiceLocale s) (selectedVoiceNames s) (postTitle s) (postBody s) (allContent s)
    (timers s) (journal s).

Definition setSynthesis (y : Speech.Synthesis) (s : State) : State :=
  mkState (comments s) (currentIndex s) (playbackSpeed s) (isPlaying s) (isPaused s) y
    (currentUtterance s) (availableVoices s) (filteredVoices s) (useUniqueVoices s)
    (voiceLocale s) (selectedVoiceNames s) (postTitle s) (postBody s) (allContent s)
    (timers s) (journal s).

Definition setCurrentUtterance (u : option nat) (s : State) : State :=
  mkState (comments s) (currentIndex s) (playbackSpeed s) (isPlaying s) (isPaused s)
    (synthesis s) u (availableVoices s) (filteredVoices s) (useUniqueVoices s)
    (voiceLocale s) (selectedVoiceNames s) (postTitle s) (postBody s) (allContent s)
    (timers s) (journal s).

Definition setUseUniqueVoices (b : bool) (s : State) : State :=
  mkState (comments s) (currentIndex s) (playbackSpeed s) (isPlaying s) (isPaused s)
    (synthesis s) (currentUtterance s) (availableVoices s) (filteredVoices s) b
    (voiceLocale s) (selectedVoiceNames s) (postTitle s) (postBody s) (allContent s)
    (timers s) (journal s).

Definition setTimers (n : nat) (s : State) : State :=
  mkState (comments s) (currentIndex s) (playbackSpeed s) (isPlaying s) (isPaused s)
    (synthesis s) (currentUtterance s) (availableVoices s) (filteredVoices s)
    (useUniqueVoices s) (voiceLocale s) (selectedVoiceNames s) (postTitle s) (postBody s)
    (allContent s) n (journal s).

Definition setContent (cs : list CommentData.t) (t b : string) (items : list Item.t)
    (s : State) : State :=
  mkState cs (currentIndex s) (playbackSpeed s) (isPlaying s) (isPaused s) (synthesis s)
    (currentUtterance s) (availableVoices s) (filteredVoices s) (useUniqueVoices s)
    (voiceLocale s) (selectedVoiceNames s) t b items (timers s) (journal s).

Definition perform (e : Effect) (s : State) : State :=
  mkState (comments s) (currentIndex s) (playbackSpeed s) (isPlaying s) (isPaused s)
    (synthesis s) (currentUtterance s) (availableVoices s) (filteredVoices s)
    (useUniqueVoices s) (voiceLocale s) (selectedVoiceNames s) (postTitle s) (postBody s)
    (allContent s) (timers s) (journal s ++ [e]).

Definition setVoices (available filtered : list Speech.Voice) (locale : string)
    (s : State) : State :=
  mkState (comments s) (currentIndex s) (playbackSpeed s) (isPlaying s) (isPaused s)
    (synthesis s) (currentUtterance s) available filtered (useUniqueVoices s) locale
    (selectedVoiceNames s) (postTitle s) (postBody s) (allContent s) (timers s) (journal s).

Definition setSelectedVoiceNames (names : list string) (s : State) : State :=
  mkState (comments s) (currentIndex s) (playbackSpeed s) (isPlaying s) (isPaused s)
    (synthesis s) (currentUtterance s) (availableVoices s) (filteredVoices s)
    (useUniqueVoices s) (voiceLocale s) names (postTitle s) (postBody s) (allContent s)
    (timers s) (journal s).

(** Don't filter by locale anymore - allow mixing. Just get all English voices *)
Definition filterVoicesByLocale (locale : string) (s : State) : State :=
  let english :=
    List.filter
      (fun v => JS.startsWith (Speech.voiceLang v) "en-" || String.eqb (Speech.voiceLang v) "en")
      (availableVoices s) in
  setVoices (availableVoices s)
    (if (length english =? 0)%nat then availableVoices s else english) locale s.

(** Load available voices and filter by locale; [voices] is what
    [synthesis.getVoices()] answers. *)
Definition loadVoices (voices : list Speech.Voice) (s : State) : State :=
  filterVoicesByLocale (voiceLocale s) (setVoices voices (filteredVoices s) (voiceLocale s) s).

(** The script as it is loaded on a page. *)
Definition loaded (voices : list Speech.Voice) : State :=
  loadVoices voices
    (mkState [] 0 1 false false Speech.initial None [] [] true "en-US" []
       EmptyString EmptyString [] 0 []).

(** The highlight of an item, before it is spoken. [highlightComment]
    looks the comment up with the selector [shreddit-comment[thingid="id"]];
    it returns whether it finds it or not, the id being one that the
    selector can quote as it is. *)
Definition highlight (item : Item.t) (s : State) : State :=
  match Item.type item with
  | title => perform HighlightPost s
  | body => perform HighlightPost s
  | comment =>
      match Item.id item with
      | Some i => if JS.truthy i then perform (HighlightComment i) s else s
      | None => s
      end
  end.

Definition readContent (index : Z) (s : State) : State :=
  if (Z.of_nat (length (allContent s)) <=? index)%Z || (index <? 0)%Z then s
  else
    match JS.nth (allContent s) index with
    | None => s
    | Some item =>
        let voice :=
          getVoiceForIndex (filteredVoices s) (useUniqueVoices s)
            (selectedVoiceNames s) index in
        let s := highlight item s in
        let '(u, y) :=
          Speech.create
            (Speech.mkUtterance (Item.text item) (playbackSpeed s) 1 1
               (Some (voiceLocale s)) voice)
            (synthesis s) in
        let s := setCurrentUtterance (Some u) (setSynthesis y s) in
        let s := perform (Speak index u) (setSynthesis (Speech.speak u (synthesis s)) s) in
        setFlags true false s
    end.

(** [currentUtterance.onend], the same closure on every utterance. *)
Definition onend (s : State) : State :=
  if (currentIndex s <? Z.of_nat (length (allContent s)) - 1)%Z then
    setTimers (S (timers s)) (setCurrentIndex (currentIndex s + 1) s)
  else
    perform ClearHighlight (setFlags false (isPaused s) s).

(** [currentUtterance.onerror] *)
Definition onerror (s : State) : State := setFlags false (isPaused s) s.

Definition cleanup (s : State) : State :=
  let s := setSynthesis (Speech.cancel (synthesis s)) s in
  let s := perform ClearHighlight s in
  setCurrentUtterance None (setFlags false false s).

Inductive Request :=
| play | pause | stop | next | previous
| setSpeed (speed : Q)
| toggleUniqueVoices (enabled : bool)
| setVoiceLocale (locale : string)
| cleanupRequest.

(** The playback cases of [chrome.runtime.onMessage]. *)
Definition onMessage (request : Request) (s : State) : State :=
  match request with
  | play =>
      if Speech.paused (synthesis s) then
        setFlags true false (setSynthesis (Speech.resume (synthesis s)) s)
      else if negb (Speech.speaking (synthesis s)) then readContent (currentIndex s) s
      else s
  | pause =>
      if Speech.speaking (synthesis s) then
        setFlags false true (setSynthesis (Speech.pause (synthesis s)) s)
      else s
  | stop =>
      let s := setSynthesis (Speech.cancel (synthesis s)) s in
      let s := setCurrentIndex 0 s in
      let s := setFlags false false s in
      perform ClearHighlight s
  | next =>
      let s := setSynthesis (Speech.cancel (synthesis s)) s in
      if (currentIndex s <? Z.of_nat (length (allContent s)) - 1)%Z then
        let s := setCurrentIndex (currentIndex s + 1) s in
        readContent (currentIndex s) s
      else s
  | previous =>
      let s := setSynthesis (Speech.cancel (synthesis s)) s in
      let s := if (0 <? currentIndex s)%Z then setCurrentIndex (currentIndex s - 1) s else s in
      readContent (currentIndex s) s
  | setSpeed speed => setPlaybackSpeed speed s
  | toggleUniqueVoices enabled => setUseUniqueVoices enabled s
  | setVoiceLocale locale => filterVoicesByLocale locale s
  | cleanupRequest => cleanup s
  end.

(** The queue built at the end of the [extractComments] request. *)
Definition buildContent (postTitle postBody : string) (comments : list CommentData.t)
    : list Item.t :=
  (if JS.truthy postTitle then [Item.mk title postTitle None None None] else [])
  ++ (if JS.truthy postBody then [Item.mk body postBody None None None] else [])
  ++ List.map
       (fun c =>
          Item.mk comment (CommentData.text c) (CommentData.author c)
            (Some (CommentData.depth c)) (Some (CommentData.id c)))
       comments.

(** The [extractComments] request before the expansion: the settings it takes. *)
Definition extractionRequested (locale : string) (selectedVoices : list string)
    (s : State) : State :=
  let s := setSelectedVoiceNames selectedVoices s in
  if String.eqb locale (voiceLocale s) then s else filterVoicesByLocale locale s.

(** The [extractComments] request after the expansion: the queue built
    from the document the expansion leaves. *)
Definition extracted (doc : Dom.Node) (s : State) : State :=
  let '(t, b) := extractPostContent doc in
  let cs := extractComments doc in
  setContent cs t b (buildContent t b cs) (setCurrentIndex 0 s).

(** The observer of the page address. *)
Definition urlChanged (s : State) : State :=
  setCurrentIndex 0 (setContent [] EmptyString EmptyString [] (cleanup s)).

(** Everything that can happen to the script between two of its turns. *)
Inductive Event :=
| Message (request : Request)
| UtteranceEnd (u : nat)        (* the engine calls [onend] of utterance [u] *)
| UtteranceError (u : nat)      (* the engine calls [onerror] of utterance [u] *)
| Timeout                       (* a pending timer fires *)
| ExtractionRequested (locale : string) (selectedVoices : list string)
| Extracted (doc : Dom.Node)
| VoicesChanged (voices : list Speech.Voice)   (* [synthesis.onvoiceschanged] *)
| UrlChanged.

Definition step (e : Event) (s : State) : State :=
  match e with
  | Message request => onMessage request s
  | UtteranceEnd u =>
      match Speech.heap (synthesis s) !! u with
      | Some _ => onend (setSynthesis (Speech.finish u (synthesis s)) s)
      | None => s
      end
  | UtteranceError u =>
      match Speech.heap (synthesis s) !! u with
      | Some _ => onerror (setSynthesis (Speech.finish u (synthesis s)) s)
      | None => s
      end
  | Timeout =>
      match timers s with
      | O => s
      | S n => let s := setTimers n s in readContent (currentIndex s) s
      end
  | ExtractionRequested locale selectedVoices =>
      extractionRequested locale selectedVoices s
  | Extracted doc => extracted doc s
  | VoicesChanged voices => loadVoices voices s
  | UrlChanged => urlChanged s
  end.

Definition run (events : list Event) (s : State) : State :=
  List.fold_left (fun s e => step e s) events s.

End Content.

(** ** The playback engine ([src/playback/playback.ts]) *)

Module PlaybackEngine.

Module Comment.
Record t := mk { text : string; author : option string }.
End Comment.

Record PlaybackState := mkPlaybackState {
  isPlaying : bool;
  isPaused : bool;
  stateIndex : Z;          (* [currentIndex] *)
  totalComments : Z
}.

(** The calls of the two callbacks, in order. *)
Inductive Emission :=
| StateChange (state : PlaybackState)
| CommentChange (index : Z)
| Speak (index : Z) (utterance : nat).

Record Engine := mkEngine {
  synthesis : Speech.Synthesis;
  utterance : option nat;
  comments : list Comment.t;
  currentIndex : Z;
  playbackSpeed : Q;
  onStateChange : bool;    (* whether a callback is set *)
  onCommentChange : bool;
  timers : nat;      (* pending [setTimeout(() => this.readComment(this.currentIndex), 100)] *)
  journal : list Emission
}.

(** [new PlaybackEngine()] *)
Definition create : Engine :=
  mkEngine Speech.initial None [] 0 1 false false 0 [].

Definition setSynthesis (y : Speech.Synthesis) (e : Engine) : Engine :=
  mkEngine y (utterance e) (comments e) (currentIndex e) (playbackSpeed e)
    (onStateChange e) (onCommentChange e) (timers e) (journal e).

Definition setUtterance (u : option nat) (e : Engine) : Engine :=
  mkEngine (synthesis e) u (comments e) (currentIndex e) (playbackSpeed e)
    (onStateChange e) (onCommentChange e) (timers e) (journal e).

Definition setComments (cs : list Comment.t) (e : Engine) : Engine :=
  mkEngine (synthesis e) (utterance e) cs (currentIndex e) (playbackSpeed e)
    (onStateChange e) (onCommentChange e) (timers e) (journal e).

Definition setCurrentIndex (i : Z) (e : Engine) : Engine :=
  mkEngine (synthesis e) (utterance e) (comments e) i (playbackSpeed e)
    (onStateChange e) (onCommentChange e) (timers e) (journal e).

Definition setPlaybackSpeed (r : Q) (e : Engine) : Engine :=
  mkEngine (synthesis e) (utterance e) (comments e) (currentIndex e) r
    (onStateChange e) (onCommentChange e) (timers e) (journal e).

Definition setCallbacks (state comment : bool) (e : Engine) : Engine :=
  mkEngine (synthesis e) (utterance e) (comments e) (currentIndex e) (playbackSpeed e)
    state comment (timers e) (journal e).

Definition setTimers (n : nat) (e : Engine) : Engine :=
  mkEngine (synthesis e) (utterance e) (comments e) (currentIndex e) (playbackSpeed e)
    (onStateChange e) (onCommentChange e) n (journal e).

Definition emit (x : Emission) (e : Engine) : Engine :=
  mkEngine (synthesis e) (utterance e) (comments e) (currentIndex e) (playbackSpeed e)
    (onStateChange e) (onCommentChange e) (timers e) (journal e ++ [x]).

(** Get current playback state *)
Definition getState (e : Engine) : PlaybackState :=
  mkPlaybackState
    (Speech.speaking (synthesis e) && negb (Speech.paused (synthesis e)))
    (Speech.paused (synthesis e))
    (currentIndex e)
    (Z.of_nat (length (comments e))).

(** Emit state change to callback *)
Definition emitStateChange (e : Engine) : Engine :=
  if onStateChange e then emit (StateChange (getState e)) e else e.

(** Load comments for playback *)
Definition loadComments (cs : list Comment.t) (e : Engine) : Engine :=
  emitStateChange (setCurrentIndex 0 (setComments cs e)).

(** Stop playback completely *)
Definition stop (e : Engine) : Engine :=
  let e := setSynthesis (Speech.cancel (synthesis e)) e in
  let e := setCurrentIndex 0 e in
  let e := setUtterance None e in
  emitStateChange e.

(** Read a specific comment *)
Definition readComment (index : Z) (e : Engine) : Engine :=
  if (index <? 0)%Z || (Z.of_nat (length (comments e)) <=? index)%Z then e
  else
    match JS.nth (comments e) index with
    | None => e
    | Some comment =>
        (* Notify about comment change *)
        let e := if onCommentChange e then emit (CommentChange index) e else e in
        (* Create utterance *)
        let '(u, y) :=
          Speech.create
            (Speech.mkUtterance (Comment.text comment) (playbackSpeed e) 1 1 None None)
            (synthesis e) in
        let e := setUtterance (Some u) (setSynthesis y e) in
        (* Start speaking *)
        let e := emit (Speak index u) (setSynthesis (Speech.speak u (synthesis e)) e) in
        emitStateChange e
    end.

(** [this.utterance.onend]: when this comment finishes, move to next *)
Definition onend (e : Engine) : Engine :=
  (* Auto-advance to next comment *)
  if (currentIndex e <? Z.of_nat (length (comments e)) - 1)%Z then
    setTimers (S (timers e)) (setCurrentIndex (currentIndex e + 1) e)
  else stop e.

(** [this.utterance.onerror] *)
Definition onerror (e : Engine) : Engine := emitStateChange e.

(** Start or resume playback *)
Definition play (e : Engine) : Engine :=
  if (length (comments e) =? 0)%nat then e
  (* If paused, resume *)
  else if Speech.paused (synthesis e) then
    emitStateChange (setSynthesis (Speech.resume (synthesis e)) e)
  (* If already speaking, don't start again *)
  else if Speech.speaking (synthesis e) then e
  (* Start reading from current index *)
  else readComment (currentIndex e) e.

(** Pause playback *)
Definition pause (e : Engine) : Engine :=
  if Speech.speaking (synthesis e) && negb (Speech.paused (synthesis e)) then
    emitStateChange (setSynthesis (Speech.pause (synthesis e)) e)
  else e.

(** Go to next comment *)
Definition next (e : Engine) : Engine :=
  let e := setSynthesis (Speech.cancel (synthesis e)) e in
  if (currentIndex e <? Z.of_nat (length (comments e)) - 1)%Z then
    let e := setCurrentIndex (currentIndex e + 1) e in
    readComment (currentIndex e) e
  else stop e.

(** Go to previous comment *)
Definition previous (e : Engine) : Engine :=
  let e := setSynthesis (Speech.cancel (synthesis e)) e in
  if (0 <? currentIndex e)%Z then
    let e := setCurrentIndex (currentIndex e - 1) e in
    readComment (currentIndex e) e
  else
    let e := setCurrentIndex 0 e in
    readComment (currentIndex e) e.

(** [Math.max(0.5, Math.min(2.0, speed))], on a finite [speed] *)
Definition clamp (speed : Q) : Q :=
  let m := if Qle_bool 2 speed then 2%Q else speed in
  if Qle_bool m (1 # 2) then (1 # 2)%Q else m.

(** Set playback speed (0.5 - 2.0) *)
Definition setSpeed (speed : Q) (e : Engine) : Engine :=
  let e := setPlaybackSpeed (clamp speed) e in
  (* If currently speaking, update the current utterance *)
  match utterance e with
  | Some u => setSynthesis (Speech.setRate u (playbackSpeed e) (synthesis e)) e
  | None => e
  end.

Inductive Call :=
| LoadComments (cs : list Comment.t)
| Play | Pause | Stop | Next | Previous
| SetSpeed (speed : Q)
| OnStateChangeCallback
| OnCommentChangeCallback.

Definition call (c : Call) (e : Engine) : Engine :=
  match c with
  | LoadComments cs => loadComments cs e
  | Play => play e
  | Pause => pause e
  | Stop => stop e
  | Next => next e
  | Previous => previous e
  | SetSpeed speed => setSpeed speed e
  | OnStateChangeCallback => setCallbacks true (onCommentChange e) e
  | OnCommentChangeCallback => setCallbacks (onStateChange e) true e
  end.

Inductive Event :=
| Method (c : Call)
| UtteranceEnd (u : nat)
| UtteranceError (u : nat)
| Timeout.

Definition step (ev : Event) (e : Engine) : Engine :=
  match ev with
  | Method c => call c e
  | UtteranceEnd u =>
      match Speech.heap (synthesis e) !! u with
      | Some _ => onend (setSynthesis (Speech.finish u (synthesis e)) e)
      | None => e
      end
  | UtteranceError u =>
      match Speech.heap (synthesis e) !! u with
      | Some _ => onerror (setSynthesis (Speech.finish u (synthesis e)) e)
      | None => e
      end
  | Timeout =>
      match timers e with
      | O => e
      | S n => let e := setTimers n e in readComment (currentIndex e) e
      end
  end.

Definition run (events : list Event) (e : Engine) : Engine :=
  List.fold_left (fun e ev => step ev e) events e.

End PlaybackEngine.

(** ** The answers of the content script ([src/content/content.ts])

    The [extractComments] request as a whole and the [getState] request,
    with the module-level variables that the playback state leaves out. *)

Module Listener.

Module Summary.
(** A comment as the answers carry it: the record without its element. *)
Record t := mk {
  id : string;
  author : option string;
  depth : JS.number;
  text : string;
  permalink : string
}.
End Summary.

(** The callback of [comments.map] in the answers. *)
Definition summary (c : Content.CommentData.t) : Summary.t :=
  Summary.mk (Content.CommentData.id c) (Content.CommentData.author c)
    (Content.CommentData.depth c) (Content.CommentData.text c)
    (Content.CommentData.permalink c).

(** The script on its page: the playback state, the limits of the last
    extraction and the page with [isExtracting], [shouldStopExtraction] and
    [extractionProgress]. *)
Record Script (W : Type) := mkScript {
  playback : Content.State;
  maxDepth : Z;
  maxTopLevelComments : Z;
  maxTotalComments : Z;
  expansionStrategy : Content.Strategy;
  page : Content.Extraction W
}.
Arguments mkScript {W}.
Arguments playback {W}.
Arguments maxDepth {W}.
Arguments maxTopLevelComments {W}.
Arguments maxTotalComments {W}.
Arguments expansionStrategy {W}.
Arguments page {W}.

Module ExtractRequest.
(** The [extractComments] request; [None] is a field that is not given
    ([undefined], or an empty string where the source tests with [||]). *)
Record t := mk {
  maxDepth : option Z;
  maxTopLevelComments : option Z;
  maxTotalComments : option Z;
  expansionStrategy : option Content.Strategy;
  voiceLocale : option string;
  selectedVoices : option (list string)
}.
End ExtractRequest.

Module ExtractAnswer.
(** The answer [{ success: true, count, totalItems, ... }]. *)
Record t := mk {
  count : Z;
  totalItems : Z;
  hasTitle : bool;
  hasBody : bool;
  title : string;
  maxDepth : Z;
  maxTopLevelComments : Z;
  maxTotalComments : Z;
  expansionStrategy : Content.Strategy;
  voiceLocale : string;
  comments : list Summary.t
}.
End ExtractAnswer.

(** [request.x !== undefined ? request.x : x] and [request.x || x] *)
Definition given {A : Type} (requested : option A) (stored : A) : A :=
  match requested with Some v => v | None => stored end.

(** The case ['extractComments'] of the listener, no other request than
    [stopExtraction] coming in while it waits for the page. *)
Definition extractComments {W : Type} (host : Content.Host W)
    (request : ExtractRequest.t) (x : Script W) : Script W * ExtractAnswer.t :=
  let depth := given (ExtractRequest.maxDepth request) (maxDepth x) in
  let maxTopLevel := given (ExtractRequest.maxTopLevelComments request) (maxTopLevelComments x) in
  let maxTotal := given (ExtractRequest.maxTotalComments request) (maxTotalComments x) in
  let strategy := given (ExtractRequest.expansionStrategy request) (expansionStrategy x) in
  let locale :=
    JS.orElse (ExtractRequest.voiceLocale request) (Content.voiceLocale (playback x)) in
  let selectedVoices := given (ExtractRequest.selectedVoices request) [] in
  let s := Content.extractionRequested locale selectedVoices (playback x) in
  let p := Content.expandCommentsToDepth host depth maxTopLevel maxTotal strategy (page x) in
  let s := Content.extracted (Content.document p) s in
  (mkScript s depth maxTopLevel maxTotal strategy p,
   ExtractAnswer.mk
     (Z.of_nat (length (Content.comments s)))
     (Z.of_nat (length (Content.allContent s)))
     (JS.truthy (Content.postTitle s))
     (JS.truthy (Content.postBody s))
     (Content.postTitle s)
     depth maxTopLevel maxTotal strategy locale
     (List.map summary (Content.comments s))).

Module StateAnswer.
(** The answer to [getState]. *)
Record t := mk {
  isPlaying : bool;
  isPaused : bool;
  currentIndex : Z;
  totalComments : Z;
  totalItems : Z;
  speed : Q;
  useUniqueVoices : bool;
  voiceCount : Z;
  currentType : option Content.ItemType;
  hasTitle : bool;
  hasBody : bool;
  title : string;
  maxDepth : Z;
  maxTopLevelComments : Z;
  maxTotalComments : Z;
  expansionStrategy : Content.Strategy;
  voiceLocale : string;
  isExtracting : bool;
  extractionProgress : Z;
  comments : list Summary.t
}.
End StateAnswer.

(** The case ['getState'] of the listener. *)
Definition getState {W : Type} (x : Script W) : StateAnswer.t :=
  let s := playback x in
  let currentItem := JS.nth (Content.allContent s) (Content.currentIndex s) in
  (* Calculate selected voice count *)
  let selectedVoiceCount :=
    if (0 <? length (Content.selectedVoiceNames s))%nat then
      let matchingVoices :=
        List.filter
          (fun v => Content.listIncludes (Content.selectedVoiceNames s) (Speech.name v))
          (Content.filteredVoices s) in
      length matchingVoices
    else length (Content.filteredVoices s) in
  StateAnswer.mk
    (Speech.speaking (Content.synthesis s) && negb (Speech.paused (Content.synthesis s)))
    (Speech.paused (Content.synthesis s))
    (Content.currentIndex s)
    (Z.of_nat (length (Content.comments s)))
    (Z.of_nat (length (Content.allContent s)))
    (Content.playbackSpeed s)
    (Content.useUniqueVoices s)
    (Z.of_nat selectedVoiceCount)
    (option_map Content.Item.type currentItem)
    (JS.truthy (Content.postTitle s))
    (JS.truthy (Content.postBody s))
    (Content.postTitle s)
    (maxDepth x) (maxTopLevelComments x) (maxTotalComments x) (expansionStrategy x)
    (Content.voiceLocale s)
    (Content.isExtracting (page x))
    (Content.extractionProgress (page x))
    (List.map summary (Content.comments s)).

End Listener.

(** ** The comment flattener ([src/utils/flattenComments.ts]) *)

Module Utils.

(** Flattens a hierarchical comment tree into reading order: the loop
    pushes every comment onto the output array. *)
Definition flattenComments (comments : list Content.CommentData.t)
    : list Content.CommentData.t :=
  List.fold_left (fun flattened comment => flattened ++ [comment]) comments [].

End Utils.

(** ** The popup ([src/popup/popup.tsx])

    The state of the component that the voice selection and the progress
    display work on. *)

Module Popup.

Record VoiceOption := mkVoiceOption {
  name : string;
  lang : string
}.

Record Settings := mkSettings {
  maxDepth : Z;
  maxTopLevelComments : Z;
  maxTotalComments : Z;
  expansionStrategy : Content.Strategy;
  voiceLocale : string;
  selectedVoices : list string;
  hasCompletedSetup : bool
}.

Definition DEFAULT_VOICES : list string :=
  ["Google UK English Female"; "Google UK English Male"; "Google US English"].

Definition DEFAULT_SETTINGS : Settings :=
  mkSettings 3 50 300 Content.Balanced "en-US" DEFAULT_VOICES false.

(** [{ ...settings, selectedVoices: updated }] *)
Definition withSelectedVoices (updated : list string) (settings : Settings) : Settings :=
  mkSettings (maxDepth settings) (maxTopLevelComments settings) (maxTotalComments settings)
    (expansionStrategy settings) (voiceLocale settings) updated (hasCompletedSetup settings).

(** The voices the component lists: [voiceOptions] and [allEnglish] of
    [loadVoices], on what [getVoices()] answers. *)
Definition voiceOptions (voices : list Speech.Voice) : list VoiceOption :=
  List.map (fun v => mkVoiceOption (Speech.name v) (Speech.voiceLang v)) voices.

Definition allEnglish (voiceOptions : list VoiceOption) : list VoiceOption :=
  List.filter (fun v => JS.startsWith (lang v) "en-" || String.eqb (lang v) "en")
    voiceOptions.

(** The callback of [chrome.storage.sync.get]: ensure default voices are
    set if empty. *)
Definition loadedSettings (items : Settings) : Settings :=
  if (length (selectedVoices items) =? 0)%nat
  then withSelectedVoices DEFAULT_VOICES items
  else items.

(** Toggle voice selection *)
Definition toggleVoice (voiceName : string) (settings : Settings) : Settings :=
  let currentSelected := selectedVoices settings in
  if Content.listIncludes currentSelected voiceName then
    (* Remove voice (but keep at least one) *)
    if (1 <? length currentSelected)%nat then
      let updated :=
        List.filter (fun v => negb (String.eqb v voiceName)) currentSelected in
      withSelectedVoices updated settings
    else settings
  else
    (* Add voice *)
    let updated := currentSelected ++ [voiceName] in
    withSelectedVoices updated settings.

(** Select all voices *)
Definition selectAllVoices (englishVoices : list VoiceOption) (settings : Settings)
    : Settings :=
  let allEnglishNames := List.map name englishVoices in
  withSelectedVoices allEnglishNames settings.

(** Select default voices *)
Definition selectDefaultVoices (settings : Settings) : Settings :=
  withSelectedVoices DEFAULT_VOICES settings.

(** [state?.currentIndex || 0] *)
Definition currentIndex (state : option Listener.StateAnswer.t) : Z :=
  match state with
  | Some a => Listener.StateAnswer.currentIndex a
  | None => 0%Z
  end.

(** [state?.comments || []] *)
Definition comments (state : option Listener.StateAnswer.t) : list Listener.Summary.t :=
  match state with
  | Some a => Listener.StateAnswer.comments a
  | None => []
  end.

(** [(state?.hasTitle ? 1 : 0) + (state?.hasBody ? 1 : 0)] *)
Definition titleBodyOffset (state : option Listener.StateAnswer.t) : Z :=
  ((match state with
    | Some a => if Listener.StateAnswer.hasTitle a then 1 else 0
    | None => 0
    end)
   + (match state with
      | Some a => if Listener.StateAnswer.hasBody a then 1 else 0
      | None => 0
      end))%Z.

(** [state?.currentType === 'comment' ? currentIndex - titleBodyOffset : -1] *)
Definition currentCommentIndex (state : option Listener.StateAnswer.t) : Z :=
  match state with
  | Some a =>
      match Listener.StateAnswer.currentType a with
      | Some Content.comment => (currentIndex state - titleBodyOffset state)%Z
      | _ => (-1)%Z
      end
  | None => (-1)%Z
  end.

(** The comment whose author the progress display names:
    [comments[currentCommentIndex]] when the current item is a comment. *)
Definition displayedComment (state : option Listener.StateAnswer.t)
    : option Listener.Summary.t :=
  match state with
  | Some a =>
      match Listener.StateAnswer.currentType a with
      | Some Content.comment =>
          if (0 <=? currentCommentIndex state)%Z
          then JS.nth (comments state) (currentCommentIndex state)
          else None
      | _ => None
      end
  | None => None
  end.

End Popup.

(** * Vocabulary of the statements *)

(** ** Strings *)

(** [p] occurs in [s], [s] begins with [p], [s] ends with [p]. *)
Definition occursIn (p s : string) : Prop := exists a b, s = a +:+ p +:+ b.

Definition beginsWith (p s : string) : Prop := exists b, s = p +:+ b.

Definition endsIn (p s : string) : Prop := exists a, s = a +:+ p.

(** ** Voices *)

(** The pool restricted to the allowlist when that restriction is not
    empty, the full pool otherwise. *)
Definition restrictedPool (pool : list Speech.Voice) (allowlist : list string)
    : list Speech.Voice :=
  match List.filter (fun v => Content.listIncludes allowlist (Speech.name v)) pool with
  | [] => pool
  | v :: vs => v :: vs
  end.

(** ** A sample page *)

(** A thread under a post with a title: one top-level comment with two
    replies, one of them by AutoModerator, a "more replies" button below
    that comment and a "more comments" button at the top level. *)
Definition sampleThread : Dom.Node :=
  Dom.Element "html" []
    [Dom.Element "shreddit-post" []
       [Dom.Element "h1" [] [Dom.Text " Cats of r/aww "]];
     Dom.Element "shreddit-comment"
       [("depth", "0"); ("author", "alice"); ("thingid", "t1_a")]
       [Dom.Element "div" [("id", "t1_a-comment-rtjson-content")]
          [Dom.Text "See https://example.com now"];
        Dom.Element "shreddit-comment"
          [("depth", "1"); ("author", "AutoModerator"); ("thingid", "t1_b")]
          [Dom.Element "div" [("id", "t1_b-comment-rtjson-content")]
             [Dom.Text "Please read the rules"]];
        Dom.Element "shreddit-comment"
          [("depth", "1"); ("author", "carol")]
          [Dom.Element "div" [("id", "t1_c-comment-rtjson-content")]
             [Dom.Text "Thanks u/alice"]];
        Dom.Element "faceplate-partial" []
          [Dom.Element "button" [] [Dom.Text "3 more replies"]]];
     Dom.Element "faceplate-partial" []
       [Dom.Element "button" [] [Dom.Text "View more comments"]]].

(** A page that adds nothing and a user who never stops the run. *)
Definition stillHost : Content.Host unit :=
  Content.mkHost unit (fun w d _ => (w, d, false)) (fun w d => (w, d, false)).

Definition freshExtraction (doc : Dom.Node) : Content.Extraction unit :=
  Content.mkExtraction tt doc false false 0 [].

(** ** Expansion and extraction *)

(** What the strategy filter lets through, in the words of the budget:
    the depth is a number, below [maxDepth] (at most [min(2, maxDepth)] for
    the breadth strategy). *)
Definition withinDepth (strategy : Content.Strategy) (maxDepth : Z)
    (item : Content.Control.t) : Prop :=
  exists d : Z,
    Content.Control.depth item = Some d /\
    match strategy with
    | Content.Breadth => (d <= Z.min 2 maxDepth)%Z
    | Content.Depth => (d < maxDepth)%Z
    | Content.Balanced => (d < maxDepth)%Z
    end.

(** The cap on the top-level count that closes depth 0 to a strategy. *)
Definition topLevelCap (strategy : Content.Strategy) (maxTopLevel : Z) : Z :=
  match strategy with
  | Content.Depth => Z.min 10 maxTopLevel
  | _ => maxTopLevel
  end.

(** The first button the breadth strategy lets through on the sample
    thread once its single top-level comment fills the top-level budget. *)
Definition sampleControl : Content.Control.t :=
  Eval vm_compute in
    match Content.moreButtons 3 1 Content.Breadth sampleThread 1 with
    | c :: _ => c
    | [] => Content.Control.mk (Dom.mkHandle (Dom.Text "") [] []) None
    end.

(** The author and the sanitized text the extractor reads off a comment
    element, and whether it records the element. *)
Definition authorOf (commentEl : Dom.Handle) : option string :=
  JS.orNull (Dom.getAttribute (Dom.node commentEl) "author").

Definition sanitizedText (commentEl : Dom.Handle) : string :=
  Content.removeLinks
    (Content.trimmedText
       (Dom.querySelectorIn (Dom.AttrEndsWith "id" "-comment-rtjson-content") commentEl)).

Definition recorded (commentEl : Dom.Handle) : bool :=
  negb (Content.shouldFilterAuthor (authorOf commentEl))
  && JS.truthy (sanitizedText commentEl).

(** A record as the data model wants it. *)
Definition wellFormed (r : Content.CommentData.t) : Prop :=
  Content.CommentData.text r <> EmptyString
  /\ Content.shouldFilterAuthor (Content.CommentData.author r) = false
  /\ Content.CommentData.text r = sanitizedText (Content.CommentData.element r)
  /\ Content.CommentData.author r = authorOf (Content.CommentData.element r).

(** ** Sequencers *)

(** The cursor [i] is inside a queue of [n] items (0 when it is empty). *)
Definition inBounds (i : Z) (n : nat) : Prop :=
  (0 <= i <= Z.max 0 (Z.of_nat n - 1))%Z.

(** An effect that speaks does so at an index of a queue of [n] items. *)
Definition speaksWithin (n : nat) (e : Content.Effect) : Prop :=
  match e with
  | Content.Speak i _ => (0 <= i < Z.of_nat n)%Z
  | _ => True
  end.

Definition engineSpeaksWithin (n : nat) (x : PlaybackEngine.Emission) : Prop :=
  match x with
  | PlaybackEngine.Speak i _ => (0 <= i < Z.of_nat n)%Z
  | _ => True
  end.

(** The journal of [e'] is the journal [j] and then emissions that speak
    inside a queue of [n] items only. *)
Definition engineExtends (n : nat) (j : list PlaybackEngine.Emission)
    (e' : PlaybackEngine.Engine) : Prop :=
  exists new,
    PlaybackEngine.journal e' = j ++ new /\ Forall (engineSpeaksWithin n) new.

Definition sampleVoices : list Speech.Voice :=
  [Speech.mkVoice "Google UK English Female" "en-GB";
   Speech.mkVoice "Google UK English Male" "en-GB";
   Speech.mkVoice "Google US English" "en-US"].

(** The content script on the sample thread, its first item being spoken. *)
Definition samplePlaying : Content.State :=
  Content.run
    [Content.ExtractionRequested "en-US" []; Content.Extracted sampleThread;
     Content.Message Content.play]
    (Content.loaded sampleVoices).

(** Then stopped; then the late [onend] of the cancelled utterance; then
    the timer that this callback set. *)
Definition sampleStopped : Content.State :=
  Content.step (Content.Message Content.stop) samplePlaying.

Definition sampleLate : Content.State :=
  Content.step (Content.UtteranceEnd 0) sampleStopped.

Definition sampleResumed : Content.State :=
  Content.step Content.Timeout sampleLate.

(** An id that [highlightComment] can quote as it is in its selector
    [shreddit-comment[thingid="id"]]: it holds no double quote (34), no
    backslash (92) and no line break (10, 12, 13), the characters that end
    or escape a quoted string of CSS. On such an id the selector is well
    formed and [document.querySelector] answers; on another one it may
    throw, and [readContent] then ends before it makes an utterance. *)
Fixpoint quotable (id : string) : bool :=
  match id with
  | EmptyString => true
  | String c r =>
      let n := nat_of_ascii c in
      negb ((n =? 34) || (n =? 92) || (n =? 10) || (n =? 12) || (n =? 13))%nat
      && quotable r
  end.

(** The id of an item is quotable; the title and the body have none. *)
Definition quotableItem (item : Content.Item.t) : bool :=
  match Content.Item.id item with
  | Some id => quotable id
  | None => true
  end.

(** The item at [i], every item of the queue, every comment of a page. *)
Definition quotableAt (s : Content.State) (i : Z) : bool :=
  match JS.nth (Content.allContent s) i with
  | Some item => quotableItem item
  | None => true
  end.

Definition quotableQueue (s : Content.State) : bool :=
  forallb quotableItem (Content.allContent s).

Definition quotablePage (doc : Dom.Node) : bool :=
  forallb (fun c => quotable (Content.CommentData.id c)) (Content.extractComments doc).

(** A rate that an utterance takes: its [rate] attribute holds a number of
    single precision and refuses, with a [TypeError], a number too large
    for one, of 2^128 or so and more. The rates of the popup, from 0.5 to
    2, are taken. *)
Definition rateTaken (r : Q) : bool :=
  Qle_bool (- inject_Z (2 ^ 127)) r && Qle_bool r (inject_Z (2 ^ 127)).

(** [readContent] can read item [i] of [s], every item of its queue: the
    id is quotable and the playback speed is a rate that an utterance
    takes. An event brings nothing else: a page whose comments have
    quotable ids, a speed that an utterance takes as its rate. *)
Definition readableAt (s : Content.State) (i : Z) : bool :=
  quotableAt s i && rateTaken (Content.playbackSpeed s).

Definition readableQueue (s : Content.State) : bool :=
  quotableQueue s && rateTaken (Content.playbackSpeed s).

Definition readableEvent (e : Content.Event) : bool :=
  match e with
  | Content.Extracted doc => quotablePage doc
  | Content.Message (Content.setSpeed speed) => rateTaken speed
  | _ => true
  end.

(** From [s], the script has handed item [i] to the engine in [s']: the
    engine's queue holds one utterance, a new one, with the text of the
    item. The engine speaks it at once when it is not paused; a paused
    engine holds it until [resume()]. *)
Definition handsOver (s : Content.State) (i : Z) (s' : Content.State) : Prop :=
  exists item ut,
    JS.nth (Content.allContent s) i = Some item
    /\ Speech.queue (Content.synthesis s') = [Speech.fresh (Content.synthesis s)]
    /\ Speech.heap (Content.synthesis s') !! Speech.fresh (Content.synthesis s) = Some ut
    /\ Speech.text ut = Content.Item.text item
    /\ Content.currentUtterance s' = Some (Speech.fresh (Content.synthesis s))
    /\ In (Content.Speak i (Speech.fresh (Content.synthesis s))) (Content.journal s').

(** From [s], the script has begun to speak item [i] in [s']: it has
    handed the item to the engine, and the engine is not paused. *)
Definition beginsSpeaking (s : Content.State) (i : Z) (s' : Content.State) : Prop :=
  handsOver s i s' /\ Speech.paused (Content.synthesis s') = false.

(** The utterance in flight in [samplePlaying]. *)
Definition sampleUtterance : Speech.Utterance :=
  Speech.mkUtterance "Cats of" 1 1 1 (Some "en-US")
    (Some (Speech.mkVoice "Google UK English Female" "en-GB")).

(** The engine on two comments, the first being spoken; and after
    [next()], the last one being spoken. *)
Definition sampleComments : list PlaybackEngine.Comment.t :=
  [PlaybackEngine.Comment.mk "See now" (Some "alice");
   PlaybackEngine.Comment.mk "Thanks" (Some "carol")].

Definition sampleEngine : PlaybackEngine.Engine :=
  PlaybackEngine.run
    [PlaybackEngine.Method (PlaybackEngine.LoadComments sampleComments);
     PlaybackEngine.Method PlaybackEngine.Play]
    PlaybackEngine.create.

Definition sampleEngineAtLast : PlaybackEngine.Engine :=
  PlaybackEngine.step (PlaybackEngine.Method PlaybackEngine.Next) sampleEngine.

(** From [e], the playback engine has handed comment [i] to the speech
    engine in [e']. *)
Definition engineHandsOver (e : PlaybackEngine.Engine) (i : Z)
    (e' : PlaybackEngine.Engine) : Prop :=
  exists c ut,
    JS.nth (PlaybackEngine.comments e) i = Some c
    /\ Speech.queue (PlaybackEngine.synthesis e') = [Speech.fresh (PlaybackEngine.synthesis e)]
    /\ Speech.heap (PlaybackEngine.synthesis e') !! Speech.fresh (PlaybackEngine.synthesis e)
       = Some ut
    /\ Speech.text ut = PlaybackEngine.Comment.text c
    /\ PlaybackEngine.utterance e' = Some (Speech.fresh (PlaybackEngine.synthesis e))
    /\ In (PlaybackEngine.Speak i (Speech.fresh (PlaybackEngine.synthesis e)))
         (PlaybackEngine.journal e').

(** From [e], the playback engine has begun to speak comment [i] in [e']:
    it has handed the comment over, and the speech engine is not paused. *)
Definition engineBeginsSpeaking (e : PlaybackEngine.Engine) (i : Z)
    (e' : PlaybackEngine.Engine) : Prop :=
  engineHandsOver e i e' /\ Speech.paused (PlaybackEngine.synthesis e') = false.

(** ** Texts and patterns *)

(** The longest prefix of [s] in the class [p], and what follows it. *)
Fixpoint span (p : ascii -> bool) (s : string) : string * string :=
  match s with
  | String c r =>
      if p c then (String c (fst (span p r)), snd (span p r)) else (EmptyString, s)
  | EmptyString => (EmptyString, EmptyString)
  end.

(** The last character of [w], or [b] when [w] is empty. *)
Fixpoint lastOf (b : option ascii) (w : string) : option ascii :=
  match w with
  | EmptyString => b
  | String c r => lastOf (Some c) r
  end.

(** [s] without the prefix [w], when it has it. *)
Fixpoint stripPrefix (w s : string) {struct w} : option string :=
  match w with
  | EmptyString => Some s
  | String c w' =>
      match s with
      | String a s' => if Ascii.eqb a c then stripPrefix w' s' else None
      | EmptyString => None
      end
  end.

(** Every character of [w] is in the class [p]. *)
Fixpoint allOf (p : ascii -> bool) (w : string) : bool :=
  match w with
  | EmptyString => true
  | String c r => p c && allOf p r
  end.

(** [s] is empty or begins with a character outside of [p]. *)
Definition stopsAt (p : ascii -> bool) (s : string) : bool :=
  match s with
  | EmptyString => true
  | String c _ => negb (p c)
  end.

(** A continuation that fails wherever the text goes on in the class [p]. *)
Definition blockedBy (p : ascii -> bool) (k : Regex.cont) : Prop :=
  forall b c s n g, p c = true -> k (Regex.mkPosition b (String c s) n g) = None.

(** A continuation that never fails. *)
Definition total (k : Regex.cont) : Prop := forall x, k x <> None.

(** What the patterns of the stripper match at the head of a text, told
    without regular expressions. [[label](url)]: the label, the address and
    the text after the construct. *)
Definition markdownAt (s : string) : option (string * string * string) :=
  match stripPrefix "[" s with
  | Some s1 =>
      match fst (span (Regex.notChar "]") s1),
            stripPrefix "](" (snd (span (Regex.notChar "]") s1)) with
      | String c l, Some s2 =>
          match fst (span (Regex.notChar ")") s2),
                stripPrefix ")" (snd (span (Regex.notChar ")") s2)) with
          | String d u, Some rest => Some (String c l, String d u, rest)
          | _, _ => None
          end
      | _, _ => None
      end
  | None => None
  end.

(** A word [w] and then one character or more of the class [p], as many
    as there are: these characters and the text after them. *)
Definition runAfter (w : string) (p : ascii -> bool) (s : string) : option (string * string) :=
  match stripPrefix w s with
  | Some s1 =>
      match fst (span p s1) with
      | String c r => Some (String c r, snd (span p s1))
      | EmptyString => None
      end
  | None => None
  end.

(** The longest prefix of [s] made of characters of the class [w], a
    class told by its width, and what follows it; [skip] bytes are still to
    pass of the character being read. *)
Fixpoint spanWide (w : string -> nat) (skip : nat) (s : string) : string * string :=
  match s with
  | String c r =>
      match skip with
      | S j => (String c (fst (spanWide w j r)), snd (spanWide w j r))
      | O =>
          match w s with
          | S j => (String c (fst (spanWide w j r)), snd (spanWide w j r))
          | O => (EmptyString, s)
          end
      end
  | EmptyString => (EmptyString, EmptyString)
  end.

(** A word [word] and then one character or more of the class [w], as
    many as there are: these characters and the text after them. *)
Definition runAfterWide (word : string) (w : string -> nat) (s : string)
    : option (string * string) :=
  match stripPrefix word s with
  | Some s1 =>
      match fst (spanWide w 0 s1) with
      | String c r => Some (String c r, snd (spanWide w 0 s1))
      | EmptyString => None
      end
  | None => None
  end.

(** No white-space character begins in [s]. *)
Fixpoint spaceFree (s : string) : bool :=
  match s with
  | EmptyString => true
  | String _ r => (JS.spaceWidth s =? 0)%nat && spaceFree r
  end.

(** [s] is empty or begins with a white-space character. *)
Definition atSpace (s : string) : bool :=
  match s with
  | EmptyString => true
  | String _ _ => negb (JS.spaceWidth s =? 0)%nat
  end.

(** [s] is made of white-space characters only, after the [skip] bytes
    that are left of the first one. *)
Fixpoint whiteOnly (skip : nat) (s : string) : bool :=
  match s with
  | EmptyString => (skip =? 0)%nat
  | String _ r =>
      match skip with
      | S k => whiteOnly k r
      | O => match JS.spaceWidth s with S k => whiteOnly k r | O => false end
      end
  end.

(** [http://] or [https://] and what is not white space after it. *)
Definition httpAt (s : string) : option (string * string * string) :=
  match runAfterWide "https://" Regex.notSpace s with
  | Some (u, rest) => Some ("https://", u, rest)
  | None =>
      match runAfterWide "http://" Regex.notSpace s with
      | Some (u, rest) => Some ("http://", u, rest)
      | None => None
      end
  end.

(** A word boundary before a word character: the text begins, or the
    character before is not a word character. *)
Definition atWordStart (b : option ascii) : bool :=
  match b with Some c => negb (JS.isWord c) | None => true end.

(** Where a construct is found at the head of a text: what replaces it,
    the text it covers, the text after it. *)
Definition finder := option ascii -> string -> option (string * string * string).

(** [out] is [s] with every construct replaced, from left to right, the
    search going on after each construct; [b] is the character before [s]. *)
Inductive Rewritten (found : finder) : option ascii -> string -> string -> Prop :=
| rewritten_end b :
    found b EmptyString = None ->
    Rewritten found b EmptyString EmptyString
| rewritten_keep b c s out :
    found b (String c s) = None ->
    Rewritten found (Some c) s out ->
    Rewritten found b (String c s) (String c out)
| rewritten_hit b s replacement covered rest out :
    found b s = Some (replacement, covered, rest) ->
    Rewritten found (lastOf b covered) rest out ->
    Rewritten found b s (replacement +:+ out).

Definition markdownFound : finder := fun _ s =>
  match markdownAt s with
  | Some (label, url, rest) =>
      Some (label, "[" +:+ label +:+ "](" +:+ url +:+ ")", rest)
  | None => None
  end.

Definition httpFound : finder := fun _ s =>
  match httpAt s with
  | Some (scheme, u, rest) => Some (EmptyString, scheme +:+ u, rest)
  | None => None
  end.

Definition wwwFound : finder := fun _ s =>
  match runAfterWide "www." Regex.notSpace s with
  | Some (u, rest) => Some (EmptyString, "www." +:+ u, rest)
  | None => None
  end.

(** [r/name] or [u/name], at the start of a word. *)
Definition mentionFound (sigil : string) : finder := fun b s =>
  if atWordStart b then
    match runAfter sigil JS.isWord s with
    | Some (u, rest) => Some (EmptyString, sigil +:+ u, rest)
    | None => None
    end
  else None.

(** A run of white space, replaced by one space. *)
Definition spacesFound : finder := fun _ s =>
  match runAfterWide EmptyString Regex.space s with
  | Some (u, rest) => Some (" ", u, rest)
  | None => None
  end.

(** The pattern [r] with the replacement [t] finds what [found] finds. *)
Definition agrees (r : Regex.regex) (t : option string -> string) (found : finder) : Prop :=
  forall b s,
    match found b s with
    | Some (replacement, covered, rest) =>
        covered <> EmptyString /\ s = covered +:+ rest
        /\ exists m, Regex.exec r b s = Some m
                     /\ Regex.offset m = String.length covered
                     /\ t (Regex.group1 m) = replacement
    | None => Regex.exec r b s = None
    end.

(** Every white-space character of [s] is a space that another character,
    not a white-space one, follows or that ends [s]. *)
Fixpoint singleSpaced (s : string) : bool :=
  match s with
  | EmptyString => true
  | String a r =>
      match JS.spaceWidth s with
      | O => true
      | S _ => Ascii.eqb a " " && (JS.spaceWidth r =? 0)%nat
      end
      && singleSpaced r
  end.

(** [s] does not begin with a white-space character. *)
Definition cleanStart (s : string) : bool := (JS.spaceWidth s =? 0)%nat.

(** [s] does not end with a white-space character: what is left of [s]
    from a character on is never just one white-space character. *)
Fixpoint cleanEnd (s : string) : bool :=
  match s with
  | EmptyString => true
  | String _ r => negb (JS.spaceWidth s =? String.length s)%nat && cleanEnd r
  end.

(** ** Voices of the browser *)

(** A language tag of English, as the scripts test it. *)
Definition isEnglish (lang : string) : Prop := beginsWith "en-" lang \/ lang = "en".

(** The pool is the one [filterVoicesByLocale] makes of the voices of the
    browser: the English ones, or all of them when none is English. *)
Definition pooled (s : Content.State) : Prop :=
  Content.filteredVoices s
  = match List.filter
            (fun v => JS.startsWith (Speech.voiceLang v) "en-"
                      || String.eqb (Speech.voiceLang v) "en")
            (Content.availableVoices s) with
    | [] => Content.availableVoices s
    | v :: l => v :: l
    end.

(** ** The queue *)

(** The comments, the post and the queue of a state. *)
Definition contentOf (s : Content.State)
    : list Content.CommentData.t * string * string * list Content.Item.t :=
  (Content.comments s, Content.postTitle s, Content.postBody s, Content.allContent s).

(** The queue is the one built from the post and the comments. *)
Definition queueBuilt (s : Content.State) : Prop :=
  Content.allContent s
  = Content.buildContent (Content.postTitle s) (Content.postBody s) (Content.comments s).

(** One for [true], as [(b ? 1 : 0)]. *)
Definition b2z (b : bool) : Z := if b then 1%Z else 0%Z.

(** The comments of a state have ids. *)
Definition identified (s : Content.State) : Prop :=
  Forall (fun c => JS.truthy (Content.CommentData.id c) = true) (Content.comments s).

(** The indices and utterances of a journal that speak, in order. *)
Definition spoken (journal : list Content.Effect) : list (Z * nat) :=
  omap (fun e => match e with Content.Speak i u => Some (i, u) | _ => None end) journal.

(** Every item of the queue and every utterance made has a text. *)
Definition speakable (s : Content.State) : Prop :=
  Forall (fun item => Content.Item.text item <> EmptyString) (Content.allContent s)
  /\ forall u ut, Speech.heap (Content.synthesis s) !! u = Some ut ->
                  Speech.text ut <> EmptyString.

(** Until the next extraction ends nothing is read: the queue stays empty
    and so does the engine's. *)
Definition idle (s : Content.State) : Prop :=
  Content.allContent s = [] /\ Speech.queue (Content.synthesis s) = [].

(** The callbacks and timers of a reading that nothing interrupts: the
    completion of the utterance [u] in flight, then, for each of the [m]
    items left, the timer and the completion of the utterance it starts,
    [f] being the next utterance identity. *)
Fixpoint listening (m : nat) (u f : nat) : list Content.Event :=
  match m with
  | O => [Content.UtteranceEnd u]
  | S m' => Content.UtteranceEnd u :: Content.Timeout :: listening m' f (S f)
  end.

(** The items [c], [c + 1], ... and the utterances [f], [f + 1], ... that
    read them. *)
Definition reading (c : Z) (f : nat) (m : nat) : list (Z * nat) :=
  List.map (fun k => ((c + Z.of_nat k)%Z, (f + k)%nat)) (seq 0 m).

(** ** The engine's rates and notifications *)

(** A rate between 0.5 and 2. *)
Definition inRange (r : Q) : Prop := (1 # 2 <= r)%Q /\ (r <= 2)%Q.

(** The stored rate and the rate of every utterance made are in range. *)
Definition ratesInRange (e : PlaybackEngine.Engine) : Prop :=
  inRange (PlaybackEngine.playbackSpeed e)
  /\ forall u ut, Speech.heap (PlaybackEngine.synthesis e) !! u = Some ut ->
                  inRange (Speech.rate ut).

(** The comments and utterances of the engine's journal that speak. *)
Definition engineSpoken (journal : list PlaybackEngine.Emission) : list (Z * nat) :=
  omap (fun x => match x with PlaybackEngine.Speak i u => Some (i, u) | _ => None end)
    journal.

(** The callbacks and timers of a reading of the engine that nothing
    interrupts, as [listening]. *)
Fixpoint engineListening (m : nat) (u f : nat) : list PlaybackEngine.Event :=
  match m with
  | O => [PlaybackEngine.UtteranceEnd u]
  | S m' =>
      PlaybackEngine.UtteranceEnd u :: PlaybackEngine.Timeout :: engineListening m' f (S f)
  end.

(** The indices of the comment changes of a journal, in order. *)
Definition commentChanges (journal : list PlaybackEngine.Emission) : list Z :=
  omap (fun x => match x with PlaybackEngine.CommentChange i => Some i | _ => None end)
    journal.

(** The comment callback is set, and the comment changes are the comments spoken. *)
Definition notified (e : PlaybackEngine.Engine) : Prop :=
  PlaybackEngine.onCommentChange e = true
  /\ commentChanges (PlaybackEngine.journal e)
     = List.map fst (engineSpoken (PlaybackEngine.journal e)).

(** ** Buttons and records *)

(** [a] comes before [b] in the order of the strategy: both depths are
    numbers, the deeper one first for the depth strategy, the shallower
    one first for the others. *)
Definition before (strategy : Content.Strategy) (a b : Content.Control.t) : Prop :=
  exists da db : Z,
    Content.Control.depth a = Some da /\ Content.Control.depth b = Some db /\
    match strategy with
    | Content.Depth => (db <= da)%Z
    | _ => (da <= db)%Z
    end.

(** The buttons at depth [d]. *)
Definition atDepth (d : Z) (c : Content.Control.t) : bool :=
  JS.strictEq (Content.Control.depth c) (Some d).

(** The partials that hold a "more replies" button and that the strategy
    filter lets through, in document order. *)
Definition candidates (targetDepth maxTopLevel : Z) (strategy : Content.Strategy)
    (doc : Dom.Node) (topLevelCount : Z) : list Content.Control.t :=
  List.filter (Content.strategyFilter targetDepth maxTopLevel strategy topLevelCount)
    (omap Content.moreControl (Dom.querySelectorAll Content.partialSelector doc)).

(** The element is a comment, as the walk up the parents tests it. *)
Definition isComment (n : Dom.Node) : Prop :=
  JS.toLowerCase (Dom.localNameOf n) = "shreddit-comment".

(** A page that adds nothing and a user who stops the run at the first wait. *)
Definition stoppingHost : Content.Host unit :=
  Content.mkHost unit (fun w d _ => (w, d, true)) (fun w d => (w, d, false)).

(** ** Requests and selections *)

(** The request that gives no field. *)
Definition bareRequest : Listener.ExtractRequest.t :=
  Listener.ExtractRequest.mk None None None None None None.

(** The clicks of a voice selection: a checkbox, or the button "Default". *)
Inductive VoiceAction :=
| ToggleVoice (voiceName : string)
| SelectDefaultVoices.

Definition select (a : VoiceAction) (settings : Popup.Settings) : Popup.Settings :=
  match a with
  | ToggleVoice voiceName => Popup.toggleVoice voiceName settings
  | SelectDefaultVoices => Popup.selectDefaultVoices settings
  end.

(** ** More of the sample page *)

(** The content script after the extraction of the sample thread. *)
Definition sampleEvents : list Content.Event :=
  [Content.ExtractionRequested "en-US" []; Content.Extracted sampleThread].

Definition sampleExtracted : Content.State :=
  Content.run sampleEvents (Content.loaded sampleVoices).

(** Its second comment, which has no [thingid]. *)
Definition sampleRecord : Content.CommentData.t :=
  Eval vm_compute in
    match Content.extractComments sampleThread !! 1%nat with
    | Some r => r
    | None =>
        Content.CommentData.mk "" "" None None "" (Dom.mkHandle (Dom.Text "") [] [])
    end.

(** The script while the title of the sample thread is spoken. *)
Definition sampleScript : Listener.Script unit :=
  Listener.mkScript samplePlaying 3 50 300 Content.Balanced (freshExtraction sampleThread).

(** * Properties *)

(** ** Strings *)

Lemma startsWith_spec s p : JS.startsWith s p = true <-> beginsWith p s.
Proof.
  unfold beginsWith. revert s. induction p as [|b p IH]; intros s; simpl.
  - split; [intros _; exists s; reflexivity | reflexivity].
  - destruct s as [|a s]; simpl.
    + split; [discriminate | intros [t Ht]; discriminate].
    + rewrite andb_true_iff, Ascii.eqb_eq, IH. split.
      * intros [-> [t ->]]. eauto.
      * intros [t Ht]. injection Ht as -> ->. eauto.
Qed.

Lemma includes_spec s p : JS.includes s p = true <-> occursIn p s.
Proof.
  unfold occursIn. split.
  - induction s as [|c s IH]; simpl; rewrite orb_true_iff.
    + intros [H | H]; [| discriminate].
      apply startsWith_spec in H as [t ->]. exists EmptyString, t. reflexivity.
    + intros [H | H].
      * apply startsWith_spec in H as [t ->]. exists EmptyString, t. reflexivity.
      * destruct (IH H) as (a & b & ->). exists (String c a), b. reflexivity.
  - intros (a & b & ->). induction a as [|c a IH]; simpl.
    + destruct (p +:+ b) eqn:E; simpl; rewrite <- E; apply orb_true_iff; left;
        apply startsWith_spec; exists b; reflexivity.
    + apply orb_true_iff. right. exact IH.
Qed.

Lemma endsWith_spec s p : JS.endsWith s p = true <-> endsIn p s.
Proof.
  unfold endsIn. split.
  - induction s as [|c s IH]; cbn [JS.endsWith]; rewrite orb_true_iff.
    + intros [H | H]; [| discriminate].
      apply String.eqb_eq in H as <-. exists EmptyString. reflexivity.
    + intros [H | H].
      * apply String.eqb_eq in H as <-. exists EmptyString. reflexivity.
      * destruct (IH H) as (a & ->). exists (String c a). reflexivity.
  - intros (a & ->). induction a as [|c a IH]; simpl.
    + destruct p; simpl; [reflexivity |].
      rewrite Ascii.eqb_refl, String.eqb_refl. reflexivity.
    + apply orb_true_iff. right. exact IH.
Qed.

Lemma listIncludes_spec l x : Content.listIncludes l x = true <-> In x l.
Proof.
  unfold Content.listIncludes. rewrite existsb_exists. split.
  - intros (y & Hy & E). apply String.eqb_eq in E as ->. exact Hy.
  - intros H. exists x. split; [exact H | apply String.eqb_refl].
Qed.


(** ** The author filter *)

Lemma shouldFilterAuthor_some name :
  Content.shouldFilterAuthor (Some name) = true <->
  (In (JS.toLowerCase name) Content.FILTERED_AUTHORS
   \/ occursIn "bot" (JS.toLowerCase name)
   \/ endsIn "bot" (JS.toLowerCase name)
   \/ endsIn "_bot" (JS.toLowerCase name)
   \/ beginsWith "mod" (JS.toLowerCase name)).
Proof.
  rewrite <- listIncludes_spec, <- includes_spec, <- !endsWith_spec, <- startsWith_spec.
  unfold Content.shouldFilterAuthor, JS.orNull.
  destruct name as [|c name].
  - simpl. split; [discriminate |].
    intros [H | [H | [H | [H | H]]]]; discriminate.
  - cbn [JS.truthy].
    destruct (Content.listIncludes _ _); [tauto |].
    destruct (JS.includes _ _); [tauto |].
    destruct (JS.endsWith _ "bot"); [simpl; tauto |].
    destruct (JS.endsWith _ "_bot"); [simpl; tauto |].
    destruct (JS.startsWith _ _); simpl; [tauto |].
    split; [discriminate |].
    intros [H | [H | [H | [H | H]]]]; discriminate.
Qed.

(** C4. The author filter is case-insensitive; it answers true exactly when
    the lower-cased name is one of automoderator, automod, moderator, bot,
    modbot, reddit, or contains "bot", or ends with "bot" or "_bot", or
    starts with "mod"; an absent author is never filtered; "AutoModerator",
    "SomeBot_99" and "Moderator_Jane" are filtered, "regular_user" and
    null are not. *)
Theorem shouldFilterAuthor_spec :
  (forall author : option string,
     Content.shouldFilterAuthor author = true <->
     exists name, author = Some name /\
       (In (JS.toLowerCase name)
          ["automoderator"; "automod"; "moderator"; "bot"; "modbot"; "reddit"]
        \/ occursIn "bot" (JS.toLowerCase name)
        \/ endsIn "bot" (JS.toLowerCase name)
        \/ endsIn "_bot" (JS.toLowerCase name)
        \/ beginsWith "mod" (JS.toLowerCase name)))
  /\ (forall a b : string,
        JS.toLowerCase a = JS.toLowerCase b ->
        Content.shouldFilterAuthor (Some a) = Content.shouldFilterAuthor (Some b))
  /\ Content.shouldFilterAuthor None = false
  /\ Content.shouldFilterAuthor (Some "AutoModerator") = true
  /\ Content.shouldFilterAuthor (Some "SomeBot_99") = true
  /\ Content.shouldFilterAuthor (Some "Moderator_Jane") = true
  /\ Content.shouldFilterAuthor (Some "regular_user") = false.
Proof.
  split; [| split; [| repeat split; reflexivity]].
  - intros [name |].
    + rewrite shouldFilterAuthor_some. split.
      * intros H. exists name. split; [reflexivity | exact H].
      * intros (n & E & H). injection E as ->. exact H.
    + split; [discriminate | intros (n & E & _); discriminate].
  - intros a b E.
    destruct (Content.shouldFilterAuthor (Some a)) eqn:Ha;
      destruct (Content.shouldFilterAuthor (Some b)) eqn:Hb; try reflexivity.
    + apply shouldFilterAuthor_some in Ha. rewrite E in Ha.
      apply shouldFilterAuthor_some in Ha. congruence.
    + apply shouldFilterAuthor_some in Hb. rewrite <- E in Hb.
      apply shouldFilterAuthor_some in Hb. congruence.
Qed.

Lemma shouldFilterAuthor_spec_witness :
  JS.toLowerCase "ModBot" = JS.toLowerCase "modbot"
  /\ Content.shouldFilterAuthor (Some "ModBot") = Content.shouldFilterAuthor (Some "modbot").
Proof.
  assert (H : JS.toLowerCase "ModBot" = JS.toLowerCase "modbot") by reflexivity.
  split; [exact H |].
  exact (proj1 (proj2 shouldFilterAuthor_spec) "ModBot" "modbot" H).
Defined.

(** ** The voice allocator *)

Lemma filter_empty_allowlist (pool : list Speech.Voice) :
  List.filter (fun v => Content.listIncludes [] (Speech.name v)) pool = [].
Proof. induction pool as [|v pool IH]; [reflexivity | exact IH]. Qed.

Lemma restrictedPool_nonempty pool allowlist :
  pool <> [] -> restrictedPool pool allowlist <> [].
Proof.
  unfold restrictedPool. intros H.
  destruct (List.filter _ pool); [exact H | discriminate].
Qed.

Lemma getVoiceForIndex_rotating pool allowlist index :
  pool <> [] ->
  Content.getVoiceForIndex pool true allowlist index =
  JS.nth (restrictedPool pool allowlist)
    (Z.rem index (Z.of_nat (length (restrictedPool pool allowlist)))).
Proof.
  intros Hpool. unfold Content.getVoiceForIndex, restrictedPool.
  destruct pool as [|v pool]; [congruence |].
  cbn [length Nat.eqb negb].
  destruct allowlist as [|a allowlist].
  - rewrite filter_empty_allowlist. reflexivity.
  - cbn [length Nat.ltb Nat.leb].
    destruct (List.filter _ (v :: pool)); reflexivity.
Qed.

Lemma nth_nonneg {A : Type} (l : list A) (i : Z) :
  (0 <= i)%Z -> JS.nth l i = l !! Z.to_nat i.
Proof.
  intros H. unfold JS.nth.
  destruct (Z.ltb_spec i 0); [lia | reflexivity].
Qed.

(** C6. The allocator answers null on an empty pool and [pool[0]] when
    rotation is off; otherwise it answers [P[index mod |P|]], [P] being the
    pool restricted to the allowlist when that restriction is not empty and
    the full pool otherwise, so that it is periodic in the index with
    period [|P|]; with three voices, indices 0 and 3 get the first voice
    and index 4 the second. *)
Theorem getVoiceForIndex_spec :
  forall (pool : list Speech.Voice) (allowlist : list string) (rotate : bool) (index : Z),
    (0 <= index)%Z ->
    (pool = [] -> Content.getVoiceForIndex pool rotate allowlist index = None)
    /\ (rotate = false ->
        Content.getVoiceForIndex pool rotate allowlist index = pool !! 0%nat)
    /\ (pool <> [] -> rotate = true ->
        let P := restrictedPool pool allowlist in
        let n := Z.of_nat (length P) in
        Content.getVoiceForIndex pool rotate allowlist index
          = P !! Z.to_nat (index mod n)
        /\ is_Some (Content.getVoiceForIndex pool rotate allowlist index)
        /\ Content.getVoiceForIndex pool rotate allowlist (index + n)
           = Content.getVoiceForIndex pool rotate allowlist index)
    /\ (forall a b c : Speech.Voice,
          Content.getVoiceForIndex [a; b; c] true [] 0 = Some a
          /\ Content.getVoiceForIndex [a; b; c] true [] 3 = Some a
          /\ Content.getVoiceForIndex [a; b; c] true [] 4 = Some b).
Proof.
  intros pool allowlist rotate index Hindex.
  split; [| split; [| split]].
  - intros ->. reflexivity.
  - intros ->. unfold Content.getVoiceForIndex. destruct pool; reflexivity.
  - intros Hpool -> P n.
    assert (Hn : (0 < n)%Z).
    { subst n P. pose proof (restrictedPool_nonempty pool allowlist Hpool) as H.
      destruct (restrictedPool pool allowlist); [congruence | cbn [length]; lia]. }
    assert (Hmod : (0 <= index mod n < n)%Z) by (apply Z.mod_pos_bound; exact Hn).
    assert (Hnow : Content.getVoiceForIndex pool true allowlist index
                   = P !! Z.to_nat (index mod n)).
    { rewrite getVoiceForIndex_rotating by exact Hpool. fold P. fold n.
      rewrite Z.rem_mod_nonneg by lia. apply nth_nonneg. lia. }
    split; [exact Hnow | split].
    + rewrite Hnow. apply lookup_lt_is_Some. subst n. lia.
    + rewrite Hnow. rewrite getVoiceForIndex_rotating by exact Hpool. fold P. fold n.
      rewrite Z.rem_mod_nonneg by lia.
      rewrite nth_nonneg by (apply Z.mod_pos_bound; exact Hn).
      replace (index + n)%Z with (index + 1 * n)%Z by lia.
      rewrite Z.mod_add by lia. reflexivity.
  - intros a b c. repeat split; reflexivity.
Qed.

Lemma getVoiceForIndex_spec_witness :
  (0 <= 4)%Z /\
  Content.getVoiceForIndex
    [Speech.mkVoice "Google UK English Female" "en-GB";
     Speech.mkVoice "Google UK English Male" "en-GB";
     Speech.mkVoice "Google US English" "en-US"]
    true ["Google US English"; "Google UK English Male"] (4 + 2)
  = Some (Speech.mkVoice "Google UK English Male" "en-GB").
Proof.
  split; [lia |].
  pose proof (getVoiceForIndex_spec
    [Speech.mkVoice "Google UK English Female" "en-GB";
     Speech.mkVoice "Google UK English Male" "en-GB";
     Speech.mkVoice "Google US English" "en-US"]
    ["Google US English"; "Google UK English Male"] true 4 ltac:(lia)) as H.
  destruct H as (_ & _ & H & _).
  destruct (H ltac:(discriminate) eq_refl) as (_ & _ & Hperiod).
  exact Hperiod.
Defined.

(** ** The expansion loop *)

Lemma countComments_nonneg doc : (0 <= Content.countComments doc)%Z.
Proof. unfold Content.countComments. lia. Qed.

(** The loop over the batches never runs out of fuel: any fuel that covers
    the buttons left gives the same run. *)
Lemma clickBatches_fuel {W : Type} (host : Content.Host W) (maxTotal : Z)
    (strategy : Content.Strategy) (buttons : list Content.Control.t) :
  forall (fuel fuel' i : nat) (x : Content.Extraction W),
    (length buttons <= i + fuel)%nat ->
    (length buttons <= i + fuel')%nat ->
    Content.clickBatches host maxTotal strategy fuel i buttons x
    = Content.clickBatches host maxTotal strategy fuel' i buttons x.
Proof.
  assert (Hsize : (1 <= Content.batchSize strategy)%nat)
    by (destruct strategy; cbn; lia).
  induction fuel as [|fuel IH]; intros [|fuel'] i x H H'; cbn [Content.clickBatches].
  - reflexivity.
  - destruct (Nat.leb_spec (length buttons) i); [reflexivity | lia].
  - destruct (Nat.leb_spec (length buttons) i); [reflexivity | lia].
  - destruct (length buttons <=? i)%nat; [reflexivity |].
    destruct (Content.shouldStopExtraction x); [reflexivity |].
    cbn [Content.setProgress Content.document Content.world Content.clicks
         Content.isExtracting Content.shouldStopExtraction Content.extractionProgress].
    destruct (maxTotal <=? Content.countComments (Content.document x))%Z; [reflexivity |].
    destruct (Content.settleBatch host _ _ _) as [[w d] stop].
    apply IH; lia.
Qed.

(** C7. When the document already holds [maxTotal] comments or more, and so
    for every budget with [maxTotal = 0], the expansion clicks no button,
    waits for nothing and leaves the document as it is. *)
Theorem expand_over_budget_is_idle :
  forall (W : Type) (host : Content.Host W) (targetDepth maxTopLevel maxTotal : Z)
         (strategy : Content.Strategy) (x : Content.Extraction W),
    (maxTotal <= Content.countComments (Content.document x))%Z \/ maxTotal = 0%Z ->
    let x' := Content.expandCommentsToDepth host targetDepth maxTopLevel maxTotal strategy x in
    Content.clicks x' = Content.clicks x
    /\ Content.document x' = Content.document x
    /\ Content.world x' = Content.world x
    /\ Content.isExtracting x' = false
    /\ Content.extractionProgress x' = Content.countComments (Content.document x).
Proof.
  intros W host targetDepth maxTopLevel maxTotal strategy x H x'.
  assert (E : (maxTotal <=? Content.countComments (Content.document x))%Z = true).
  { apply Z.leb_le. pose proof (countComments_nonneg (Content.document x)).
    destruct H; lia. }
  subst x'. unfold Content.expandCommentsToDepth.
  cbn [Content.setProgress Content.document Content.world Content.clicks
       Content.isExtracting Content.shouldStopExtraction Content.extractionProgress].
  rewrite E.
  repeat split; reflexivity.
Qed.

Lemma expand_over_budget_is_idle_witness :
  ((2 <= Content.countComments sampleThread)%Z \/ 2%Z = 0%Z)
  /\ Content.clicks
       (Content.expandCommentsToDepth stillHost 3 50 2 Content.Balanced
          (freshExtraction sampleThread)) = [].
Proof.
  assert (H : (2 <= Content.countComments sampleThread)%Z \/ 2%Z = 0%Z)
    by (left; vm_compute; discriminate).
  split; [exact H |].
  exact (proj1 (expand_over_budget_is_idle unit stillHost 3 50 2 Content.Balanced
                  (freshExtraction sampleThread) H)).
Defined.

Lemma insertSorted_In {A : Type} (cmp : A -> A -> JS.number) (x y : A) (l : list A) :
  In x (JS.insertSorted cmp y l) -> x = y \/ In x l.
Proof.
  induction l as [|z l IH]; cbn [JS.insertSorted].
  - simpl. intros [-> | []]. left. reflexivity.
  - destruct (JS.lt (Some 0%Z) (cmp y z)); simpl.
    + intros [-> | H]; [right; left; reflexivity |].
      destruct (IH H) as [-> | H']; [left | right; right]; auto.
    + intros [-> | [-> | H]]; auto.
Qed.

Lemma sort_In {A : Type} (cmp : A -> A -> JS.number) (x : A) (l : list A) :
  In x (JS.sort cmp l) -> In x l.
Proof.
  unfold JS.sort. induction l as [|y l IH]; simpl; [tauto |].
  intros H. apply insertSorted_In in H as [-> | H]; auto.
Qed.

Lemma strategyFilter_sound targetDepth maxTopLevel strategy topLevelCount item :
  Content.strategyFilter targetDepth maxTopLevel strategy topLevelCount item = true ->
  withinDepth strategy targetDepth item
  /\ ((topLevelCap strategy maxTopLevel <= topLevelCount)%Z ->
      Content.Control.depth item <> Some 0%Z).
Proof.
  unfold Content.strategyFilter, withinDepth, topLevelCap, JS.strictEq, JS.le, JS.lt.
  destruct (Content.Control.depth item) as [d|]; [| destruct strategy; discriminate].
  destruct strategy;
    repeat match goal with
           | |- context [(?a =? ?b)%Z] => destruct (Z.eqb_spec a b)
           | |- context [(?a <=? ?b)%Z] => destruct (Z.leb_spec a b)
           | |- context [(?a <? ?b)%Z] => destruct (Z.ltb_spec a b)
           end;
    cbn [andb]; try discriminate; intros _;
    (split; [exists d; split; [reflexivity | lia] | intros ? [=]; lia]).
Qed.

Lemma moreButtons_filtered targetDepth maxTopLevel strategy doc topLevelCount item :
  In item (Content.moreButtons targetDepth maxTopLevel strategy doc topLevelCount) ->
  Content.strategyFilter targetDepth maxTopLevel strategy topLevelCount item = true.
Proof.
  unfold Content.moreButtons. intros H.
  apply sort_In in H. apply filter_In in H. tauto.
Qed.

Lemma clicks_setProgress {W : Type} (n : Z) (x : Content.Extraction W) :
  Content.clicks (Content.setProgress n x) = Content.clicks x.
Proof. reflexivity. Qed.

Lemma clicks_setExtracting {W : Type} (b : bool) (x : Content.Extraction W) :
  Content.clicks (Content.setExtracting b x) = Content.clicks x.
Proof. reflexivity. Qed.

Section ExpansionRun.

Context {W : Type} (host : Content.Host W).

Variables (targetDepth maxTopLevel maxTotal : Z) (strategy : Content.Strategy).

Variable P : Content.Control.t -> Prop.

Lemma clickBatches_clicks fuel i buttons (x : Content.Extraction W) :
  Forall P buttons -> Forall P (Content.clicks x) ->
  Forall P (Content.clicks (Content.clickBatches host maxTotal strategy fuel i buttons x)).
Proof.
  intros Hbuttons. revert i x.
  induction fuel as [|fuel IH]; intros i x Hx; cbn [Content.clickBatches]; [exact Hx |].
  destruct (length buttons <=? i)%nat; [exact Hx |].
  destruct (Content.shouldStopExtraction x); [exact Hx |].
  cbn [Content.setProgress Content.document Content.world Content.clicks
       Content.isExtracting Content.shouldStopExtraction Content.extractionProgress].
  destruct (maxTotal <=? Content.countComments (Content.document x))%Z; [exact Hx |].
  destruct (Content.settleBatch host _ _ _) as [[w d] stop].
  apply IH. cbn [Content.clicks].
  apply Forall_app. split; [exact Hx |].
  apply Forall_take, Forall_drop, Hbuttons.
Qed.

Hypothesis passed :
  forall doc topLevelCount item,
    In item (Content.moreButtons targetDepth maxTopLevel strategy doc topLevelCount) ->
    P item.

Lemma iterate_clicks remaining (x : Content.Extraction W) :
  Forall P (Content.clicks x) ->
  Forall P (Content.clicks
              (Content.iterate host targetDepth maxTopLevel maxTotal strategy remaining x)).
Proof.
  revert x. induction remaining as [|remaining IH]; intros x Hx;
    cbn [Content.iterate]; [exact Hx |].
  destruct (Content.shouldStopExtraction x); [exact Hx |].
  cbn [Content.setProgress Content.document Content.world Content.clicks
       Content.isExtracting Content.shouldStopExtraction Content.extractionProgress].
  destruct (maxTotal <=? Content.countComments (Content.document x))%Z; [exact Hx |].
  match goal with |- context [if ?c then _ else _] => destruct c end; [exact Hx |].
  match goal with |- context [if ?c then _ else _] => destruct c end; [exact Hx |].
  match goal with |- context [if ?c then _ else _] => destruct c end; [exact Hx |].
  match goal with
  | |- context [Content.clickBatches host maxTotal strategy ?f ?i ?b ?y] =>
      pose proof (clickBatches_clicks f i b y) as Hb;
      destruct (Content.settleIteration host
                  (Content.world (Content.clickBatches host maxTotal strategy f i b y))
                  (Content.document (Content.clickBatches host maxTotal strategy f i b y)))
        as [[w d] stop]
  end.
  apply IH. cbn [Content.clicks]. apply Hb; [| exact Hx].
  apply Forall_take. apply List.Forall_forall. intros item Hitem. eapply passed, Hitem.
Qed.

Lemma expand_clicks (x : Content.Extraction W) :
  Forall P (Content.clicks x) ->
  Forall P (Content.clicks
              (Content.expandCommentsToDepth host targetDepth maxTopLevel maxTotal strategy x)).
Proof.
  intros Hx. unfold Content.expandCommentsToDepth. cbv zeta.
  match goal with |- context [if ?c then _ else _] => destruct c end;
    rewrite clicks_setExtracting, clicks_setProgress; [exact Hx |].
  apply (iterate_clicks Content.maxIterations).
  rewrite clicks_setProgress. exact Hx.
Qed.

End ExpansionRun.

(** C8. In an iteration that sees [topLevelCount] top-level comments, every
    button the strategy filter lets through has its depth below [maxDepth]
    (depth strategy), or at most [min(2, maxDepth)] (breadth strategy), and
    is not at depth 0 once [topLevelCount] has reached the cap of the
    strategy; and so has every button an expansion run clicks. *)
Theorem strategy_filter_bounds :
  forall (maxDepth maxTopLevel : Z) (strategy : Content.Strategy),
    (forall (doc : Dom.Node) (topLevelCount : Z) (item : Content.Control.t),
       In item (Content.moreButtons maxDepth maxTopLevel strategy doc topLevelCount) ->
       (exists d : Z,
          Content.Control.depth item = Some d /\
          match strategy with
          | Content.Depth => (d < maxDepth)%Z /\ ~ (d >= maxDepth)%Z
          | Content.Breadth =>
              (d <= Z.min 2 maxDepth)%Z /\ ((maxTopLevel <= topLevelCount)%Z -> d <> 0%Z)
          | Content.Balanced =>
              (d < maxDepth)%Z /\ ((maxTopLevel <= topLevelCount)%Z -> d <> 0%Z)
          end))
    /\ (forall (W : Type) (host : Content.Host W) (maxTotal : Z) (x : Content.Extraction W)
               (item : Content.Control.t),
          In item
            (Content.clicks
               (Content.expandCommentsToDepth host maxDepth maxTopLevel maxTotal strategy x)) ->
          In item (Content.clicks x) \/ withinDepth strategy maxDepth item).
Proof.
  intros maxDepth maxTopLevel strategy. split.
  - intros doc topLevelCount item H.
    apply moreButtons_filtered, strategyFilter_sound in H as [(d & Hd & Hbound) Hcap].
    exists d. split; [exact Hd |].
    unfold topLevelCap in Hcap. rewrite Hd in Hcap.
    destruct strategy; (split; [exact Hbound |]); try lia; intros Hc ->;
      exact (Hcap Hc eq_refl).
  - intros W host maxTotal x item H.
    pose proof (expand_clicks host maxDepth maxTopLevel maxTotal strategy
                  (fun i => In i (Content.clicks x) \/ withinDepth strategy maxDepth i)) as HF.
    eapply List.Forall_forall in HF; [exact HF | | | exact H].
    + intros doc topLevelCount i Hi. right.
      apply moreButtons_filtered, strategyFilter_sound in Hi. tauto.
    + apply List.Forall_forall. intros i Hi. left. exact Hi.
Qed.

Lemma strategy_filter_bounds_witness :
  In sampleControl (Content.moreButtons 3 1 Content.Breadth sampleThread 1)
  /\ exists d : Z,
       Content.Control.depth sampleControl = Some d
       /\ (d <= Z.min 2 3)%Z /\ ((1 <= 1)%Z -> d <> 0%Z).
Proof.
  assert (H : In sampleControl (Content.moreButtons 3 1 Content.Breadth sampleThread 1))
    by (vm_compute; left; reflexivity).
  split; [exact H |].
  exact (proj1 (strategy_filter_bounds 3 1 Content.Breadth) sampleThread 1%Z sampleControl H).
Defined.

(** ** The extractor *)

Lemma truthy_nonempty s : JS.truthy s = true -> s <> EmptyString.
Proof. destruct s; [discriminate | intros _; discriminate]. Qed.

Lemma visitComment_spec (acc : list Content.CommentData.t * Z) (h : Dom.Handle) :
  exists r : Content.CommentData.t,
    Content.CommentData.element r = h
    /\ Content.CommentData.text r = sanitizedText h
    /\ Content.CommentData.author r = authorOf h
    /\ Content.visitComment acc h =
       (fst acc ++ (if recorded h then [r] else []),
        (snd acc + (if Content.shouldFilterAuthor (authorOf h) then 1 else 0))%Z).
Proof.
  destruct acc as [extractedComments n].
  unfold Content.visitComment, recorded. fold (authorOf h). fold (sanitizedText h).
  cbn [fst snd].
  match goal with
  | |- context [Content.CommentData.mk ?i ?t ?a ?d ?p ?e] =>
      exists (Content.CommentData.mk i t a d p e)
  end.
  repeat split.
  destruct (Content.shouldFilterAuthor (authorOf h)); cbn [negb andb].
  - rewrite app_nil_r. reflexivity.
  - destruct (JS.truthy (sanitizedText h)); cbn [negb].
    + rewrite Z.add_0_r. reflexivity.
    + rewrite app_nil_r, Z.add_0_r. reflexivity.
Qed.

Lemma walk_spec (l : list Dom.Handle) (acc : list Content.CommentData.t * Z) :
  Forall wellFormed (fst acc) ->
  Forall wellFormed (fst (List.fold_left Content.visitComment l acc))
  /\ List.map Content.CommentData.element (fst (List.fold_left Content.visitComment l acc))
     = List.map Content.CommentData.element (fst acc) ++ List.filter recorded l
  /\ snd (List.fold_left Content.visitComment l acc)
     = (snd acc
        + Z.of_nat (length (List.filter
                              (fun h => Content.shouldFilterAuthor (authorOf h)) l)))%Z.
Proof.
  revert acc. induction l as [|h l IH]; intros acc Hacc; cbn [List.fold_left List.filter].
  - rewrite app_nil_r. cbn [length]. split; [exact Hacc | split; [reflexivity | lia]].
  - destruct (visitComment_spec acc h) as (r & Hel & Htext & Hauthor & ->).
    specialize (IH (fst acc ++ (if recorded h then [r] else []),
                    (snd acc + (if Content.shouldFilterAuthor (authorOf h) then 1 else 0))%Z)).
    cbn [fst snd] in IH.
    destruct IH as (IH1 & IH2 & IH3).
    { apply Forall_app. split; [exact Hacc |].
      unfold recorded.
      destruct (Content.shouldFilterAuthor (authorOf h)) eqn:Hf; cbn [negb andb];
        [constructor |].
      destruct (JS.truthy (sanitizedText h)) eqn:Ht; [| constructor].
      constructor; [| constructor].
      unfold wellFormed. rewrite Hel, Htext, Hauthor.
      split; [apply truthy_nonempty, Ht | split; [exact Hf | split; reflexivity]]. }
    split; [exact IH1 | split].
    + rewrite IH2, List.map_app, <- app_assoc. f_equal.
      destruct (recorded h); cbn [List.map app]; [rewrite Hel |]; reflexivity.
    + rewrite IH3.
      destruct (Content.shouldFilterAuthor (authorOf h)); cbn [length]; lia.
Qed.

(** C9. Every record of an extraction pass has a non-empty sanitized text
    and an author the filter lets through; the records are, in document
    order, the comment elements whose author is not filtered and whose
    sanitized text is not empty; the elements with a filtered author are
    counted and not recorded. *)
Theorem extractComments_records :
  forall doc : Dom.Node,
    (forall r : Content.CommentData.t,
       In r (Content.extractComments doc) ->
       Content.CommentData.text r <> EmptyString
       /\ Content.shouldFilterAuthor (Content.CommentData.author r) = false
       /\ Content.CommentData.text r = sanitizedText (Content.CommentData.element r)
       /\ Content.CommentData.author r = authorOf (Content.CommentData.element r))
    /\ List.map Content.CommentData.element (Content.extractComments doc)
       = List.filter
           (fun h => negb (Content.shouldFilterAuthor (authorOf h))
                     && JS.truthy (sanitizedText h))
           (Dom.querySelectorAll Content.commentSelector doc)
    /\ Content.filteredCount doc
       = Z.of_nat
           (length (List.filter (fun h => Content.shouldFilterAuthor (authorOf h))
                      (Dom.querySelectorAll Content.commentSelector doc))).
Proof.
  intros doc. unfold Content.extractComments, Content.filteredCount, Content.walkComments.
  destruct (walk_spec (Dom.querySelectorAll Content.commentSelector doc) ([], 0%Z))
    as (H1 & H2 & H3); [constructor |].
  split; [| split].
  - intros r Hr. eapply List.Forall_forall in H1; [exact H1 | exact Hr].
  - exact H2.
  - rewrite H3. reflexivity.
Qed.

Lemma extractComments_records_witness :
  In (Content.CommentData.mk "t1_a" "See now" (Some "alice") (Some 0%Z) "#t1_a"
        (Dom.mkHandle
           (Dom.Element "shreddit-comment"
              [("depth", "0"); ("author", "alice"); ("thingid", "t1_a")]
              [Dom.Element "div" [("id", "t1_a-comment-rtjson-content")]
                 [Dom.Text "See https://example.com now"]])
           [Dom.Element "html" []
              [Dom.Element "shreddit-comment"
                 [("depth", "0"); ("author", "alice"); ("thingid", "t1_a")]
                 [Dom.Element "div" [("id", "t1_a-comment-rtjson-content")]
                    [Dom.Text "See https://example.com now"]]]]
           [0%nat]))
     (Content.extractComments
        (Dom.Element "html" []
           [Dom.Element "shreddit-comment"
              [("depth", "0"); ("author", "alice"); ("thingid", "t1_a")]
              [Dom.Element "div" [("id", "t1_a-comment-rtjson-content")]
                 [Dom.Text "See https://example.com now"]]]))
  /\ "See now" <> EmptyString.
Proof.
  match goal with |- In ?r (Content.extractComments ?doc) /\ _ =>
    assert (H : In r (Content.extractComments doc)) by (vm_compute; left; reflexivity);
    split; [exact H | exact (proj1 (proj1 (extractComments_records doc) r H))]
  end.
Defined.

(** ** The sequencer of the content script *)

Lemma readContent_out_of_range (i : Z) (s : Content.State) :
  (i < 0)%Z \/ (Z.of_nat (length (Content.allContent s)) <= i)%Z ->
  Content.readContent i s = s.
Proof.
  intros H. unfold Content.readContent.
  destruct (Z.leb_spec (Z.of_nat (length (Content.allContent s))) i); [reflexivity |].
  destruct (Z.ltb_spec i 0); [reflexivity | lia].
Qed.

Lemma nth_in_range {A : Type} (l : list A) (i : Z) :
  (0 <= i < Z.of_nat (length l))%Z -> exists x, JS.nth l i = Some x.
Proof.
  intros H. rewrite nth_nonneg by lia.
  destruct (l !! Z.to_nat i) as [x|] eqn:E; [exists x; reflexivity |].
  apply lookup_ge_None in E. lia.
Qed.

(** What [readContent] does on an index of the queue. *)
Lemma readContent_in_range (i : Z) (s : Content.State) :
  (0 <= i < Z.of_nat (length (Content.allContent s)))%Z ->
  exists item,
    JS.nth (Content.allContent s) i = Some item /\
    let u := Speech.fresh (Content.synthesis s) in
    let s1 := Content.highlight item s in
    Content.readContent i s =
    Content.setFlags true false
      (Content.perform (Content.Speak i u)
         (Content.setSynthesis
            (Speech.speak u
               (snd (Speech.create
                       (Speech.mkUtterance (Content.Item.text item)
                          (Content.playbackSpeed s) 1 1 (Some (Content.voiceLocale s))
                          (Content.getVoiceForIndex (Content.filteredVoices s)
                             (Content.useUniqueVoices s) (Content.selectedVoiceNames s) i))
                       (Content.synthesis s))))
            (Content.setCurrentUtterance (Some u) s1))).
Proof.
  intros H. destruct (nth_in_range (Content.allContent s) i H) as [item Hitem].
  exists item. split; [exact Hitem |].
  unfold Content.readContent. rewrite Hitem.
  destruct (Z.leb_spec (Z.of_nat (length (Content.allContent s))) i); [lia |].
  destruct (Z.ltb_spec i 0); [lia |].
  cbn [orb]. unfold Content.highlight.
  destruct (Content.Item.type item); try reflexivity.
  destruct (Content.Item.id item) as [c|]; [destruct (JS.truthy c) |]; reflexivity.
Qed.

Lemma highlight_frame (item : Content.Item.t) (s : Content.State) :
  Content.currentIndex (Content.highlight item s) = Content.currentIndex s
  /\ Content.allContent (Content.highlight item s) = Content.allContent s
  /\ Content.timers (Content.highlight item s) = Content.timers s
  /\ Content.synthesis (Content.highlight item s) = Content.synthesis s
  /\ exists new, Content.journal (Content.highlight item s) = Content.journal s ++ new
                 /\ forall n, Forall (speaksWithin n) new.
Proof.
  unfold Content.highlight.
  destruct (Content.Item.type item);
    [| | destruct (Content.Item.id item) as [c|]; [destruct (JS.truthy c) |]];
    cbn; repeat split;
    first [ exists []; split; [symmetry; apply app_nil_r | intros; constructor]
          | eexists [_]; split; [reflexivity | intros; repeat constructor] ].
Qed.

Lemma readContent_frame (i : Z) (s : Content.State) :
  Content.currentIndex (Content.readContent i s) = Content.currentIndex s
  /\ Content.allContent (Content.readContent i s) = Content.allContent s
  /\ Content.timers (Content.readContent i s) = Content.timers s
  /\ exists new,
       Content.journal (Content.readContent i s) = Content.journal s ++ new
       /\ Forall (speaksWithin (length (Content.allContent s))) new.
Proof.
  destruct (Z_lt_le_dec i 0) as [Hneg | Hpos];
    [| destruct (Z_lt_le_dec i (Z.of_nat (length (Content.allContent s)))) as [Hlt | Hge]].
  - rewrite readContent_out_of_range by lia. repeat split.
    exists []. split; [symmetry; apply app_nil_r | constructor].
  - destruct (readContent_in_range i s ltac:(lia)) as (item & _ & ->).
    destruct (highlight_frame item s) as (H1 & H2 & H3 & _ & new & H4 & H5).
    cbn. rewrite H1, H2, H3, H4. repeat split.
    exists (new ++ [Content.Speak i (Speech.fresh (Content.synthesis s))]).
    split; [symmetry; apply app_assoc |].
    apply Forall_app. split; [apply H5 |].
    constructor; [cbn; lia | constructor].
  - rewrite readContent_out_of_range by lia. repeat split.
    exists []. split; [symmetry; apply app_nil_r | constructor].
Qed.

Ltac frame_readContent :=
  repeat match goal with
         | |- context [Content.readContent ?i ?x] =>
             let Hc := fresh in
             let Ha := fresh in
             destruct (readContent_frame i x) as (Hc & Ha & _);
             rewrite ?Hc, ?Ha; clear Hc Ha
         end.

Lemma onMessage_bounds (request : Content.Request) (s : Content.State) :
  inBounds (Content.currentIndex s) (length (Content.allContent s)) ->
  inBounds (Content.currentIndex (Content.onMessage request s))
    (length (Content.allContent (Content.onMessage request s))).
Proof.
  unfold inBounds. intros H.
  destruct request; cbn [Content.onMessage].
  - destruct (Speech.paused (Content.synthesis s)); [exact H |].
    destruct (negb (Speech.speaking (Content.synthesis s))); [| exact H].
    frame_readContent. exact H.
  - destruct (Speech.speaking (Content.synthesis s)); exact H.
  - cbn. lia.
  - cbn [Content.setSynthesis Content.currentIndex Content.allContent].
    destruct (Z.ltb_spec (Content.currentIndex s)
                (Z.of_nat (length (Content.allContent s)) - 1)).
    + frame_readContent. cbn. lia.
    + cbn. exact H.
  - cbn [Content.setSynthesis Content.currentIndex Content.allContent].
    destruct (Z.ltb_spec 0 (Content.currentIndex s)); frame_readContent; cbn; lia.
  - exact H.
  - exact H.
  - exact H.
  - exact H.
Qed.

Lemma step_bounds (e : Content.Event) (s : Content.State) :
  inBounds (Content.currentIndex s) (length (Content.allContent s)) ->
  inBounds (Content.currentIndex (Content.step e s))
    (length (Content.allContent (Content.step e s))).
Proof.
  intros H. destruct e; cbn [Content.step].
  - apply onMessage_bounds, H.
  - destruct (Speech.heap (Content.synthesis s) !! u); [| exact H].
    unfold Content.onend.
    cbn [Content.setSynthesis Content.currentIndex Content.allContent].
    unfold inBounds in *.
    destruct (Z.ltb_spec (Content.currentIndex s)
                (Z.of_nat (length (Content.allContent s)) - 1)); cbn; lia.
  - destruct (Speech.heap (Content.synthesis s) !! u); exact H.
  - destruct (Content.timers s); [exact H |].
    frame_readContent. exact H.
  - unfold Content.extractionRequested.
    cbn [Content.setSelectedVoiceNames Content.voiceLocale].
    destruct (String.eqb locale (Content.voiceLocale s)); exact H.
  - unfold Content.extracted.
    destruct (Content.extractPostContent doc) as [t b].
    cbn. unfold inBounds. lia.
  - exact H.
  - cbn. unfold inBounds. cbn. lia.
Qed.

Lemma run_bounds (events : list Content.Event) (s : Content.State) :
  inBounds (Content.currentIndex s) (length (Content.allContent s)) ->
  inBounds (Content.currentIndex (Content.run events s))
    (length (Content.allContent (Content.run events s))).
Proof.
  revert s. induction events as [|e events IH]; intros s H; [exact H |].
  apply IH, step_bounds, H.
Qed.

Lemma onMessage_journal (request : Content.Request) (s : Content.State) :
  exists new,
    Content.journal (Content.onMessage request s) = Content.journal s ++ new
    /\ Forall (speaksWithin (length (Content.allContent (Content.onMessage request s)))) new.
Proof.
  assert (Hnil : forall x : Content.State,
             Content.journal x = Content.journal s -> exists new,
               Content.journal x = Content.journal s ++ new
               /\ Forall (speaksWithin (length (Content.allContent x))) new)
    by (intros x ->; exists []; split; [symmetry; apply app_nil_r | constructor]).
  assert (Hread : forall i x, Content.journal x = Content.journal s -> exists new,
             Content.journal (Content.readContent i x) = Content.journal s ++ new
             /\ Forall (speaksWithin (length (Content.allContent (Content.readContent i x)))) new).
  { intros i x Hx. destruct (readContent_frame i x) as (_ & Ha & _ & new & Hj & Hn).
    exists new. rewrite Ha, Hj, Hx. split; [reflexivity | exact Hn]. }
  destruct request; cbn [Content.onMessage].
  - destruct (Speech.paused (Content.synthesis s)); [apply Hnil; reflexivity |].
    destruct (negb (Speech.speaking (Content.synthesis s))); [| apply Hnil; reflexivity].
    apply Hread. reflexivity.
  - destruct (Speech.speaking (Content.synthesis s)); apply Hnil; reflexivity.
  - exists [Content.ClearHighlight]. split; [reflexivity | repeat constructor].
  - cbn [Content.setSynthesis Content.currentIndex Content.allContent].
    destruct (_ <? _)%Z; [apply Hread; reflexivity | apply Hnil; reflexivity].
  - cbn [Content.setSynthesis Content.currentIndex Content.allContent].
    destruct (0 <? _)%Z; apply Hread; reflexivity.
  - apply Hnil; reflexivity.
  - apply Hnil; reflexivity.
  - apply Hnil; reflexivity.
  - exists [Content.ClearHighlight]. split; [reflexivity | repeat constructor].
Qed.

Lemma step_journal (e : Content.Event) (s : Content.State) :
  exists new,
    Content.journal (Content.step e s) = Content.journal s ++ new
    /\ Forall (speaksWithin (length (Content.allContent (Content.step e s)))) new.
Proof.
  assert (Hnil : forall x : Content.State,
             Content.journal x = Content.journal s -> exists new,
               Content.journal x = Content.journal s ++ new
               /\ Forall (speaksWithin (length (Content.allContent x))) new)
    by (intros x ->; exists []; split; [symmetry; apply app_nil_r | constructor]).
  destruct e; cbn [Content.step].
  - apply onMessage_journal.
  - destruct (Speech.heap (Content.synthesis s) !! u); [| apply Hnil; reflexivity].
    unfold Content.onend.
    cbn [Content.setSynthesis Content.currentIndex Content.allContent].
    destruct (_ <? _)%Z.
    + exists []. split; [symmetry; apply app_nil_r | constructor].
    + exists [Content.ClearHighlight]. split; [reflexivity | repeat constructor].
  - destruct (Speech.heap (Content.synthesis s) !! u); [| apply Hnil; reflexivity].
    exists []. split; [symmetry; apply app_nil_r | constructor].
  - destruct (Content.timers s) as [|n]; [apply Hnil; reflexivity |].
    destruct (readContent_frame
                (Content.currentIndex (Content.setTimers n s)) (Content.setTimers n s))
      as (_ & Ha & _ & new & Hj & Hn).
    exists new. cbv zeta. rewrite Ha, Hj. split; [reflexivity | exact Hn].
  - unfold Content.extractionRequested.
    cbn [Content.setSelectedVoiceNames Content.voiceLocale].
    destruct (String.eqb locale (Content.voiceLocale s));
      exists []; (split; [symmetry; apply app_nil_r | constructor]).
  - unfold Content.extracted.
    destruct (Content.extractPostContent doc) as [t b].
    exists []. split; [symmetry; apply app_nil_r | constructor].
  - exists []. split; [symmetry; apply app_nil_r | constructor].
  - exists [Content.ClearHighlight]. split; [reflexivity | repeat constructor].
Qed.

(** ** The sequencer of the playback engine *)

Lemma emitStateChange_frame (e : PlaybackEngine.Engine) :
  PlaybackEngine.currentIndex (PlaybackEngine.emitStateChange e) = PlaybackEngine.currentIndex e
  /\ PlaybackEngine.comments (PlaybackEngine.emitStateChange e) = PlaybackEngine.comments e
  /\ PlaybackEngine.synthesis (PlaybackEngine.emitStateChange e) = PlaybackEngine.synthesis e
  /\ PlaybackEngine.utterance (PlaybackEngine.emitStateChange e) = PlaybackEngine.utterance e
  /\ PlaybackEngine.playbackSpeed (PlaybackEngine.emitStateChange e)
     = PlaybackEngine.playbackSpeed e
  /\ PlaybackEngine.timers (PlaybackEngine.emitStateChange e) = PlaybackEngine.timers e
  /\ exists new,
       PlaybackEngine.journal (PlaybackEngine.emitStateChange e)
       = PlaybackEngine.journal e ++ new
       /\ forall n, Forall (engineSpeaksWithin n) new.
Proof.
  unfold PlaybackEngine.emitStateChange.
  destruct (PlaybackEngine.onStateChange e); cbn; repeat split.
  - eexists [_]. split; [reflexivity | intros; repeat constructor].
  - exists []. split; [symmetry; apply app_nil_r | intros; constructor].
Qed.

Lemma readComment_out_of_range (i : Z) (e : PlaybackEngine.Engine) :
  (i < 0)%Z \/ (Z.of_nat (length (PlaybackEngine.comments e)) <= i)%Z ->
  PlaybackEngine.readComment i e = e.
Proof.
  intros H. unfold PlaybackEngine.readComment.
  destruct (Z.ltb_spec i 0); [reflexivity |].
  destruct (Z.leb_spec (Z.of_nat (length (PlaybackEngine.comments e))) i);
    [reflexivity | lia].
Qed.

(** What [readComment] does on an index of the queue. *)
Lemma readComment_in_range (i : Z) (e : PlaybackEngine.Engine) :
  (0 <= i < Z.of_nat (length (PlaybackEngine.comments e)))%Z ->
  exists comment,
    JS.nth (PlaybackEngine.comments e) i = Some comment /\
    let u := Speech.fresh (PlaybackEngine.synthesis e) in
    let e1 :=
      if PlaybackEngine.onCommentChange e
      then PlaybackEngine.emit (PlaybackEngine.CommentChange i) e else e in
    PlaybackEngine.readComment i e =
    PlaybackEngine.emitStateChange
      (PlaybackEngine.emit (PlaybackEngine.Speak i u)
         (PlaybackEngine.setSynthesis
            (Speech.speak u
               (snd (Speech.create
                       (Speech.mkUtterance (PlaybackEngine.Comment.text comment)
                          (PlaybackEngine.playbackSpeed e) 1 1 None None)
                       (PlaybackEngine.synthesis e))))
            (PlaybackEngine.setUtterance (Some u) e1))).
Proof.
  intros H. destruct (nth_in_range (PlaybackEngine.comments e) i H) as [comment Hc].
  exists comment. split; [exact Hc |].
  unfold PlaybackEngine.readComment. rewrite Hc.
  destruct (Z.ltb_spec i 0); [lia |].
  destruct (Z.leb_spec (Z.of_nat (length (PlaybackEngine.comments e))) i); [lia |].
  cbn [orb]. destruct (PlaybackEngine.onCommentChange e); reflexivity.
Qed.

Lemma readComment_frame (i : Z) (e : PlaybackEngine.Engine) :
  PlaybackEngine.currentIndex (PlaybackEngine.readComment i e) = PlaybackEngine.currentIndex e
  /\ PlaybackEngine.comments (PlaybackEngine.readComment i e) = PlaybackEngine.comments e
  /\ exists new,
       PlaybackEngine.journal (PlaybackEngine.readComment i e)
       = PlaybackEngine.journal e ++ new
       /\ Forall (engineSpeaksWithin (length (PlaybackEngine.comments e))) new.
Proof.
  destruct (Z_lt_le_dec i 0) as [Hneg | Hpos];
    [| destruct (Z_lt_le_dec i (Z.of_nat (length (PlaybackEngine.comments e))))
         as [Hlt | Hge]].
  - rewrite readComment_out_of_range by lia. repeat split.
    exists []. split; [symmetry; apply app_nil_r | constructor].
  - destruct (readComment_in_range i e ltac:(lia)) as (comment & _ & ->).
    cbv zeta.
    match goal with |- context [PlaybackEngine.emitStateChange ?x] =>
      destruct (emitStateChange_frame x) as (H1 & H2 & _ & _ & _ & _ & new & H4 & H5)
    end.
    rewrite H1, H2, H4.
    destruct (PlaybackEngine.onCommentChange e); cbn; repeat split.
    + exists ([PlaybackEngine.CommentChange i;
               PlaybackEngine.Speak i (Speech.fresh (PlaybackEngine.synthesis e))] ++ new).
      split; [rewrite <- !app_assoc; reflexivity |].
      apply Forall_app. split; [| apply H5].
      repeat constructor; cbn; lia.
    + exists ([PlaybackEngine.Speak i (Speech.fresh (PlaybackEngine.synthesis e))] ++ new).
      split; [rewrite <- !app_assoc; reflexivity |].
      apply Forall_app. split; [| apply H5].
      repeat constructor; cbn; lia.
  - rewrite readComment_out_of_range by lia. repeat split.
    exists []. split; [symmetry; apply app_nil_r | constructor].
Qed.

Lemma stop_frame (e : PlaybackEngine.Engine) :
  PlaybackEngine.currentIndex (PlaybackEngine.stop e) = 0%Z
  /\ PlaybackEngine.comments (PlaybackEngine.stop e) = PlaybackEngine.comments e
  /\ Speech.queue (PlaybackEngine.synthesis (PlaybackEngine.stop e)) = []
  /\ PlaybackEngine.utterance (PlaybackEngine.stop e) = None
  /\ PlaybackEngine.timers (PlaybackEngine.stop e) = PlaybackEngine.timers e
  /\ exists new,
       PlaybackEngine.journal (PlaybackEngine.stop e) = PlaybackEngine.journal e ++ new
       /\ forall n, Forall (engineSpeaksWithin n) new.
Proof.
  unfold PlaybackEngine.stop. cbv zeta.
  match goal with |- context [PlaybackEngine.emitStateChange ?x] =>
    destruct (emitStateChange_frame x) as (H1 & H2 & H3 & H4 & _ & H6 & new & H7 & H8)
  end.
  rewrite H1, H2, H3, H4, H6, H7. cbn. repeat split. exists new. split; [reflexivity | exact H8].
Qed.

Ltac frame_engine :=
  repeat match goal with
         | |- context [PlaybackEngine.readComment ?i ?x] =>
             let Hc := fresh in
             let Ha := fresh in
             destruct (readComment_frame i x) as (Hc & Ha & _);
             rewrite ?Hc, ?Ha; clear Hc Ha
         | |- context [PlaybackEngine.stop ?x] =>
             let Hc := fresh in
             let Ha := fresh in
             destruct (stop_frame x) as (Hc & Ha & _);
             rewrite ?Hc, ?Ha; clear Hc Ha
         | |- context [PlaybackEngine.emitStateChange ?x] =>
             let Hc := fresh in
             let Ha := fresh in
             destruct (emitStateChange_frame x) as (Hc & Ha & _);
             rewrite ?Hc, ?Ha; clear Hc Ha
         end.

Lemma engine_step_bounds (ev : PlaybackEngine.Event) (e : PlaybackEngine.Engine) :
  inBounds (PlaybackEngine.currentIndex e) (length (PlaybackEngine.comments e)) ->
  inBounds (PlaybackEngine.currentIndex (PlaybackEngine.step ev e))
    (length (PlaybackEngine.comments (PlaybackEngine.step ev e))).
Proof.
  unfold inBounds. intros H. destruct ev as [c | u | u |]; cbn [PlaybackEngine.step].
  - destruct c; cbn [PlaybackEngine.call].
    + unfold PlaybackEngine.loadComments. frame_engine. cbn. lia.
    + unfold PlaybackEngine.play.
      destruct (length (PlaybackEngine.comments e) =? 0)%nat; [exact H |].
      destruct (Speech.paused (PlaybackEngine.synthesis e)); [frame_engine; exact H |].
      destruct (Speech.speaking (PlaybackEngine.synthesis e)); [exact H |].
      frame_engine. exact H.
    + unfold PlaybackEngine.pause.
      destruct (_ && _); [frame_engine |]; exact H.
    + frame_engine. lia.
    + unfold PlaybackEngine.next.
      cbn [PlaybackEngine.setSynthesis PlaybackEngine.currentIndex PlaybackEngine.comments].
      destruct (Z.ltb_spec (PlaybackEngine.currentIndex e)
                  (Z.of_nat (length (PlaybackEngine.comments e)) - 1));
        frame_engine; cbn; lia.
    + unfold PlaybackEngine.previous.
      cbn [PlaybackEngine.setSynthesis PlaybackEngine.currentIndex PlaybackEngine.comments].
      destruct (Z.ltb_spec 0 (PlaybackEngine.currentIndex e)); frame_engine; cbn; lia.
    + unfold PlaybackEngine.setSpeed.
      cbn [PlaybackEngine.setPlaybackSpeed PlaybackEngine.utterance].
      destruct (PlaybackEngine.utterance e); exact H.
    + exact H.
    + exact H.
  - destruct (Speech.heap (PlaybackEngine.synthesis e) !! u); [| exact H].
    unfold PlaybackEngine.onend.
    cbn [PlaybackEngine.setSynthesis PlaybackEngine.currentIndex PlaybackEngine.comments].
    destruct (Z.ltb_spec (PlaybackEngine.currentIndex e)
                (Z.of_nat (length (PlaybackEngine.comments e)) - 1));
      frame_engine; cbn; lia.
  - destruct (Speech.heap (PlaybackEngine.synthesis e) !! u); [| exact H].
    unfold PlaybackEngine.onerror. frame_engine. exact H.
  - destruct (PlaybackEngine.timers e); [exact H |].
    frame_engine. exact H.
Qed.

Lemma engine_run_bounds (events : list PlaybackEngine.Event) (e : PlaybackEngine.Engine) :
  inBounds (PlaybackEngine.currentIndex e) (length (PlaybackEngine.comments e)) ->
  inBounds (PlaybackEngine.currentIndex (PlaybackEngine.run events e))
    (length (PlaybackEngine.comments (PlaybackEngine.run events e))).
Proof.
  revert e. induction events as [|ev events IH]; intros e H; [exact H |].
  apply IH, engine_step_bounds, H.
Qed.

Lemma engineExtends_same n (e : PlaybackEngine.Engine) j :
  PlaybackEngine.journal e = j -> engineExtends n j e.
Proof. intros <-. exists []. split; [symmetry; apply app_nil_r | constructor]. Qed.

Lemma engineExtends_emit n (e : PlaybackEngine.Engine) j :
  engineExtends n j e -> engineExtends n j (PlaybackEngine.emitStateChange e).
Proof.
  intros (new & Hj & Hn).
  destruct (emitStateChange_frame e) as (_ & _ & _ & _ & _ & _ & new' & Hj' & Hn').
  exists (new ++ new'). rewrite Hj', Hj, app_assoc. split; [reflexivity |].
  apply Forall_app. split; [exact Hn | apply Hn'].
Qed.

Lemma engineExtends_read i (e : PlaybackEngine.Engine) j :
  engineExtends (length (PlaybackEngine.comments e)) j e ->
  engineExtends (length (PlaybackEngine.comments e)) j (PlaybackEngine.readComment i e).
Proof.
  intros (new & Hj & Hn).
  destruct (readComment_frame i e) as (_ & _ & new' & Hj' & Hn').
  exists (new ++ new'). rewrite Hj', Hj, app_assoc. split; [reflexivity |].
  apply Forall_app. split; [exact Hn | exact Hn'].
Qed.

Lemma engineExtends_stop n (e : PlaybackEngine.Engine) j :
  engineExtends n j e -> engineExtends n j (PlaybackEngine.stop e).
Proof.
  intros (new & Hj & Hn).
  destruct (stop_frame e) as (_ & _ & _ & _ & _ & new' & Hj' & Hn').
  exists (new ++ new'). rewrite Hj', Hj, app_assoc. split; [reflexivity |].
  apply Forall_app. split; [exact Hn | apply Hn'].
Qed.

Lemma engine_step_journal (ev : PlaybackEngine.Event) (e : PlaybackEngine.Engine) :
  engineExtends (length (PlaybackEngine.comments (PlaybackEngine.step ev e)))
    (PlaybackEngine.journal e) (PlaybackEngine.step ev e).
Proof.
  destruct ev as [c | u | u |]; cbn [PlaybackEngine.step].
  - destruct c; cbn [PlaybackEngine.call].
    + apply engineExtends_emit, engineExtends_same. reflexivity.
    + unfold PlaybackEngine.play.
      destruct (length (PlaybackEngine.comments e) =? 0)%nat;
        [apply engineExtends_same; reflexivity |].
      destruct (Speech.paused (PlaybackEngine.synthesis e));
        [apply engineExtends_emit, engineExtends_same; reflexivity |].
      destruct (Speech.speaking (PlaybackEngine.synthesis e));
        [apply engineExtends_same; reflexivity |].
      destruct (readComment_frame (PlaybackEngine.currentIndex e) e) as (_ & -> & _).
      apply engineExtends_read, engineExtends_same. reflexivity.
    + unfold PlaybackEngine.pause.
      destruct (_ && _);
        [apply engineExtends_emit |]; apply engineExtends_same; reflexivity.
    + apply engineExtends_stop, engineExtends_same. reflexivity.
    + unfold PlaybackEngine.next.
      cbn [PlaybackEngine.setSynthesis PlaybackEngine.currentIndex PlaybackEngine.comments].
      destruct (_ <? _)%Z.
      * match goal with |- context [PlaybackEngine.readComment ?i ?x] =>
          destruct (readComment_frame i x) as (_ & -> & _);
          apply (engineExtends_read i x), engineExtends_same; reflexivity
        end.
      * apply engineExtends_stop, engineExtends_same. reflexivity.
    + unfold PlaybackEngine.previous.
      cbn [PlaybackEngine.setSynthesis PlaybackEngine.currentIndex PlaybackEngine.comments].
      destruct (0 <? _)%Z;
        match goal with |- context [PlaybackEngine.readComment ?i ?x] =>
          destruct (readComment_frame i x) as (_ & -> & _);
          apply (engineExtends_read i x), engineExtends_same; reflexivity
        end.
    + unfold PlaybackEngine.setSpeed.
      cbn [PlaybackEngine.setPlaybackSpeed PlaybackEngine.utterance].
      destruct (PlaybackEngine.utterance e); apply engineExtends_same; reflexivity.
    + apply engineExtends_same. reflexivity.
    + apply engineExtends_same. reflexivity.
  - destruct (Speech.heap (PlaybackEngine.synthesis e) !! u);
      [| apply engineExtends_same; reflexivity].
    unfold PlaybackEngine.onend.
    cbn [PlaybackEngine.setSynthesis PlaybackEngine.currentIndex PlaybackEngine.comments].
    destruct (_ <? _)%Z; [apply engineExtends_same; reflexivity |].
    apply engineExtends_stop, engineExtends_same. reflexivity.
  - destruct (Speech.heap (PlaybackEngine.synthesis e) !! u);
      [| apply engineExtends_same; reflexivity].
    apply engineExtends_emit, engineExtends_same. reflexivity.
  - destruct (PlaybackEngine.timers e) as [|n]; [apply engineExtends_same; reflexivity |].
    cbv zeta.
    match goal with |- context [PlaybackEngine.readComment ?i ?x] =>
      destruct (readComment_frame i x) as (_ & -> & _);
      apply (engineExtends_read i x), engineExtends_same; reflexivity
    end.
Qed.

(** C10. From the loaded script, whatever the messages, callbacks, timers,
    extractions and page changes, the cursor stays between 0 and
    [max(0, totalItems - 1)]; a step speaks at indices of the queue only;
    [readContent] does nothing on an index outside of the queue; and the
    same holds of the playback engine and its [readComment]. *)
Theorem cursor_stays_in_bounds :
  (forall (voices : list Speech.Voice) (events : list Content.Event),
     let s := Content.run events (Content.loaded voices) in
     (0 <= Content.currentIndex s
        <= Z.max 0 (Z.of_nat (length (Content.allContent s)) - 1))%Z)
  /\ (forall (s : Content.State) (e : Content.Event),
        inBounds (Content.currentIndex s) (length (Content.allContent s)) ->
        inBounds (Content.currentIndex (Content.step e s))
          (length (Content.allContent (Content.step e s))))
  /\ (forall (s : Content.State) (e : Content.Event) (i : Z) (u : nat),
        In (Content.Speak i u) (Content.journal (Content.step e s)) ->
        In (Content.Speak i u) (Content.journal s)
        \/ (0 <= i < Z.of_nat (length (Content.allContent (Content.step e s))))%Z)
  /\ (forall (s : Content.State) (i : Z),
        (i < 0)%Z \/ (Z.of_nat (length (Content.allContent s)) <= i)%Z ->
        Content.readContent i s = s)
  /\ (forall events : list PlaybackEngine.Event,
        let e := PlaybackEngine.run events PlaybackEngine.create in
        (0 <= PlaybackEngine.currentIndex e
           <= Z.max 0 (Z.of_nat (length (PlaybackEngine.comments e)) - 1))%Z)
  /\ (forall (e : PlaybackEngine.Engine) (ev : PlaybackEngine.Event) (i : Z) (u : nat),
        In (PlaybackEngine.Speak i u) (PlaybackEngine.journal (PlaybackEngine.step ev e)) ->
        In (PlaybackEngine.Speak i u) (PlaybackEngine.journal e)
        \/ (0 <= i < Z.of_nat (length (PlaybackEngine.comments (PlaybackEngine.step ev e))))%Z)
  /\ (forall (e : PlaybackEngine.Engine) (i : Z),
        (i < 0)%Z \/ (Z.of_nat (length (PlaybackEngine.comments e)) <= i)%Z ->
        PlaybackEngine.readComment i e = e).
Proof.
  repeat apply conj.
  - intros voices events. apply run_bounds. cbn. unfold inBounds. cbn. lia.
  - intros s e. apply step_bounds.
  - intros s e i u H.
    destruct (step_journal e s) as (new & Hj & Hn). rewrite Hj in H.
    apply in_app_or in H as [H | H]; [left; exact H | right].
    eapply List.Forall_forall in Hn; [| exact H]. exact Hn.
  - intros s i. apply readContent_out_of_range.
  - intros events. apply engine_run_bounds. unfold inBounds. cbn. lia.
  - intros e ev i u H.
    destruct (engine_step_journal ev e) as (new & Hj & Hn). rewrite Hj in H.
    apply in_app_or in H as [H | H]; [left; exact H | right].
    eapply List.Forall_forall in Hn; [| exact H]. exact Hn.
  - intros e i. apply readComment_out_of_range.
Qed.

Lemma cursor_stays_in_bounds_witness :
  inBounds (Content.currentIndex samplePlaying) (length (Content.allContent samplePlaying))
  /\ inBounds
       (Content.currentIndex (Content.step (Content.Message Content.next) samplePlaying))
       (length (Content.allContent
                  (Content.step (Content.Message Content.next) samplePlaying))).
Proof.
  assert (H : inBounds (Content.currentIndex samplePlaying)
                (length (Content.allContent samplePlaying)))
    by (vm_compute; split; discriminate).
  split; [exact H |].
  exact (proj1 (proj2 cursor_stays_in_bounds) samplePlaying
           (Content.Message Content.next) H).
Defined.

(** ** Transport commands and stale callbacks *)

Lemma readContent_hands (s x : Content.State) (i : Z) :
  (0 <= i < Z.of_nat (length (Content.allContent s)))%Z ->
  Content.allContent x = Content.allContent s ->
  Speech.fresh (Content.synthesis x) = Speech.fresh (Content.synthesis s) ->
  Speech.queue (Content.synthesis x) = [] ->
  handsOver s i (Content.readContent i x)
  /\ Speech.paused (Content.synthesis (Content.readContent i x))
     = Speech.paused (Content.synthesis x).
Proof.
  intros Hi Ha Hf Hq.
  destruct (readContent_in_range i x ltac:(rewrite Ha; exact Hi)) as (item & Hitem & ->).
  split.
  - unfold handsOver. rewrite <- Ha, <- Hf.
    eexists item, _. split; [exact Hitem |].
    cbn. rewrite Hq.
    split; [reflexivity |].
    split; [apply lookup_insert_eq |].
    cbn. repeat split.
    apply in_or_app. right. left. reflexivity.
  - cbn. unfold Content.highlight.
    destruct (Content.Item.type item);
      [| | destruct (Content.Item.id item) as [c|]; [destruct (JS.truthy c) |]];
      reflexivity.
Qed.

(** C1, as amended. [stop()] leaves the cursor at 0 with nothing in flight.
    The completion callback carries no utterance identity: fired late for
    the cancelled utterance, it is handled as a completion at cursor 0.
    With at most one item in the queue it leaves the cursor at 0 and starts
    nothing; with two items or more it moves the cursor to 1 and sets the
    timer, which leaves the cursor at 1 and, item 1 being one that
    [readContent] can read (an id that [highlightComment] can quote, a
    speed that an utterance takes as its rate), hands item 1 to the engine.
    The engine speaks it at once when it was not paused; [stop()] lifts no
    pause of the engine, and a paused engine holds the utterance. *)
Theorem stop_then_late_completion :
  forall (s : Content.State) (u : nat) (ut : Speech.Utterance),
    Speech.inFlight (Content.synthesis s) = Some u ->
    Speech.heap (Content.synthesis s) !! u = Some ut ->
    let s1 := Content.step (Content.Message Content.stop) s in
    let s2 := Content.step (Content.UtteranceEnd u) s1 in
    let s3 := Content.step Content.Timeout s2 in
    (Content.currentIndex s1 = 0%Z
     /\ Speech.queue (Content.synthesis s1) = []
     /\ Content.timers s1 = Content.timers s)
    /\ ((length (Content.allContent s) <= 1)%nat ->
        Content.currentIndex s2 = 0%Z
        /\ Content.timers s2 = Content.timers s1
        /\ Content.synthesis s2 = Content.synthesis s1)
    /\ ((2 <= length (Content.allContent s))%nat ->
        Content.currentIndex s2 = 1%Z
        /\ Content.timers s2 = S (Content.timers s1)
        /\ Content.currentIndex s3 = 1%Z
        /\ (readableAt s 1 = true ->
            handsOver s 1 s3
            /\ Speech.paused (Content.synthesis s3) = Speech.paused (Content.synthesis s)
            /\ (Speech.paused (Content.synthesis s) = false -> beginsSpeaking s 1 s3))).
Proof.
  intros s u ut Hflight Hheap s1 s2 s3.
  assert (Hlook : Speech.heap (Content.synthesis s1) !! u = Some ut) by exact Hheap.
  split; [repeat split |]; split.
  - intros Hlen. subst s2. cbn [Content.step]. rewrite Hlook.
    unfold Content.onend.
    destruct (Z.ltb_spec
                (Content.currentIndex
                   (Content.setSynthesis (Speech.finish u (Content.synthesis s1)) s1))
                (Z.of_nat
                   (length (Content.allContent
                              (Content.setSynthesis
                                 (Speech.finish u (Content.synthesis s1)) s1))) - 1))
      as [Hlt | Hge].
    + cbn in Hlt. lia.
    + repeat split.
  - intros Hlen.
    assert (E2 : s2 = Content.setTimers (S (Content.timers s1))
                        (Content.setCurrentIndex 1
                           (Content.setSynthesis
                              (Speech.finish u (Content.synthesis s1)) s1))).
    { subst s2. cbn [Content.step]. rewrite Hlook. unfold Content.onend.
      destruct (Z.ltb_spec
                  (Content.currentIndex
                     (Content.setSynthesis (Speech.finish u (Content.synthesis s1)) s1))
                  (Z.of_nat
                     (length (Content.allContent
                                (Content.setSynthesis
                                   (Speech.finish u (Content.synthesis s1)) s1))) - 1))
        as [Hlt | Hge].
      - reflexivity.
      - cbn in Hge. lia. }
    assert (E3 : s3 = Content.readContent 1
                        (Content.setTimers (Content.timers s1)
                           (Content.setCurrentIndex 1
                              (Content.setSynthesis
                                 (Speech.finish u (Content.synthesis s1)) s1)))).
    { subst s3. rewrite E2. reflexivity. }
    split; [rewrite E2; reflexivity |].
    split; [rewrite E2; reflexivity |].
    split.
    + rewrite E3.
      match goal with |- context [Content.readContent ?i ?x] =>
        destruct (readContent_frame i x) as (-> & _)
      end.
      reflexivity.
    + intros _. rewrite E3.
      match goal with |- context [Content.readContent ?i ?x] =>
        destruct (readContent_hands s x i) as [Hhands Hpaused];
          [cbn; lia | reflexivity | reflexivity | reflexivity |]
      end.
      split; [exact Hhands |].
      split; [rewrite Hpaused; reflexivity |].
      intros Hp. split; [exact Hhands |]. rewrite Hpaused. exact Hp.
Qed.

Lemma stop_then_late_completion_witness :
  Speech.inFlight (Content.synthesis samplePlaying) = Some 0%nat
  /\ Speech.heap (Content.synthesis samplePlaying) !! 0%nat = Some sampleUtterance
  /\ (2 <= length (Content.allContent samplePlaying))%nat
  /\ readableAt samplePlaying 1 = true
  /\ Speech.paused (Content.synthesis samplePlaying) = false
  /\ Content.currentIndex sampleLate = 1%Z
  /\ beginsSpeaking samplePlaying 1 sampleResumed.
Proof.
  assert (H1 : Speech.inFlight (Content.synthesis samplePlaying) = Some 0%nat)
    by (vm_compute; reflexivity).
  assert (H2 : Speech.heap (Content.synthesis samplePlaying) !! 0%nat = Some sampleUtterance)
    by (vm_compute; reflexivity).
  assert (H3 : (2 <= length (Content.allContent samplePlaying))%nat)
    by (vm_compute; lia).
  assert (H4 : readableAt samplePlaying 1 = true) by (vm_compute; reflexivity).
  assert (H5 : Speech.paused (Content.synthesis samplePlaying) = false)
    by (vm_compute; reflexivity).
  split; [exact H1 | split; [exact H2 | split; [exact H3 | split; [exact H4 |]]]].
  split; [exact H5 |].
  destruct (stop_then_late_completion samplePlaying 0%nat sampleUtterance H1 H2)
    as (_ & _ & H).
  destruct (H H3) as (Hc & _ & _ & Hq).
  split; [exact Hc |].
  exact (proj2 (proj2 (Hq H4)) H5).
Defined.

(** C1, as stated, fails: on the sample thread, [stop()] while the title is
    spoken and then the late [onend] of that utterance move the cursor from
    0 to 1, and the timer the callback sets speaks item 1. *)
Lemma stale_completion_advances :
  Speech.inFlight (Content.synthesis samplePlaying) = Some 0%nat
  /\ Content.currentIndex sampleStopped = 0%Z
  /\ Speech.inFlight (Content.synthesis sampleStopped) = None
  /\ Content.currentIndex sampleLate = 1%Z
  /\ Content.currentIndex sampleLate <> Content.currentIndex sampleStopped
  /\ Speech.inFlight (Content.synthesis sampleResumed) = Some 1%nat
  /\ In (Content.Speak 1 1) (Content.journal sampleResumed).
Proof.
  vm_compute. repeat split; try discriminate.
  right. right. right. right. left. reflexivity.
Qed.

(** *** The playback rate *)

Lemma clamp_bounds (speed : Q) :
  (1 # 2 <= PlaybackEngine.clamp speed)%Q /\ (PlaybackEngine.clamp speed <= 2)%Q.
Proof.
  unfold PlaybackEngine.clamp.
  destruct (Qle_bool 2 speed) eqn:E2.
  - cbv zeta. change (Qle_bool 2 (1 # 2)) with false. cbv iota.
    split; unfold Qle; cbn; lia.
  - destruct (Qle_bool speed (1 # 2)) eqn:E1.
    + split; unfold Qle; cbn; lia.
    + split.
      * apply Qlt_le_weak, Qnot_le_lt. intros H. apply Qle_bool_iff in H. congruence.
      * apply Qlt_le_weak, Qnot_le_lt. intros H. apply Qle_bool_iff in H. congruence.
Qed.

Lemma clamp_inside (speed : Q) :
  (1 # 2 <= speed)%Q -> (speed <= 2)%Q -> (PlaybackEngine.clamp speed == speed)%Q.
Proof.
  intros Hlo Hhi. unfold PlaybackEngine.clamp.
  destruct (Qle_bool 2 speed) eqn:E2.
  - apply Qle_bool_iff in E2. cbv zeta. change (Qle_bool 2 (1 # 2)) with false. cbv iota.
    apply Qle_antisym; assumption.
  - destruct (Qle_bool speed (1 # 2)) eqn:E1; [| reflexivity].
    apply Qle_bool_iff in E1. apply Qle_antisym; assumption.
Qed.

(** In the playback engine, [setSpeed] stores the rate clamped to
    [[0.5, 2]], sets it on the utterance the engine holds, and every
    utterance made afterwards starts at it. *)
Lemma engine_setSpeed_clamps (speed : Q) (e : PlaybackEngine.Engine) :
  let e' := PlaybackEngine.setSpeed speed e in
  PlaybackEngine.playbackSpeed e' = PlaybackEngine.clamp speed
  /\ (1 # 2 <= PlaybackEngine.playbackSpeed e')%Q
  /\ (PlaybackEngine.playbackSpeed e' <= 2)%Q
  /\ (forall u ut,
        PlaybackEngine.utterance e = Some u ->
        Speech.heap (PlaybackEngine.synthesis e) !! u = Some ut ->
        Speech.rate <$> Speech.heap (PlaybackEngine.synthesis e') !! u
        = Some (PlaybackEngine.clamp speed))
  /\ (forall i,
        (0 <= i < Z.of_nat (length (PlaybackEngine.comments e)))%Z ->
        Speech.rate <$>
          Speech.heap (PlaybackEngine.synthesis (PlaybackEngine.readComment i e'))
            !! Speech.fresh (PlaybackEngine.synthesis e)
        = Some (PlaybackEngine.clamp speed)).
Proof.
  intros e'.
  assert (Hs : PlaybackEngine.playbackSpeed e' = PlaybackEngine.clamp speed).
  { subst e'. unfold PlaybackEngine.setSpeed. cbn.
    destruct (PlaybackEngine.utterance e); reflexivity. }
  assert (Hc : PlaybackEngine.comments e' = PlaybackEngine.comments e).
  { subst e'. unfold PlaybackEngine.setSpeed. cbn.
    destruct (PlaybackEngine.utterance e); reflexivity. }
  assert (Hf : Speech.fresh (PlaybackEngine.synthesis e')
               = Speech.fresh (PlaybackEngine.synthesis e)).
  { subst e'. unfold PlaybackEngine.setSpeed. cbn.
    destruct (PlaybackEngine.utterance e); reflexivity. }
  split; [exact Hs |]. rewrite Hs.
  split; [apply clamp_bounds |]. split; [apply clamp_bounds |]. split.
  - intros u ut Hu Hut. subst e'. unfold PlaybackEngine.setSpeed. cbn. rewrite Hu. cbn.
    rewrite lookup_alter_eq, Hut. reflexivity.
  - intros i Hi.
    destruct (readComment_in_range i e' ltac:(rewrite Hc; exact Hi)) as (c & _ & ->).
    cbv zeta.
    match goal with |- context [PlaybackEngine.emitStateChange ?x] =>
      destruct (emitStateChange_frame x) as (_ & _ & -> & _)
    end.
    rewrite Hs. cbn. rewrite Hf, lookup_insert_eq. reflexivity.
Qed.

(** In the content script the [setSpeed] message stores the rate as it
    comes and touches neither the engine nor its utterances. *)
Lemma content_setSpeed_stores (speed : Q) (s : Content.State) :
  Content.playbackSpeed (Content.onMessage (Content.setSpeed speed) s) = speed
  /\ Content.synthesis (Content.onMessage (Content.setSpeed speed) s) = Content.synthesis s.
Proof. split; reflexivity. Qed.

(** C2 at failing inputs, the first item being spoken at rate 1. On the
    message [setSpeed 1.5] the content script stores 1.5 and leaves the
    utterance in flight at rate 1; on [setSpeed 3] it stores 3, above 2.
    The playback engine stores 1.5 and 2, and sets the utterance it holds
    to the stored rate. *)
Theorem setSpeed_message_not_clamped :
  Speech.inFlight (Content.synthesis samplePlaying) = Some 0%nat
  /\ Content.playbackSpeed
       (Content.step (Content.Message (Content.setSpeed (3 # 2))) samplePlaying) = (3 # 2)%Q
  /\ Speech.rate <$>
       Speech.heap
         (Content.synthesis
            (Content.step (Content.Message (Content.setSpeed (3 # 2))) samplePlaying))
         !! 0%nat
     = Some 1%Q
  /\ Content.playbackSpeed
       (Content.step (Content.Message (Content.setSpeed 3)) samplePlaying) = 3%Q
  /\ ~ (3 <= 2)%Q
  /\ Speech.inFlight (PlaybackEngine.synthesis sampleEngine) = Some 0%nat
  /\ PlaybackEngine.playbackSpeed (PlaybackEngine.setSpeed (3 # 2) sampleEngine) = (3 # 2)%Q
  /\ Speech.rate <$>
       Speech.heap (PlaybackEngine.synthesis (PlaybackEngine.setSpeed (3 # 2) sampleEngine))
         !! 0%nat
     = Some (3 # 2)%Q
  /\ PlaybackEngine.playbackSpeed (PlaybackEngine.setSpeed 3 sampleEngine) = 2%Q
  /\ Speech.rate <$>
       Speech.heap (PlaybackEngine.synthesis (PlaybackEngine.setSpeed 3 sampleEngine)) !! 0%nat
     = Some 2%Q.
Proof.
  repeat apply conj; try (vm_compute; reflexivity).
  unfold Qle. cbn. lia.
Qed.

Lemma readComment_hands (e x : PlaybackEngine.Engine) (i : Z) :
  (0 <= i < Z.of_nat (length (PlaybackEngine.comments e)))%Z ->
  PlaybackEngine.comments x = PlaybackEngine.comments e ->
  Speech.fresh (PlaybackEngine.synthesis x) = Speech.fresh (PlaybackEngine.synthesis e) ->
  Speech.queue (PlaybackEngine.synthesis x) = [] ->
  engineHandsOver e i (PlaybackEngine.readComment i x)
  /\ Speech.paused (PlaybackEngine.synthesis (PlaybackEngine.readComment i x))
     = Speech.paused (PlaybackEngine.synthesis x).
Proof.
  intros Hi Ha Hf Hq.
  destruct (readComment_in_range i x ltac:(rewrite Ha; exact Hi)) as (c & Hc & ->).
  cbv zeta.
  match goal with |- context [PlaybackEngine.emitStateChange ?y] =>
    destruct (emitStateChange_frame y) as (_ & _ & Hy & Hu & _ & _ & new & Hj & _)
  end.
  split; [| rewrite Hy].
  - unfold engineHandsOver. rewrite <- Ha, <- Hf, Hy, Hu, Hj.
    eexists c, _. split; [exact Hc |].
    cbn. rewrite Hq.
    split; [reflexivity |].
    split; [apply lookup_insert_eq |].
    cbn. repeat split.
    apply in_or_app. left. apply in_or_app. right. left. reflexivity.
  - cbn. destruct (PlaybackEngine.onCommentChange x); reflexivity.
Qed.

(** C3, as amended. On a non-empty queue with the cursor inside it:
    [previous] at cursor 0 cancels the speech and hands item 0 to the
    engine again, the cursor staying 0; [next] at the last index cancels
    the speech and starts nothing, the cursor staying at the last index in
    the content script, and going back to 0 in the playback engine, whose
    [next()] calls [stop()] there; away from the boundaries both move the
    cursor by one and hand the item under it to the engine. The engine
    speaks the item at once when it was not paused; neither command lifts a
    pause of the engine, and a paused engine holds the utterance. In the
    content script this is so for an item that [readContent] can read: an
    id that [highlightComment] can quote, a speed that an utterance takes
    as its rate. *)
Theorem next_previous_at_boundaries :
  (forall s : Content.State,
     let n := Z.of_nat (length (Content.allContent s)) in
     let i := Content.currentIndex s in
     let unpaused := Speech.paused (Content.synthesis s) = false in
     (0 <= i < n)%Z ->
     (i = 0%Z ->
      Content.currentIndex (Content.onMessage Content.previous s) = 0%Z
      /\ (readableAt s 0 = true ->
          handsOver s 0 (Content.onMessage Content.previous s)
          /\ Speech.paused (Content.synthesis (Content.onMessage Content.previous s))
             = Speech.paused (Content.synthesis s)
          /\ (unpaused -> beginsSpeaking s 0 (Content.onMessage Content.previous s))))
     /\ (i = (n - 1)%Z ->
         Content.currentIndex (Content.onMessage Content.next s) = (n - 1)%Z
         /\ Speech.queue (Content.synthesis (Content.onMessage Content.next s)) = []
         /\ Content.journal (Content.onMessage Content.next s) = Content.journal s)
     /\ ((i < n - 1)%Z ->
         Content.currentIndex (Content.onMessage Content.next s) = (i + 1)%Z
         /\ (readableAt s (i + 1) = true ->
             handsOver s (i + 1) (Content.onMessage Content.next s)
             /\ Speech.paused (Content.synthesis (Content.onMessage Content.next s))
                = Speech.paused (Content.synthesis s)
             /\ (unpaused -> beginsSpeaking s (i + 1) (Content.onMessage Content.next s))))
     /\ ((0 < i)%Z ->
         Content.currentIndex (Content.onMessage Content.previous s) = (i - 1)%Z
         /\ (readableAt s (i - 1) = true ->
             handsOver s (i - 1) (Content.onMessage Content.previous s)
             /\ Speech.paused (Content.synthesis (Content.onMessage Content.previous s))
                = Speech.paused (Content.synthesis s)
             /\ (unpaused ->
                 beginsSpeaking s (i - 1) (Content.onMessage Content.previous s)))))
  /\ (forall e : PlaybackEngine.Engine,
        let n := Z.of_nat (length (PlaybackEngine.comments e)) in
        let i := PlaybackEngine.currentIndex e in
        let unpaused := Speech.paused (PlaybackEngine.synthesis e) = false in
        (0 <= i < n)%Z ->
        (i = 0%Z ->
         PlaybackEngine.currentIndex (PlaybackEngine.previous e) = 0%Z
         /\ engineHandsOver e 0 (PlaybackEngine.previous e)
         /\ Speech.paused (PlaybackEngine.synthesis (PlaybackEngine.previous e))
            = Speech.paused (PlaybackEngine.synthesis e)
         /\ (unpaused -> engineBeginsSpeaking e 0 (PlaybackEngine.previous e)))
        /\ (i = (n - 1)%Z ->
            PlaybackEngine.currentIndex (PlaybackEngine.next e) = 0%Z
            /\ Speech.queue (PlaybackEngine.synthesis (PlaybackEngine.next e)) = []
            /\ PlaybackEngine.utterance (PlaybackEngine.next e) = None
            /\ forall j u,
                 In (PlaybackEngine.Speak j u) (PlaybackEngine.journal (PlaybackEngine.next e)) ->
                 In (PlaybackEngine.Speak j u) (PlaybackEngine.journal e))
        /\ ((i < n - 1)%Z ->
            PlaybackEngine.currentIndex (PlaybackEngine.next e) = (i + 1)%Z
            /\ engineHandsOver e (i + 1) (PlaybackEngine.next e)
            /\ Speech.paused (PlaybackEngine.synthesis (PlaybackEngine.next e))
               = Speech.paused (PlaybackEngine.synthesis e)
            /\ (unpaused -> engineBeginsSpeaking e (i + 1) (PlaybackEngine.next e)))
        /\ ((0 < i)%Z ->
            PlaybackEngine.currentIndex (PlaybackEngine.previous e) = (i - 1)%Z
            /\ engineHandsOver e (i - 1) (PlaybackEngine.previous e)
            /\ Speech.paused (PlaybackEngine.synthesis (PlaybackEngine.previous e))
               = Speech.paused (PlaybackEngine.synthesis e)
            /\ (unpaused -> engineBeginsSpeaking e (i - 1) (PlaybackEngine.previous e)))).
Proof.
  assert (Hread : forall (s x : Content.State) (j : Z),
             (0 <= j < Z.of_nat (length (Content.allContent s)))%Z ->
             Content.allContent x = Content.allContent s ->
             Speech.fresh (Content.synthesis x) = Speech.fresh (Content.synthesis s) ->
             Speech.queue (Content.synthesis x) = [] ->
             Speech.paused (Content.synthesis x) = Speech.paused (Content.synthesis s) ->
             handsOver s j (Content.readContent j x)
             /\ Speech.paused (Content.synthesis (Content.readContent j x))
                = Speech.paused (Content.synthesis s)
             /\ (Speech.paused (Content.synthesis s) = false ->
                 beginsSpeaking s j (Content.readContent j x))).
  { intros s x j Hj Ha Hf Hq Hpaused.
    destruct (readContent_hands s x j Hj Ha Hf Hq) as [Hhands Hkeeps].
    rewrite Hpaused in Hkeeps.
    split; [exact Hhands | split; [exact Hkeeps |]].
    intros Hun. split; [exact Hhands | rewrite Hkeeps; exact Hun]. }
  assert (Hengine : forall (e x : PlaybackEngine.Engine) (j : Z),
             (0 <= j < Z.of_nat (length (PlaybackEngine.comments e)))%Z ->
             PlaybackEngine.comments x = PlaybackEngine.comments e ->
             Speech.fresh (PlaybackEngine.synthesis x)
             = Speech.fresh (PlaybackEngine.synthesis e) ->
             Speech.queue (PlaybackEngine.synthesis x) = [] ->
             Speech.paused (PlaybackEngine.synthesis x)
             = Speech.paused (PlaybackEngine.synthesis e) ->
             engineHandsOver e j (PlaybackEngine.readComment j x)
             /\ Speech.paused (PlaybackEngine.synthesis (PlaybackEngine.readComment j x))
                = Speech.paused (PlaybackEngine.synthesis e)
             /\ (Speech.paused (PlaybackEngine.synthesis e) = false ->
                 engineBeginsSpeaking e j (PlaybackEngine.readComment j x))).
  { intros e x j Hj Ha Hf Hq Hpaused.
    destruct (readComment_hands e x j Hj Ha Hf Hq) as [Hhands Hkeeps].
    rewrite Hpaused in Hkeeps.
    split; [exact Hhands | split; [exact Hkeeps |]].
    intros Hun. split; [exact Hhands | rewrite Hkeeps; exact Hun]. }
  split.
  - intros s n i unpaused Hi. subst n i unpaused. repeat apply conj.
    + intros H0. cbn [Content.onMessage].
      cbn [Content.setSynthesis Content.currentIndex Content.allContent].
      destruct (Z.ltb_spec 0 (Content.currentIndex s)); [lia |].
      cbn [Content.setSynthesis Content.currentIndex]. rewrite H0.
      split; [| intros _; apply Hread; try reflexivity; lia].
      match goal with |- context [Content.readContent ?j ?x] =>
        destruct (readContent_frame j x) as (-> & _)
      end. cbn. exact H0.
    + intros Hlast. cbn [Content.onMessage].
      cbn [Content.setSynthesis Content.currentIndex Content.allContent].
      destruct (Z.ltb_spec (Content.currentIndex s)
                  (Z.of_nat (length (Content.allContent s)) - 1)); [lia |].
      repeat split. cbn. exact Hlast.
    + intros Hlt. cbn [Content.onMessage].
      cbn [Content.setSynthesis Content.currentIndex Content.allContent].
      destruct (Z.ltb_spec (Content.currentIndex s)
                  (Z.of_nat (length (Content.allContent s)) - 1)); [| lia].
      cbn [Content.setCurrentIndex Content.currentIndex].
      split; [| intros _; apply Hread; try reflexivity; lia].
      match goal with |- context [Content.readContent ?j ?x] =>
        destruct (readContent_frame j x) as (-> & _)
      end. reflexivity.
    + intros Hpos. cbn [Content.onMessage].
      cbn [Content.setSynthesis Content.currentIndex Content.allContent].
      destruct (Z.ltb_spec 0 (Content.currentIndex s)); [| lia].
      cbn [Content.setCurrentIndex Content.currentIndex].
      split; [| intros _; apply Hread; try reflexivity; lia].
      match goal with |- context [Content.readContent ?j ?x] =>
        destruct (readContent_frame j x) as (-> & _)
      end. reflexivity.
  - intros e n i unpaused Hi. subst n i unpaused. repeat apply conj.
    + intros H0. unfold PlaybackEngine.previous.
      cbn [PlaybackEngine.setSynthesis PlaybackEngine.currentIndex PlaybackEngine.comments].
      destruct (Z.ltb_spec 0 (PlaybackEngine.currentIndex e)); [lia |].
      cbn [PlaybackEngine.setCurrentIndex PlaybackEngine.currentIndex].
      split; [| apply Hengine; try reflexivity; lia].
      match goal with |- context [PlaybackEngine.readComment ?j ?x] =>
        destruct (readComment_frame j x) as (-> & _)
      end. reflexivity.
    + intros Hlast. unfold PlaybackEngine.next.
      cbn [PlaybackEngine.setSynthesis PlaybackEngine.currentIndex PlaybackEngine.comments].
      destruct (Z.ltb_spec (PlaybackEngine.currentIndex e)
                  (Z.of_nat (length (PlaybackEngine.comments e)) - 1)); [lia |].
      match goal with |- context [PlaybackEngine.stop ?x] =>
        destruct (stop_frame x) as (H1 & _ & H3 & H4 & _ & new & H6 & H7)
      end.
      split; [exact H1 | split; [exact H3 | split; [exact H4 |]]].
      intros j u Hin. rewrite H6 in Hin. cbn in Hin.
      apply in_app_or in Hin as [Hin | Hin]; [exact Hin |].
      exfalso. specialize (H7 0%nat).
      eapply List.Forall_forall in H7; [| exact Hin]. cbn in H7. lia.
    + intros Hlt. unfold PlaybackEngine.next.
      cbn [PlaybackEngine.setSynthesis PlaybackEngine.currentIndex PlaybackEngine.comments].
      destruct (Z.ltb_spec (PlaybackEngine.currentIndex e)
                  (Z.of_nat (length (PlaybackEngine.comments e)) - 1)); [| lia].
      cbn [PlaybackEngine.setCurrentIndex PlaybackEngine.currentIndex].
      split; [| apply Hengine; try reflexivity; lia].
      match goal with |- context [PlaybackEngine.readComment ?j ?x] =>
        destruct (readComment_frame j x) as (-> & _)
      end. reflexivity.
    + intros Hpos. unfold PlaybackEngine.previous.
      cbn [PlaybackEngine.setSynthesis PlaybackEngine.currentIndex PlaybackEngine.comments].
      destruct (Z.ltb_spec 0 (PlaybackEngine.currentIndex e)); [| lia].
      cbn [PlaybackEngine.setCurrentIndex PlaybackEngine.currentIndex].
      split; [| apply Hengine; try reflexivity; lia].
      match goal with |- context [PlaybackEngine.readComment ?j ?x] =>
        destruct (readComment_frame j x) as (-> & _)
      end. reflexivity.
Qed.

Lemma next_previous_at_boundaries_witness :
  (0 <= Content.currentIndex samplePlaying
     < Z.of_nat (length (Content.allContent samplePlaying)))%Z
  /\ Content.currentIndex samplePlaying = 0%Z
  /\ readableAt samplePlaying 0 = true
  /\ Speech.paused (Content.synthesis samplePlaying) = false
  /\ Content.currentIndex (Content.onMessage Content.previous samplePlaying) = 0%Z
  /\ beginsSpeaking samplePlaying 0 (Content.onMessage Content.previous samplePlaying).
Proof.
  assert (H1 : (0 <= Content.currentIndex samplePlaying
                  < Z.of_nat (length (Content.allContent samplePlaying)))%Z)
    by (vm_compute; split; [discriminate | reflexivity]).
  assert (H2 : Content.currentIndex samplePlaying = 0%Z) by (vm_compute; reflexivity).
  assert (H3 : readableAt samplePlaying 0 = true) by (vm_compute; reflexivity).
  assert (H4 : Speech.paused (Content.synthesis samplePlaying) = false)
    by (vm_compute; reflexivity).
  split; [exact H1 | split; [exact H2 | split; [exact H3 | split; [exact H4 |]]]].
  destruct (proj1 (proj1 next_previous_at_boundaries samplePlaying H1) H2) as [Hc Hq].
  split; [exact Hc |].
  exact (proj2 (proj2 (Hq H3)) H4).
Defined.

(** C3, as stated, fails on the playback engine: with two comments and the
    cursor on the last one, [next()] puts the cursor back to 0. *)
Lemma engine_next_at_last_rewinds :
  length (PlaybackEngine.comments sampleEngineAtLast) = 2%nat
  /\ PlaybackEngine.currentIndex sampleEngineAtLast = 1%Z
  /\ PlaybackEngine.currentIndex (PlaybackEngine.next sampleEngineAtLast) = 0%Z
  /\ PlaybackEngine.currentIndex (PlaybackEngine.next sampleEngineAtLast)
     <> PlaybackEngine.currentIndex sampleEngineAtLast.
Proof. vm_compute. repeat split. discriminate. Qed.


(** ** The link stripper *)

Lemma append_nil s : EmptyString +:+ s = s.
Proof. reflexivity. Qed.

Lemma append_cons c w s : String c w +:+ s = String c (w +:+ s).
Proof. reflexivity. Qed.

Lemma append_length w s : String.length (w +:+ s) = (String.length w + String.length s)%nat.
Proof.
  induction w as [|c w IH]; [reflexivity |].
  rewrite append_cons. cbn [String.length]. rewrite IH. reflexivity.
Qed.

Lemma append_assoc a b c : (a +:+ b) +:+ c = a +:+ (b +:+ c).
Proof.
  induction a as [|x a IH]; [reflexivity |].
  rewrite !append_cons, IH. reflexivity.
Qed.

Lemma span_append p s : s = fst (span p s) +:+ snd (span p s).
Proof.
  induction s as [|c r IH]; [reflexivity |].
  cbn [span]. destruct (p c); cbn [fst snd]; [| reflexivity].
  change (String c r = String c (fst (span p r) +:+ snd (span p r))).
  f_equal. exact IH.
Qed.

Lemma span_allOf p s : allOf p (fst (span p s)) = true.
Proof.
  induction s as [|c r IH]; [reflexivity |].
  cbn [span]. destruct (p c) eqn:E; cbn [fst allOf]; [| reflexivity].
  rewrite E, IH. reflexivity.
Qed.

Lemma span_stopsAt p s : stopsAt p (snd (span p s)) = true.
Proof.
  induction s as [|c r IH]; [reflexivity |].
  cbn [span]. destruct (p c) eqn:E; cbn [snd stopsAt]; [exact IH |].
  rewrite E. reflexivity.
Qed.

(** The prefix in the class and the stop after it determine the span. *)
Lemma span_unique p w rest :
  allOf p w = true -> stopsAt p rest = true -> span p (w +:+ rest) = (w, rest).
Proof.
  intros Hw Hrest. induction w as [|c w IH]; rewrite ?append_cons, ?append_nil.
  - destruct rest as [|c r]; [reflexivity |].
    cbn [span]. cbn [stopsAt] in Hrest.
    destruct (p c); [discriminate | reflexivity].
  - cbn [allOf] in Hw. apply andb_true_iff in Hw as [Hc Hw].
    cbn [span]. rewrite Hc, (IH Hw). reflexivity.
Qed.

Lemma more_span p k b s n g :
  blockedBy p k \/ total k ->
  Regex.more p k b s n g =
  k (Regex.mkPosition (lastOf b (fst (span p s))) (snd (span p s))
       (n + String.length (fst (span p s))) g).
Proof.
  intros Hk. revert b n. induction s as [|c r IH]; intros b n.
  - cbn. rewrite Nat.add_0_r. reflexivity.
  - cbn [Regex.more span]. destruct (p c) eqn:E; cbn [fst snd lastOf String.length].
    + rewrite IH. rewrite <- Nat.add_succ_comm.
      destruct (k _) as [m|] eqn:K; [reflexivity |].
      destruct Hk as [Hk | Hk]; [apply Hk, E | exfalso; eapply Hk, K].
    + rewrite Nat.add_0_r. reflexivity.
Qed.

Lemma run_Plus_span p k x :
  blockedBy p k \/ total k ->
  Regex.run (Regex.Plus p) k x =
  match fst (span p (Regex.input x)) with
  | EmptyString => None
  | w =>
      k (Regex.mkPosition (lastOf (Regex.before x) w) (snd (span p (Regex.input x)))
           (Regex.offset x + String.length w) (Regex.group1 x))
  end.
Proof.
  intros Hk. cbn [Regex.run].
  destruct (Regex.input x) as [|a s]; [reflexivity |].
  cbn [span]. destruct (p a); cbn [fst snd]; [| reflexivity].
  rewrite more_span by exact Hk.
  cbn [lastOf String.length]. rewrite <- Nat.add_succ_comm. reflexivity.
Qed.


Lemma run_Str_strip w k x :
  Regex.run (Regex.Str w) k x =
  match stripPrefix w (Regex.input x) with
  | Some rest =>
      k (Regex.mkPosition (lastOf (Regex.before x) w) rest
           (Regex.offset x + String.length w) (Regex.group1 x))
  | None => None
  end.
Proof.
  revert x. induction w as [|c w IH]; intros x.
  - cbn. rewrite Nat.add_0_r. destruct x; reflexivity.
  - cbn [Regex.Str Regex.run stripPrefix].
    destruct (Regex.input x) as [|a s]; [reflexivity |].
    destruct (Ascii.eqb_spec a c) as [-> |]; [| reflexivity].
    rewrite IH. cbn [Regex.input Regex.before Regex.offset Regex.group1 lastOf String.length].
    rewrite <- Nat.add_succ_comm. reflexivity.
Qed.

Lemma stripPrefix_spec w s rest : stripPrefix w s = Some rest <-> s = w +:+ rest.
Proof.
  revert s. induction w as [|c w IH]; intros s; cbn [stripPrefix];
    rewrite ?append_cons, ?append_nil.
  - split; [intros [= ->]; reflexivity | intros ->; reflexivity].
  - destruct s as [|a s]; [split; discriminate |].
    destruct (Ascii.eqb_spec a c) as [-> | Hne].
    + rewrite IH. split; [intros ->; reflexivity | intros [= ->]; reflexivity].
    + split; [discriminate | intros [= -> _]; congruence].
Qed.

Lemma stripPrefix_cons c w s :
  stripPrefix (String c w) s =
  match stripPrefix (String c EmptyString) s with
  | Some r => stripPrefix w r
  | None => None
  end.
Proof.
  cbn [stripPrefix]. destruct s as [|a s]; [reflexivity |].
  destruct (Ascii.eqb a c); reflexivity.
Qed.

Lemma substring_prefix w r : substring 0 (String.length w) (w +:+ r) = w.
Proof.
  induction w as [|c w IH]; rewrite ?append_cons, ?append_nil; cbn [String.length substring].
  - destruct r; reflexivity.
  - rewrite IH. reflexivity.
Qed.

Lemma run_Lit_strip c k x :
  Regex.run (Regex.Lit c) k x =
  match stripPrefix (String c EmptyString) (Regex.input x) with
  | Some rest =>
      k (Regex.mkPosition (Some c) rest (Regex.offset x + 1) (Regex.group1 x))
  | None => None
  end.
Proof.
  cbn [Regex.run stripPrefix].
  destruct (Regex.input x) as [|a s]; [reflexivity |].
  destruct (Ascii.eqb_spec a c) as [-> |]; [| reflexivity].
  rewrite Nat.add_1_r. reflexivity.
Qed.

Lemma blockedBy_Lit p c r k :
  p c = false -> blockedBy p (Regex.run (Regex.Seq (Regex.Lit c) r) k).
Proof.
  intros Hc b a s n g Ha. cbn.
  destruct (Ascii.eqb_spec a c) as [-> |]; [congruence | reflexivity].
Qed.

Lemma total_Some : total (Regex.run Regex.Empty Some).
Proof. intros x. discriminate. Qed.

Lemma exec_markdownLink b s :
  Regex.exec Content.markdownLink b s =
  match markdownAt s with
  | Some (label, url, rest) =>
      Some (Regex.mkPosition (Some ")"%char) rest
              (String.length label + String.length url + 4) (Some label))
  | None => None
  end.
Proof.
  unfold Regex.exec, Content.markdownLink, markdownAt. cbn [Regex.cat].
  change (Regex.run (Regex.Seq ?r1 ?r2) ?k ?x) with (Regex.run r1 (Regex.run r2 k) x).
  rewrite run_Lit_strip. cbn [Regex.input Regex.offset Regex.group1].
  destruct (stripPrefix "[" s) as [s1|]; [| reflexivity].
  change (Regex.run (Regex.Seq ?r1 ?r2) ?k ?x) with (Regex.run r1 (Regex.run r2 k) x).
  change (Regex.run (Regex.Group ?r) ?k ?x) with
    (Regex.run r (fun y =>
       k (Regex.mkPosition (Regex.before y) (Regex.input y) (Regex.offset y)
            (Some (substring 0 (Regex.offset y - Regex.offset x) (Regex.input x))))) x).
  rewrite run_Plus_span.
  2:{ left. intros b' c' s' n g Hc. cbn.
      unfold Regex.notChar in Hc.
      destruct (Ascii.eqb_spec c' "]") as [-> |]; [discriminate | reflexivity]. }
  cbn [Regex.input Regex.offset Regex.group1 Regex.before].
  pose proof (span_append (Regex.notChar "]") s1) as Hs1.
  destruct (fst (span (Regex.notChar "]") s1)) as [|c l] eqn:Elabel; [reflexivity |].
  set (label := String c l) in *.
  replace (0 + 1 + String.length label - (0 + 1))%nat with (String.length label) by lia.
  assert (Hsub : substring 0 (String.length label) s1 = label)
    by (rewrite Hs1; apply substring_prefix).
  rewrite Hsub. clear Hsub Hs1.
  change (Regex.run (Regex.Seq ?r1 ?r2) ?k ?x) with (Regex.run r1 (Regex.run r2 k) x).
  rewrite run_Lit_strip. cbn [Regex.input Regex.offset Regex.group1 Regex.before].
  rewrite (stripPrefix_cons "]" "(").
  destruct (stripPrefix "]" (snd (span (Regex.notChar "]") s1))) as [s1'|]; [| reflexivity].
  change (Regex.run (Regex.Seq ?r1 ?r2) ?k ?x) with (Regex.run r1 (Regex.run r2 k) x).
  rewrite run_Lit_strip. cbn [Regex.input Regex.offset Regex.group1 Regex.before].
  destruct (stripPrefix "(" s1') as [s2|]; [| reflexivity].
  change (Regex.run (Regex.Seq ?r1 ?r2) ?k ?x) with (Regex.run r1 (Regex.run r2 k) x).
  rewrite run_Plus_span.
  2:{ left. apply blockedBy_Lit. reflexivity. }
  cbn [Regex.input Regex.offset Regex.group1 Regex.before].
  destruct (fst (span (Regex.notChar ")") s2)) as [|d u] eqn:Eurl; [reflexivity |].
  set (url := String d u) in *.
  change (Regex.run (Regex.Seq ?r1 ?r2) ?k ?x) with (Regex.run r1 (Regex.run r2 k) x).
  rewrite run_Lit_strip. cbn [Regex.input Regex.offset Regex.group1 Regex.before].
  destruct (stripPrefix ")" (snd (span (Regex.notChar ")") s2))) as [rest|]; [| reflexivity].
  cbn [Regex.run]. f_equal. f_equal. lia.
Qed.

Lemma stripPrefix_app w1 w2 s :
  stripPrefix (w1 +:+ w2) s =
  match stripPrefix w1 s with
  | Some r => stripPrefix w2 r
  | None => None
  end.
Proof.
  revert s. induction w1 as [|c w1 IH]; intros s; rewrite ?append_cons, ?append_nil.
  - reflexivity.
  - cbn [stripPrefix]. destruct s as [|a s]; [reflexivity |].
    destruct (Ascii.eqb a c); [apply IH | reflexivity].
Qed.

Lemma lastOf_app b w u : lastOf b (w +:+ u) = lastOf (lastOf b w) u.
Proof.
  revert b. induction w as [|c w IH]; intros b; rewrite ?append_cons, ?append_nil;
    [reflexivity | apply IH].
Qed.

Lemma run_Opt c k x :
  Regex.run (Regex.Opt c) k x =
  match stripPrefix (String c EmptyString) (Regex.input x) with
  | Some rest =>
      match k (Regex.mkPosition (Some c) rest (Regex.offset x + 1) (Regex.group1 x)) with
      | Some m => Some m
      | None => k x
      end
  | None => k x
  end.
Proof.
  cbn [Regex.run stripPrefix].
  destruct (Regex.input x) as [|a s]; [reflexivity |].
  destruct (Ascii.eqb_spec a c) as [-> |]; [| reflexivity].
  rewrite Nat.add_1_r. reflexivity.
Qed.

Lemma run_Boundary k x :
  Regex.run Regex.Boundary k x =
  if xorb (Regex.wordBefore x) (Regex.wordAfter x) then k x else None.
Proof. reflexivity. Qed.

(** A word and then a greedy class that ends the pattern. *)
Lemma run_Str_Plus w p x :
  Regex.run (Regex.Seq (Regex.Str w) (Regex.Seq (Regex.Plus p) Regex.Empty)) Some x =
  match runAfter w p (Regex.input x) with
  | Some (u, rest) =>
      Some (Regex.mkPosition (lastOf (Regex.before x) (w +:+ u)) rest
              (Regex.offset x + String.length (w +:+ u)) (Regex.group1 x))
  | None => None
  end.
Proof.
  change (Regex.run (Regex.Seq ?r1 ?r2) ?k ?y) with (Regex.run r1 (Regex.run r2 k) y).
  rewrite run_Str_strip. unfold runAfter.
  destruct (stripPrefix w (Regex.input x)) as [s1|]; [| reflexivity].
  change (Regex.run (Regex.Seq ?r1 ?r2) ?k ?y) with (Regex.run r1 (Regex.run r2 k) y).
  rewrite run_Plus_span by (right; apply total_Some).
  cbn [Regex.input Regex.offset Regex.group1 Regex.before].
  destruct (fst (span p s1)) as [|c r]; [reflexivity |].
  cbn [Regex.run]. rewrite lastOf_app, append_length, Nat.add_assoc. reflexivity.
Qed.

(** *** White space *)

Ltac bools :=
  repeat match goal with
         | H : _ && _ = true |- _ => apply andb_true_iff in H; destruct H
         | H : _ || _ = true |- _ => apply orb_true_iff in H; destruct H
         | H : (_ =? _)%nat = true |- _ => apply Nat.eqb_eq in H
         | H : (_ <=? _)%nat = true |- _ => apply Nat.leb_le in H
         end.

Lemma isSpace_code a :
  JS.isSpace a = true -> (nat_of_ascii a <= 32)%nat.
Proof. unfold JS.isSpace. cbv zeta. intros H. bools; lia. Qed.

Lemma isSpace2_code a b :
  JS.isSpace2 a b = true -> nat_of_ascii a = 194%nat /\ nat_of_ascii b = 160%nat.
Proof. unfold JS.isSpace2. intros H. bools. split; assumption. Qed.

Lemma isSpace3_code a b c :
  JS.isSpace3 a b c = true ->
  (225 <= nat_of_ascii a)%nat
  /\ (128 <= nat_of_ascii b <= 191)%nat /\ (128 <= nat_of_ascii c <= 191)%nat.
Proof. unfold JS.isSpace3. cbv zeta. intros H. bools; lia. Qed.

(** A white-space character begins with a byte of ASCII or with a byte
    from 194 on; its other bytes are between 128 and 191. *)
Lemma spaceWidth_head a r :
  JS.spaceWidth (String a r) <> 0%nat -> (nat_of_ascii a <= 32 \/ 194 <= nat_of_ascii a)%nat.
Proof.
  cbn [JS.spaceWidth].
  destruct (JS.isSpace a) eqn:E1; [intros _; apply isSpace_code in E1; lia |].
  destruct r as [|b r]; [congruence |].
  destruct (JS.isSpace2 a b) eqn:E2; [intros _; apply isSpace2_code in E2; lia |].
  destruct r as [|c r]; [congruence |].
  destruct (JS.isSpace3 a b c) eqn:E3; [intros _; apply isSpace3_code in E3; lia | congruence].
Qed.

Lemma spaceWidth_0_head a r : JS.spaceWidth (String a r) = 0%nat -> JS.isSpace a = false.
Proof. cbn [JS.spaceWidth]. destruct (JS.isSpace a); [discriminate | reflexivity]. Qed.

Lemma spaceWidth_0_head2 a b r :
  JS.spaceWidth (String a (String b r)) = 0%nat ->
  JS.isSpace a = false /\ JS.isSpace2 a b = false.
Proof.
  cbn [JS.spaceWidth]. destruct (JS.isSpace a); [discriminate |].
  destruct (JS.isSpace2 a b); [discriminate | split; reflexivity].
Qed.

Lemma spaceWidth_le s : (JS.spaceWidth s <= String.length s)%nat.
Proof.
  destruct s as [|a [|b [|c s]]]; cbn [JS.spaceWidth String.length]; [lia | ..].
  - destruct (JS.isSpace a); lia.
  - destruct (JS.isSpace a); [lia |]. destruct (JS.isSpace2 a b); lia.
  - destruct (JS.isSpace a); [lia |]. destruct (JS.isSpace2 a b); [lia |].
    destruct (JS.isSpace3 a b c); lia.
Qed.

(** The bytes of a white-space character decide its width. *)
Lemma spaceWidth_app s t :
  JS.spaceWidth s <> 0%nat -> JS.spaceWidth (s +:+ t) = JS.spaceWidth s.
Proof.
  destruct s as [|a [|b [|c s]]]; rewrite ?append_cons, ?append_nil;
    cbn [JS.spaceWidth]; [congruence | ..].
  - destruct (JS.isSpace a); [reflexivity | congruence].
  - destruct (JS.isSpace a); [reflexivity |].
    destruct (JS.isSpace2 a b); [reflexivity | congruence].
  - reflexivity.
Qed.

Lemma spaceWidth_prefix p t :
  (JS.spaceWidth (p +:+ t) <= String.length p)%nat ->
  JS.spaceWidth p = JS.spaceWidth (p +:+ t).
Proof.
  destruct p as [|a [|b [|c p]]]; rewrite ?append_cons, ?append_nil;
    cbn [JS.spaceWidth String.length].
  - intros H. destruct t; cbn [JS.spaceWidth] in *; lia.
  - destruct (JS.isSpace a); [reflexivity |].
    destruct t as [|b [|c t]]; [reflexivity | ..].
    + destruct (JS.isSpace2 a b); [lia | reflexivity].
    + destruct (JS.isSpace2 a b); [lia |]. destruct (JS.isSpace3 a b c); [lia | reflexivity].
  - destruct (JS.isSpace a); [reflexivity |].
    destruct (JS.isSpace2 a b); [reflexivity |].
    destruct t as [|c t]; [reflexivity |].
    destruct (JS.isSpace3 a b c); [lia | reflexivity].
  - reflexivity.
Qed.

Lemma append_nil_r s : s +:+ EmptyString = s.
Proof. induction s as [|c s IH]; [reflexivity |]. rewrite append_cons, IH. reflexivity. Qed.

(** No white-space character begins in a text and ends in a text that
    begins with one. *)
Lemma spaceWidth_straddle x rest :
  x <> EmptyString -> JS.spaceWidth x = 0%nat -> atSpace rest = true ->
  JS.spaceWidth (x +:+ rest) = 0%nat.
Proof.
  intros Hx H0 Hrest.
  destruct rest as [|e rest]; [rewrite append_nil_r; exact H0 |].
  cbn [atSpace] in Hrest. apply negb_true_iff, Nat.eqb_neq in Hrest.
  apply spaceWidth_head in Hrest.
  destruct x as [|a [|b [|c x]]]; [congruence | ..];
    rewrite ?append_cons, ?append_nil.
  - apply spaceWidth_0_head in H0. cbn [JS.spaceWidth]. rewrite H0.
    destruct (JS.isSpace2 a e) eqn:E2; [apply isSpace2_code in E2; lia |].
    destruct rest as [|f rest]; [reflexivity |].
    destruct (JS.isSpace3 a e f) eqn:E3; [apply isSpace3_code in E3; lia | reflexivity].
  - apply spaceWidth_0_head2 in H0 as [Ha Hb]. cbn [JS.spaceWidth]. rewrite Ha, Hb.
    destruct (JS.isSpace3 a b e) eqn:E3; [apply isSpace3_code in E3; lia | reflexivity].
  - exact H0.
Qed.

(** A space is not a byte of a longer white-space character. *)
Lemma spaceWidth_before_space a x :
  JS.isSpace a = false -> JS.spaceWidth (String a (String " " x)) = 0%nat.
Proof.
  intros Ha. cbn [JS.spaceWidth]. rewrite Ha.
  destruct (JS.isSpace2 a " ") eqn:E2; [apply isSpace2_code in E2 as [_ E2]; discriminate E2 |].
  destruct x as [|c x]; [reflexivity |].
  destruct (JS.isSpace3 a " " c) eqn:E3; [| reflexivity].
  apply isSpace3_code in E3 as (_ & E3 & _).
  change (nat_of_ascii " ") with 32%nat in E3. lia.
Qed.

Lemma spaceWidth_before_space2 a b x :
  JS.isSpace a = false -> JS.isSpace2 a b = false ->
  JS.spaceWidth (String a (String b (String " " x))) = 0%nat.
Proof.
  intros Ha Hb. cbn [JS.spaceWidth]. rewrite Ha, Hb.
  destruct (JS.isSpace3 a b " ") eqn:E3; [| reflexivity].
  apply isSpace3_code in E3 as (_ & _ & E3).
  change (nat_of_ascii " ") with 32%nat in E3. lia.
Qed.

(** *** Classes told by their width *)

Lemma spanWide_append w skip s :
  s = fst (spanWide w skip s) +:+ snd (spanWide w skip s).
Proof.
  revert skip. induction s as [|c r IH]; intros skip; [reflexivity |].
  cbn [spanWide]. destruct skip as [|j].
  - destruct (w (String c r)) as [|j]; cbn [fst snd]; [reflexivity |].
    rewrite append_cons. f_equal. apply IH.
  - cbn [fst snd]. rewrite append_cons. f_equal. apply IH.
Qed.

Lemma spanWide_length w skip s :
  (skip <= String.length s)%nat ->
  (skip <= String.length (fst (spanWide w skip s)))%nat.
Proof.
  revert skip. induction s as [|c r IH]; intros skip H; cbn [String.length] in H.
  - cbn. lia.
  - destruct skip as [|j]; [lia |].
    cbn [spanWide fst String.length]. specialize (IH j). lia.
Qed.

Lemma moreWide_span w k skip b s n g :
  total k -> (forall t, w t <= String.length t)%nat -> (skip <= String.length s)%nat ->
  Regex.moreWide w k skip b s n g =
  k (Regex.mkPosition (lastOf b (fst (spanWide w skip s))) (snd (spanWide w skip s))
       (n + String.length (fst (spanWide w skip s))) g).
Proof.
  intros Hk Hw. revert skip b n.
  induction s as [|c r IH]; intros skip b n Hskip; cbn [String.length] in Hskip.
  - replace skip with 0%nat by lia. cbn. rewrite Nat.add_0_r. reflexivity.
  - cbn [Regex.moreWide spanWide]. destruct skip as [|j].
    + pose proof (Hw (String c r)) as Hle. cbn [String.length] in Hle.
      destruct (w (String c r)) as [|j]; cbn [fst snd lastOf String.length].
      * rewrite Nat.add_0_r. reflexivity.
      * rewrite IH by lia. rewrite <- Nat.add_succ_comm.
        destruct (k _) as [m|] eqn:K; [reflexivity | exfalso; eapply Hk, K].
    + cbn [fst snd lastOf String.length].
      rewrite IH by lia. rewrite <- Nat.add_succ_comm. reflexivity.
Qed.

Lemma run_PlusWide_span w k x :
  total k -> (forall t, w t <= String.length t)%nat ->
  Regex.run (Regex.PlusWide w) k x =
  match fst (spanWide w 0 (Regex.input x)) with
  | EmptyString => None
  | u =>
      k (Regex.mkPosition (lastOf (Regex.before x) u) (snd (spanWide w 0 (Regex.input x)))
           (Regex.offset x + String.length u) (Regex.group1 x))
  end.
Proof.
  intros Hk Hw. cbn [Regex.run].
  destruct (Regex.input x) as [|a s]; [reflexivity |].
  cbn [spanWide]. pose proof (Hw (String a s)) as Hle. cbn [String.length] in Hle.
  destruct (w (String a s)) as [|j]; cbn [fst snd]; [reflexivity |].
  rewrite moreWide_span by (try assumption; lia).
  cbn [lastOf String.length]. rewrite <- Nat.add_succ_comm. reflexivity.
Qed.

Lemma space_le t : (Regex.space t <= String.length t)%nat.
Proof. apply spaceWidth_le. Qed.

Lemma notSpace_le t : (Regex.notSpace t <= String.length t)%nat.
Proof.
  destruct t as [|c t]; [reflexivity |].
  unfold Regex.notSpace. destruct (JS.spaceWidth _); cbn [String.length]; lia.
Qed.

(** A word and then a greedy class told by its width that ends the pattern. *)
Lemma run_Str_PlusWide word w x :
  (forall t, w t <= String.length t)%nat ->
  Regex.run (Regex.Seq (Regex.Str word) (Regex.Seq (Regex.PlusWide w) Regex.Empty)) Some x =
  match runAfterWide word w (Regex.input x) with
  | Some (u, rest) =>
      Some (Regex.mkPosition (lastOf (Regex.before x) (word +:+ u)) rest
              (Regex.offset x + String.length (word +:+ u)) (Regex.group1 x))
  | None => None
  end.
Proof.
  intros Hw.
  change (Regex.run (Regex.Seq ?r1 ?r2) ?k ?y) with (Regex.run r1 (Regex.run r2 k) y).
  rewrite run_Str_strip. unfold runAfterWide.
  destruct (stripPrefix word (Regex.input x)) as [s1|]; [| reflexivity].
  change (Regex.run (Regex.Seq ?r1 ?r2) ?k ?y) with (Regex.run r1 (Regex.run r2 k) y).
  rewrite run_PlusWide_span by (try exact Hw; apply total_Some).
  cbn [Regex.input Regex.offset Regex.group1 Regex.before].
  destruct (fst (spanWide w 0 s1)) as [|c r]; [reflexivity |].
  cbn [Regex.run]. rewrite lastOf_app, append_length, Nat.add_assoc. reflexivity.
Qed.

(** *** What is not white space *)

Lemma spanWide_notSpace s :
  spaceFree (fst (spanWide Regex.notSpace 0 s)) = true
  /\ atSpace (snd (spanWide Regex.notSpace 0 s)) = true.
Proof.
  induction s as [|c r IH]; [split; reflexivity |].
  cbn [spanWide]. change (Regex.notSpace (String c r))
    with (match JS.spaceWidth (String c r) with O => 1%nat | S _ => 0%nat end).
  destruct (JS.spaceWidth (String c r)) as [|j] eqn:E; cbn [fst snd].
  - destruct IH as [IH1 IH2]. split; [| exact IH2].
    cbn [spaceFree]. rewrite IH1, andb_true_r. apply Nat.eqb_eq.
    destruct (Nat.eq_dec (JS.spaceWidth (String c (fst (spanWide Regex.notSpace 0 r)))) 0)
      as [H0 | Hn]; [exact H0 |].
    apply (spaceWidth_app _ (snd (spanWide Regex.notSpace 0 r))) in Hn.
    rewrite append_cons, <- spanWide_append in Hn. congruence.
  - split; [reflexivity |]. cbn [atSpace]. rewrite E. reflexivity.
Qed.

Lemma spanWide_notSpace_unique u rest :
  spaceFree u = true -> atSpace rest = true ->
  spanWide Regex.notSpace 0 (u +:+ rest) = (u, rest).
Proof.
  intros Hu Hrest. induction u as [|c u IH]; rewrite ?append_cons, ?append_nil.
  - destruct rest as [|e rest]; [reflexivity |].
    cbn [spanWide]. change (Regex.notSpace (String e rest))
      with (match JS.spaceWidth (String e rest) with O => 1%nat | S _ => 0%nat end).
    cbn [atSpace] in Hrest. apply negb_true_iff, Nat.eqb_neq in Hrest.
    destruct (JS.spaceWidth (String e rest)); [congruence | reflexivity].
  - cbn [spaceFree] in Hu. apply andb_true_iff in Hu as [Hc Hu]. apply Nat.eqb_eq in Hc.
    cbn [spanWide]. change (Regex.notSpace (String c (u +:+ rest)))
      with (match JS.spaceWidth (String c (u +:+ rest)) with O => 1%nat | S _ => 0%nat end).
    rewrite <- append_cons, (spaceWidth_straddle (String c u) rest) by
      (try discriminate; assumption).
    rewrite (IH Hu). reflexivity.
Qed.

Lemma runAfterWide_notSpace_spec word s u rest :
  runAfterWide word Regex.notSpace s = Some (u, rest) <->
  s = word +:+ u +:+ rest /\ u <> EmptyString
  /\ spaceFree u = true /\ atSpace rest = true.
Proof.
  unfold runAfterWide. split.
  - destruct (stripPrefix word s) as [s1|] eqn:E1; [| discriminate].
    apply stripPrefix_spec in E1.
    pose proof (spanWide_append Regex.notSpace 0 s1) as Ha.
    pose proof (spanWide_notSpace s1) as [Hp Hs].
    destruct (fst (spanWide Regex.notSpace 0 s1)) as [|c r]; [discriminate |].
    intros [= <- <-]. rewrite <- Ha.
    repeat split; [exact E1 | discriminate | exact Hp | exact Hs].
  - intros (-> & Hu & Hp & Hs).
    rewrite (proj2 (stripPrefix_spec word _ (u +:+ rest)) eq_refl).
    rewrite (spanWide_notSpace_unique u rest Hp Hs). cbn [fst snd].
    destruct u; [congruence | reflexivity].
Qed.

(** *** What is white space *)

Lemma spanWide_space skip s :
  (skip <= String.length s)%nat ->
  whiteOnly skip (fst (spanWide Regex.space skip s)) = true
  /\ JS.spaceWidth (snd (spanWide Regex.space skip s)) = 0%nat.
Proof.
  unfold Regex.space.
  revert skip. induction s as [|c r IH]; intros skip Hskip; cbn [String.length] in Hskip.
  - replace skip with 0%nat by lia. split; reflexivity.
  - cbn [spanWide]. destruct skip as [|j].
    + destruct (JS.spaceWidth (String c r)) as [|j] eqn:E; cbn [fst snd];
        [split; [reflexivity | exact E] |].
      pose proof (spaceWidth_le (String c r)) as Hle. rewrite E in Hle.
      cbn [String.length] in Hle.
      destruct (IH j ltac:(lia)) as [IH1 IH2]. split; [| exact IH2].
      cbn [whiteOnly].
      assert (Hp : JS.spaceWidth (String c (fst (spanWide JS.spaceWidth j r))) = S j).
      { rewrite (spaceWidth_prefix _ (snd (spanWide JS.spaceWidth j r)));
          rewrite append_cons, <- spanWide_append; [exact E |].
        rewrite E. cbn [String.length].
        pose proof (spanWide_length JS.spaceWidth j r ltac:(lia)). lia. }
      rewrite Hp. exact IH1.
    + cbn [fst snd whiteOnly]. apply IH. lia.
Qed.

Lemma spanWide_space_unique skip u rest :
  (skip <= String.length u)%nat ->
  whiteOnly skip u = true -> JS.spaceWidth rest = 0%nat ->
  spanWide Regex.space skip (u +:+ rest) = (u, rest).
Proof.
  unfold Regex.space.
  intros Hskip Hu Hrest. revert skip Hskip Hu.
  induction u as [|c u IH]; intros skip Hskip Hu; cbn [String.length] in Hskip;
    rewrite ?append_cons, ?append_nil.
  - replace skip with 0%nat by lia.
    destruct rest as [|e rest]; [reflexivity |].
    cbn [spanWide]. rewrite Hrest. reflexivity.
  - cbn [spanWide whiteOnly] in *. destruct skip as [|j].
    + destruct (JS.spaceWidth (String c u)) as [|j] eqn:E; [discriminate |].
      rewrite <- append_cons, spaceWidth_app, E by congruence.
      pose proof (spaceWidth_le (String c u)) as Hle. rewrite E in Hle.
      cbn [String.length] in Hle.
      rewrite (IH j ltac:(lia) Hu). reflexivity.
    + rewrite (IH j ltac:(lia) Hu). reflexivity.
Qed.

Lemma whiteOnly_nonempty u :
  u <> EmptyString -> whiteOnly 0 u = true -> JS.spaceWidth u <> 0%nat.
Proof.
  destruct u as [|c u]; [congruence |]. intros _. cbn [whiteOnly].
  destruct (JS.spaceWidth (String c u)); [discriminate | congruence].
Qed.

Lemma runAfterWide_space_spec s u rest :
  runAfterWide EmptyString Regex.space s = Some (u, rest) <->
  s = u +:+ rest /\ u <> EmptyString
  /\ whiteOnly 0 u = true /\ JS.spaceWidth rest = 0%nat.
Proof.
  unfold runAfterWide. cbn [stripPrefix]. split.
  - pose proof (spanWide_append Regex.space 0 s) as Ha.
    pose proof (spanWide_space 0 s ltac:(lia)) as [Hp Hs].
    destruct (fst (spanWide Regex.space 0 s)) as [|c r]; [discriminate |].
    intros [= <- <-]. repeat split; [exact Ha | discriminate | exact Hp | exact Hs].
  - intros (-> & Hu & Hp & Hs).
    rewrite (spanWide_space_unique 0 u rest ltac:(lia) Hp Hs). cbn [fst snd].
    destruct u; [congruence | reflexivity].
Qed.

Lemma exec_wwwUrl b s :
  Regex.exec Content.wwwUrl b s =
  match runAfterWide "www." Regex.notSpace s with
  | Some (u, rest) =>
      Some (Regex.mkPosition (lastOf b ("www." +:+ u)) rest
              (String.length ("www." +:+ u)) None)
  | None => None
  end.
Proof.
  unfold Regex.exec, Content.wwwUrl. cbn [Regex.cat].
  apply run_Str_PlusWide, notSpace_le.
Qed.

Lemma exec_httpUrl b s :
  Regex.exec Content.httpUrl b s =
  match httpAt s with
  | Some (scheme, u, rest) =>
      Some (Regex.mkPosition (lastOf b (scheme +:+ u)) rest
              (String.length (scheme +:+ u)) None)
  | None => None
  end.
Proof.
  unfold Regex.exec, Content.httpUrl, httpAt. cbn [Regex.cat].
  change (Regex.run (Regex.Seq ?r1 ?r2) ?k ?y) with (Regex.run r1 (Regex.run r2 k) y).
  rewrite run_Str_strip. cbn [Regex.input Regex.offset Regex.group1 Regex.before].
  unfold runAfterWide at 1 2.
  change "https://" with ("http" +:+ ("s" +:+ "://")).
  change "http://" with ("http" +:+ "://").
  rewrite !stripPrefix_app.
  destruct (stripPrefix "http" s) as [s1|]; [| reflexivity].
  rewrite stripPrefix_app.
  change (Regex.run (Regex.Seq ?r1 ?r2) ?k ?y) with (Regex.run r1 (Regex.run r2 k) y).
  rewrite run_Opt.
  cbn [Regex.input Regex.offset Regex.group1 Regex.before].
  destruct (stripPrefix "s" s1) as [s1'|] eqn:Es;
    rewrite !run_Str_PlusWide by apply notSpace_le;
    cbn [Regex.input Regex.offset Regex.group1 Regex.before];
    unfold runAfterWide.
  - apply stripPrefix_spec in Es. subst s1.
    change (stripPrefix "://" ("s" +:+ s1')) with (@None string).
    destruct (stripPrefix "://" s1') as [s2|]; [| reflexivity].
    destruct (fst (spanWide Regex.notSpace 0 s2)) as [|c r]; reflexivity.
  - destruct (stripPrefix "://" s1) as [s2|]; [| reflexivity].
    destruct (fst (spanWide Regex.notSpace 0 s2)) as [|c r]; reflexivity.
Qed.

(** [\b], a word that begins with a word character, a greedy class. *)
Lemma exec_boundary c w p b s :
  JS.isWord c = true ->
  Regex.exec
    (Regex.Seq Regex.Boundary
       (Regex.Seq (Regex.Str (String c w)) (Regex.Seq (Regex.Plus p) Regex.Empty))) b s =
  if atWordStart b then
    match runAfter (String c w) p s with
    | Some (u, rest) =>
        Some (Regex.mkPosition (lastOf b (String c w +:+ u)) rest
                (String.length (String c w +:+ u)) None)
    | None => None
    end
  else None.
Proof.
  intros Hc. unfold Regex.exec.
  change (Regex.run (Regex.Seq ?r1 ?r2) ?k ?y) with (Regex.run r1 (Regex.run r2 k) y).
  rewrite run_Boundary, run_Str_Plus.
  cbn [Regex.input Regex.offset Regex.group1 Regex.before].
  unfold Regex.wordBefore, Regex.wordAfter, atWordStart, runAfter.
  cbn [Regex.input Regex.before stripPrefix].
  destruct s as [|a s].
  - destruct b as [b|]; [destruct (JS.isWord b) |]; reflexivity.
  - destruct (Ascii.eqb_spec a c) as [-> | Hne].
    + rewrite Hc. destruct b as [b|]; [destruct (JS.isWord b) |]; reflexivity.
    + destruct b as [b|]; [destruct (JS.isWord b) |]; destruct (JS.isWord a); reflexivity.
Qed.

Lemma exec_subredditLink b s :
  Regex.exec Content.subredditLink b s =
  if atWordStart b then
    match runAfter "r/" JS.isWord s with
    | Some (u, rest) =>
        Some (Regex.mkPosition (lastOf b ("r/" +:+ u)) rest
                (String.length ("r/" +:+ u)) None)
    | None => None
    end
  else None.
Proof. apply (exec_boundary "r" "/"). reflexivity. Qed.

Lemma exec_userMention b s :
  Regex.exec Content.userMention b s =
  if atWordStart b then
    match runAfter "u/" JS.isWord s with
    | Some (u, rest) =>
        Some (Regex.mkPosition (lastOf b ("u/" +:+ u)) rest
                (String.length ("u/" +:+ u)) None)
    | None => None
    end
  else None.
Proof. apply (exec_boundary "u" "/"). reflexivity. Qed.

Lemma exec_spaces b s :
  Regex.exec Content.spaces b s =
  match runAfterWide EmptyString Regex.space s with
  | Some (u, rest) => Some (Regex.mkPosition (lastOf b u) rest (String.length u) None)
  | None => None
  end.
Proof.
  unfold Regex.exec, Content.spaces, runAfterWide. cbn [stripPrefix].
  rewrite run_PlusWide_span by (try apply space_le; intros x; discriminate).
  cbn [Regex.input Regex.offset Regex.group1 Regex.before].
  destruct (fst (spanWide Regex.space 0 s)); reflexivity.
Qed.

Lemma runAfter_spec w p s u rest :
  runAfter w p s = Some (u, rest) <->
  s = w +:+ u +:+ rest /\ u <> EmptyString
  /\ allOf p u = true /\ stopsAt p rest = true.
Proof.
  unfold runAfter. split.
  - destruct (stripPrefix w s) as [s1|] eqn:E1; [| discriminate].
    apply stripPrefix_spec in E1.
    pose proof (span_append p s1) as Ha.
    pose proof (span_allOf p s1) as Hp.
    pose proof (span_stopsAt p s1) as Hs.
    destruct (fst (span p s1)) as [|c r]; [discriminate |].
    intros [= <- <-]. rewrite <- Ha. repeat split; [exact E1 | discriminate | exact Hp | exact Hs].
  - intros (-> & Hu & Hp & Hs).
    rewrite (proj2 (stripPrefix_spec w _ (u +:+ rest)) eq_refl).
    rewrite (span_unique p u rest Hp Hs). cbn [fst snd].
    destruct u; [congruence | reflexivity].
Qed.

Lemma httpAt_spec s scheme u rest :
  httpAt s = Some (scheme, u, rest) <->
  (scheme = "http://" \/ scheme = "https://")
  /\ s = scheme +:+ u +:+ rest /\ u <> EmptyString
  /\ spaceFree u = true /\ atSpace rest = true.
Proof.
  unfold httpAt. split.
  - destruct (runAfterWide "https://" Regex.notSpace s) as [[u' rest']|] eqn:E1.
    + intros [= <- <- <-]. apply runAfterWide_notSpace_spec in E1.
      split; [right; reflexivity | exact E1].
    + destruct (runAfterWide "http://" Regex.notSpace s) as [[u' rest']|] eqn:E2;
        [| discriminate].
      intros [= <- <- <-]. apply runAfterWide_notSpace_spec in E2.
      split; [left; reflexivity | exact E2].
  - intros ([-> | ->] & Hs & H).
    + assert (E1 : runAfterWide "https://" Regex.notSpace s = None)
        by (rewrite Hs; reflexivity).
      rewrite E1, (proj2 (runAfterWide_notSpace_spec "http://" s u rest) (conj Hs H)).
      reflexivity.
    + rewrite (proj2 (runAfterWide_notSpace_spec "https://" s u rest) (conj Hs H)).
      reflexivity.
Qed.

Lemma markdownAt_spec s label url rest :
  markdownAt s = Some (label, url, rest) <->
  s = "[" +:+ label +:+ "](" +:+ url +:+ ")" +:+ rest
  /\ label <> EmptyString /\ url <> EmptyString
  /\ allOf (Regex.notChar "]") label = true
  /\ allOf (Regex.notChar ")") url = true.
Proof.
  unfold markdownAt. split.
  - destruct (stripPrefix "[" s) as [s1|] eqn:E1; [| discriminate].
    apply stripPrefix_spec in E1.
    pose proof (span_append (Regex.notChar "]") s1) as Ha1.
    pose proof (span_allOf (Regex.notChar "]") s1) as Hp1.
    destruct (fst (span (Regex.notChar "]") s1)) as [|c l]; [discriminate |].
    destruct (stripPrefix "](" (snd (span (Regex.notChar "]") s1))) as [s2|] eqn:E2;
      [| discriminate].
    apply stripPrefix_spec in E2.
    pose proof (span_append (Regex.notChar ")") s2) as Ha2.
    pose proof (span_allOf (Regex.notChar ")") s2) as Hp2.
    destruct (fst (span (Regex.notChar ")") s2)) as [|d u]; [discriminate |].
    destruct (stripPrefix ")" (snd (span (Regex.notChar ")") s2))) as [rest'|] eqn:E3;
      [| discriminate].
    apply stripPrefix_spec in E3.
    intros [= <- <- <-].
    repeat split; [| discriminate | discriminate | exact Hp1 | exact Hp2].
    rewrite E1, Ha1, E2, Ha2, E3. reflexivity.
  - intros (-> & Hl & Hu & Hpl & Hpu).
    rewrite (proj2 (stripPrefix_spec "[" _ (label +:+ "](" +:+ url +:+ ")" +:+ rest)) eq_refl).
    rewrite (span_unique (Regex.notChar "]") label ("](" +:+ url +:+ ")" +:+ rest) Hpl eq_refl).
    cbn [fst snd].
    rewrite (proj2 (stripPrefix_spec "](" _ (url +:+ ")" +:+ rest)) eq_refl).
    rewrite (span_unique (Regex.notChar ")") url (")" +:+ rest) Hpu eq_refl).
    cbn [fst snd].
    rewrite (proj2 (stripPrefix_spec ")" _ rest) eq_refl).
    destruct label; [congruence |]. destruct url; [congruence |]. reflexivity.
Qed.

Lemma replaceFrom_skip r t b covered rest :
  Regex.replaceFrom r t b (String.length covered) (covered +:+ rest)
  = Regex.replaceFrom r t (lastOf b covered) 0 rest.
Proof.
  revert b. induction covered as [|c w IH]; intros b;
    rewrite ?append_cons, ?append_nil; cbn [String.length lastOf].
  - reflexivity.
  - cbn [Regex.replaceFrom]. apply IH.
Qed.

Lemma replaceFrom_Rewritten r t found :
  agrees r t found ->
  forall s b, Rewritten found b s (Regex.replaceFrom r t b 0 s).
Proof.
  intros Hagree s.
  remember (String.length s) as n eqn:Hn. revert s Hn.
  induction n as [n IH] using lt_wf_ind. intros s Hn b.
  pose proof (Hagree b s) as H.
  destruct (found b s) as [[[replacement covered] rest]|] eqn:Ef.
  - destruct H as (Hne & Hs & m & Hexec & Hoff & Ht).
    destruct covered as [|c w]; [congruence |].
    rewrite Hs at 2. rewrite append_cons. cbn [Regex.replaceFrom].
    rewrite <- append_cons, <- Hs, Hexec, Hoff. cbn [String.length].
    rewrite replaceFrom_skip, Ht.
    eapply rewritten_hit; [exact Ef |].
    cbn [lastOf]. eapply IH; [| reflexivity].
    subst n. rewrite Hs, append_length. cbn [String.length]. lia.
  - destruct s as [|c s].
    + cbn [Regex.replaceFrom]. rewrite H. apply rewritten_end, Ef.
    + cbn [Regex.replaceFrom]. rewrite H. apply rewritten_keep; [exact Ef |].
      eapply IH; [| reflexivity]. subst n. cbn [String.length]. lia.
Qed.

Lemma Rewritten_functional found b s out1 out2 :
  Rewritten found b s out1 -> Rewritten found b s out2 -> out1 = out2.
Proof.
  intros H1. revert out2.
  induction H1 as [b H | b c s out Hf H1 IH | b s replacement covered rest out Hf H1 IH];
    intros out2 H2; inversion H2; subst; try congruence.
  - f_equal. apply IH. assumption.
  - match goal with
    | [ Ha : found b s = Some _, Hb : found b s = Some _ |- _ ] =>
        rewrite Ha in Hb; injection Hb as -> -> ->
    end.
    f_equal. apply IH. assumption.
Qed.

Lemma agrees_markdown : agrees Content.markdownLink Regex.dollar1 markdownFound.
Proof.
  intros b s. unfold markdownFound. rewrite exec_markdownLink.
  destruct (markdownAt s) as [[[label url] rest]|] eqn:E; [| reflexivity].
  apply markdownAt_spec in E as (Hs & Hl & _).
  split; [discriminate | split; [rewrite Hs, !append_assoc; reflexivity |]].
  eexists. split; [reflexivity |]. cbn [Regex.offset Regex.group1 Regex.dollar1].
  split; [| reflexivity].
  change ("[" +:+ label +:+ "](" +:+ url +:+ ")")
    with (String "[" (label +:+ String "]" (String "(" (url +:+ ")")))).
  cbn [String.length]. rewrite append_length. cbn [String.length].
  rewrite append_length. cbn [String.length]. lia.
Qed.

Lemma agrees_http : agrees Content.httpUrl (Regex.text "") httpFound.
Proof.
  intros b s. unfold httpFound. rewrite exec_httpUrl.
  destruct (httpAt s) as [[[scheme u] rest]|] eqn:E; [| reflexivity].
  apply httpAt_spec in E as (Hscheme & Hs & _).
  split; [destruct Hscheme as [-> | ->]; discriminate |].
  split; [destruct Hscheme as [-> | ->]; rewrite Hs; reflexivity |].
  eexists. repeat split.
Qed.

Lemma agrees_www : agrees Content.wwwUrl (Regex.text "") wwwFound.
Proof.
  intros b s. unfold wwwFound. rewrite exec_wwwUrl.
  destruct (runAfterWide "www." Regex.notSpace s) as [[u rest]|] eqn:E; [| reflexivity].
  apply runAfterWide_notSpace_spec in E as (Hs & _).
  split; [discriminate | split; [rewrite Hs; reflexivity |]].
  eexists. repeat split.
Qed.

Lemma agrees_subreddit : agrees Content.subredditLink (Regex.text "") (mentionFound "r/").
Proof.
  intros b s. unfold mentionFound. rewrite exec_subredditLink.
  destruct (atWordStart b); [| reflexivity].
  destruct (runAfter "r/" JS.isWord s) as [[u rest]|] eqn:E; [| reflexivity].
  apply runAfter_spec in E as (Hs & _).
  split; [discriminate | split; [rewrite Hs; reflexivity |]].
  eexists. repeat split.
Qed.

Lemma agrees_user : agrees Content.userMention (Regex.text "") (mentionFound "u/").
Proof.
  intros b s. unfold mentionFound. rewrite exec_userMention.
  destruct (atWordStart b); [| reflexivity].
  destruct (runAfter "u/" JS.isWord s) as [[u rest]|] eqn:E; [| reflexivity].
  apply runAfter_spec in E as (Hs & _).
  split; [discriminate | split; [rewrite Hs; reflexivity |]].
  eexists. repeat split.
Qed.

Lemma agrees_spaces : agrees Content.spaces (Regex.text " ") spacesFound.
Proof.
  intros b s. unfold spacesFound. rewrite exec_spaces.
  destruct (runAfterWide EmptyString Regex.space s) as [[u rest]|] eqn:E; [| reflexivity].
  apply runAfterWide_space_spec in E as (Hs & Hu & _).
  split; [exact Hu | split; [exact Hs |]].
  eexists. repeat split.
Qed.

(** *** Single spaces and clean ends *)

Lemma spacesFound_none c s b :
  spacesFound b (String c s) = None -> JS.spaceWidth (String c s) = 0%nat.
Proof.
  unfold spacesFound, runAfterWide. cbn [stripPrefix spanWide].
  change (Regex.space (String c s)) with (JS.spaceWidth (String c s)).
  destruct (JS.spaceWidth (String c s)); [reflexivity | discriminate].
Qed.

(** After one or two bytes that begin no white-space character before
    [s], they begin none before [out] either: [out] begins as [s] does, as
    far as white space goes. *)
Lemma collapsed_singleSpaced b s out :
  Rewritten spacesFound b s out ->
  singleSpaced out = true
  /\ (JS.spaceWidth s = 0%nat -> JS.spaceWidth out = 0%nat)
  /\ (forall a, JS.spaceWidth (String a s) = 0%nat -> JS.spaceWidth (String a out) = 0%nat)
  /\ (forall a a', JS.spaceWidth (String a (String a' s)) = 0%nat ->
                   JS.spaceWidth (String a (String a' out)) = 0%nat).
Proof.
  induction 1 as [b Hf | b c s out Hf H IH | b s replacement covered rest out Hf H IH].
  - repeat split; intros; assumption.
  - apply spacesFound_none in Hf. destruct IH as (IH & I0 & I1 & I2).
    split; [cbn [singleSpaced]; rewrite (I1 c Hf), IH; reflexivity |].
    split; [intros _; exact (I1 c Hf) | split];
      [intros a; apply I2 | intros a a' Ha; exact Ha].
  - unfold spacesFound in Hf.
    destruct (runAfterWide EmptyString Regex.space s) as [[u rest']|] eqn:E; [| discriminate].
    injection Hf as E1 E2 E3. subst replacement covered rest'.
    apply runAfterWide_space_spec in E as (Hs & Hu & Hall & Hstop).
    destruct IH as (IH & I0 & _). rewrite append_cons, append_nil.
    pose proof (whiteOnly_nonempty u Hu Hall) as Hw.
    assert (Hhead : JS.spaceWidth s <> 0%nat) by (rewrite Hs, spaceWidth_app; assumption).
    split; [| split; [intros H0; congruence | split]].
    + cbn [singleSpaced]. change (JS.spaceWidth (String " " out)) with 1%nat.
      cbn iota. rewrite (I0 Hstop), IH. reflexivity.
    + intros a Ha. apply spaceWidth_before_space. eapply spaceWidth_0_head, Ha.
    + intros a a' Ha. apply spaceWidth_0_head2 in Ha as [Ha Ha'].
      apply spaceWidth_before_space2; assumption.
Qed.

Lemma singleSpaced_tail c r : singleSpaced (String c r) = true -> singleSpaced r = true.
Proof. cbn [singleSpaced]. intros H. apply andb_true_iff in H as [_ H]. exact H. Qed.

Lemma dropSpace_tidy skip s :
  singleSpaced s = true ->
  singleSpaced (JS.dropSpace skip s) = true /\ JS.spaceWidth (JS.dropSpace skip s) = 0%nat.
Proof.
  revert skip. induction s as [|c r IH]; intros skip H; [split; reflexivity |].
  pose proof (singleSpaced_tail c r H) as Hr.
  cbn [JS.dropSpace]. destruct skip as [|k]; [| apply IH, Hr].
  destruct (JS.spaceWidth (String c r)) as [|k] eqn:E; [| apply IH, Hr].
  split; [exact H | exact E].
Qed.

(** What [trimEnd] leaves begins as the text does, as far as white space
    goes. *)
Lemma trimEnd_head s :
  (JS.spaceWidth s = 0%nat -> JS.spaceWidth (JS.trimEnd s) = 0%nat)
  /\ (forall a, JS.spaceWidth (String a s) = 0%nat ->
                JS.spaceWidth (String a (JS.trimEnd s)) = 0%nat)
  /\ (forall a a', JS.spaceWidth (String a (String a' s)) = 0%nat ->
                   JS.spaceWidth (String a (String a' (JS.trimEnd s))) = 0%nat).
Proof.
  induction s as [|c r (I0 & I1 & I2)]; [repeat split; intros; assumption |].
  cbn [JS.trimEnd]. destruct (JS.trimStart (String c r)) as [|d t].
  - split; [reflexivity | split].
    + intros a Ha. apply spaceWidth_0_head in Ha. cbn [JS.spaceWidth]. rewrite Ha. reflexivity.
    + intros a a' Ha. apply spaceWidth_0_head2 in Ha as [Ha Ha'].
      cbn [JS.spaceWidth]. rewrite Ha, Ha'. reflexivity.
  - split; [apply I1 | split; [intros a; apply I2 | intros a a' Ha; exact Ha]].
Qed.

Lemma trimEnd_tidy s :
  singleSpaced s = true ->
  singleSpaced (JS.trimEnd s) = true /\ cleanEnd (JS.trimEnd s) = true.
Proof.
  induction s as [|c r IH]; [split; reflexivity |].
  intros H. pose proof (singleSpaced_tail c r H) as Hr.
  destruct (IH Hr) as [IH1 IH2].
  destruct (trimEnd_head r) as (I0 & I1 & _).
  cbn [JS.trimEnd]. destruct (JS.trimStart (String c r)) as [|d t] eqn:Et;
    [split; reflexivity |].
  cbn [singleSpaced cleanEnd]. rewrite IH1, IH2, !andb_true_r.
  cbn [singleSpaced] in H. apply andb_true_iff in H as [H _].
  destruct (JS.spaceWidth (String c (JS.trimEnd r))) as [|k] eqn:Ek; [split; reflexivity |].
  destruct (JS.spaceWidth (String c r)) as [|k'] eqn:Ek';
    [rewrite (I1 c Ek') in Ek; discriminate |].
  apply andb_true_iff in H as [Hc Hnext]. apply Nat.eqb_eq in Hnext.
  rewrite Hc, (I0 Hnext). split; [reflexivity |].
  apply Ascii.eqb_eq in Hc. subst c.
  apply negb_true_iff, Nat.eqb_neq. intros Hlen.
  change (JS.spaceWidth (String " " (JS.trimEnd r))) with 1%nat in Ek.
  injection Ek as <-. cbn [String.length] in Hlen.
  assert (Hnil : JS.trimEnd r = EmptyString)
    by (destruct (JS.trimEnd r); [reflexivity | cbn [String.length] in Hlen; lia]).
  assert (Hr0 : r = EmptyString).
  { destruct r as [|e r]; [reflexivity |]. exfalso.
    cbn [JS.trimEnd] in Hnil. unfold JS.trimStart in Hnil. cbn [JS.dropSpace] in Hnil.
    rewrite Hnext in Hnil. discriminate. }
  subst r. discriminate Et.
Qed.

(** The stripped text has single spaces only and no white space at either end. *)
Lemma removeLinks_tidy text :
  singleSpaced (Content.removeLinks text) = true
  /\ cleanStart (Content.removeLinks text) = true
  /\ cleanEnd (Content.removeLinks text) = true.
Proof.
  unfold Content.removeLinks, JS.trim, JS.trimStart at 1, cleanStart.
  match goal with |- context [JS.dropSpace 0 ?t] =>
    pose proof (replaceFrom_Rewritten _ _ _ agrees_spaces
                  (Regex.replaceAll Content.userMention (Regex.text "")
                     (Regex.replaceAll Content.subredditLink (Regex.text "")
                        (Regex.replaceAll Content.wwwUrl (Regex.text "")
                           (Regex.replaceAll Content.httpUrl (Regex.text "")
                              (Regex.replaceAll Content.markdownLink Regex.dollar1 text)))))
                  None) as H;
    apply collapsed_singleSpaced in H as [H _];
    apply (dropSpace_tidy 0) in H as [H1 H2];
    pose proof (trimEnd_tidy _ H1) as [H3 H4];
    pose proof (proj1 (trimEnd_head _) H2) as H5
  end.
  split; [exact H3 | split; [apply Nat.eqb_eq; exact H5 | exact H4]].
Qed.

(** C5. The link stripper replaces every markdown construct [[label](url)]
    by its label, then removes every bare [http://] or [https://] address,
    then every [www.] address, then every [r/name] and every [u/name] at
    the start of a word, then replaces every run of white space by one
    space and trims the result; a construct, an address, a mention and a
    run of white space are what [markdownAt], [httpAt], [runAfter] and
    [runAfterWide] describe, white space being that of the language, in
    ASCII and beyond; the result has single spaces only and no white space
    at either end; on "Check [this](http://x.com/y) out at
    https://example.com and r/funny, u/bob" the result is "Check this out
    at and ,", and a no-break space ends an address as a space does. *)
Theorem removeLinks_spec :
  (forall text : string,
     exists t1 t2 t3 t4 t5 t6 : string,
       Rewritten markdownFound None text t1
       /\ Rewritten httpFound None t1 t2
       /\ Rewritten wwwFound None t2 t3
       /\ Rewritten (mentionFound "r/") None t3 t4
       /\ Rewritten (mentionFound "u/") None t4 t5
       /\ Rewritten spacesFound None t5 t6
       /\ Content.removeLinks text = JS.trim t6)
  /\ (forall (found : finder) (b : option ascii) (s out1 out2 : string),
        Rewritten found b s out1 -> Rewritten found b s out2 -> out1 = out2)
  /\ (forall s label url rest : string,
        markdownAt s = Some (label, url, rest) <->
        s = "[" +:+ label +:+ "](" +:+ url +:+ ")" +:+ rest
        /\ label <> EmptyString /\ url <> EmptyString
        /\ allOf (Regex.notChar "]") label = true
        /\ allOf (Regex.notChar ")") url = true)
  /\ (forall s scheme u rest : string,
        httpAt s = Some (scheme, u, rest) <->
        (scheme = "http://" \/ scheme = "https://")
        /\ s = scheme +:+ u +:+ rest /\ u <> EmptyString
        /\ spaceFree u = true /\ atSpace rest = true)
  /\ (forall (w : string) (p : ascii -> bool) (s u rest : string),
        runAfter w p s = Some (u, rest) <->
        s = w +:+ u +:+ rest /\ u <> EmptyString
        /\ allOf p u = true /\ stopsAt p rest = true)
  /\ (forall word s u rest : string,
        runAfterWide word Regex.notSpace s = Some (u, rest) <->
        s = word +:+ u +:+ rest /\ u <> EmptyString
        /\ spaceFree u = true /\ atSpace rest = true)
  /\ (forall s u rest : string,
        runAfterWide EmptyString Regex.space s = Some (u, rest) <->
        s = u +:+ rest /\ u <> EmptyString
        /\ whiteOnly 0 u = true /\ JS.spaceWidth rest = 0%nat)
  /\ (forall text : string,
        singleSpaced (Content.removeLinks text) = true
        /\ cleanStart (Content.removeLinks text) = true
        /\ cleanEnd (Content.removeLinks text) = true)
  /\ Content.removeLinks
       "Check [this](http://x.com/y) out at https://example.com and r/funny, u/bob"
     = "Check this out at and ,"
  /\ Content.removeLinks ("https://x.y" +:+ String "194" (String "160" "kept")) = "kept".
Proof.
  split; [| split; [| split; [| split; [| split; [| split; [| split; [| split; [| split]]]]]]]].
  - intros text. unfold Content.removeLinks, Regex.replaceAll.
    do 6 eexists. repeat apply conj;
      [apply (replaceFrom_Rewritten _ _ _ agrees_markdown)
      | apply (replaceFrom_Rewritten _ _ _ agrees_http)
      | apply (replaceFrom_Rewritten _ _ _ agrees_www)
      | apply (replaceFrom_Rewritten _ _ _ agrees_subreddit)
      | apply (replaceFrom_Rewritten _ _ _ agrees_user)
      | apply (replaceFrom_Rewritten _ _ _ agrees_spaces)
      | reflexivity].
  - apply Rewritten_functional.
  - apply markdownAt_spec.
  - apply httpAt_spec.
  - apply runAfter_spec.
  - apply runAfterWide_notSpace_spec.
  - apply runAfterWide_space_spec.
  - apply removeLinks_tidy.
  - vm_compute. reflexivity.
  - vm_compute. reflexivity.
Qed.

Lemma removeLinks_spec_witness :
  Rewritten markdownFound None "[a](b)" "a"
  /\ Rewritten markdownFound None "[a](b)"
       (Regex.replaceAll Content.markdownLink Regex.dollar1 "[a](b)")
  /\ "a" = Regex.replaceAll Content.markdownLink Regex.dollar1 "[a](b)".
Proof.
  assert (H1 : Rewritten markdownFound None "[a](b)" "a").
  { apply (rewritten_hit markdownFound None "[a](b)" "a" "[a](b)" "" "");
      [reflexivity | apply rewritten_end; reflexivity]. }
  assert (H2 : Rewritten markdownFound None "[a](b)"
                 (Regex.replaceAll Content.markdownLink Regex.dollar1 "[a](b)")).
  { apply (rewritten_hit markdownFound None "[a](b)" "a" "[a](b)" "" "");
      [reflexivity | apply rewritten_end; reflexivity]. }
  split; [exact H1 | split; [exact H2 |]].
  exact (proj1 (proj2 removeLinks_spec) markdownFound None "[a](b)" _ _ H1 H2).
Defined.

(** * The rest of the scripts *)

(** ** The pool of voices *)

Lemma english_spec (lang : string) :
  JS.startsWith lang "en-" || String.eqb lang "en" = true <-> isEnglish lang.
Proof.
  unfold isEnglish. rewrite orb_true_iff, startsWith_spec, String.eqb_eq. reflexivity.
Qed.

Lemma filter_nil_iff {A : Type} (p : A -> bool) (l : list A) :
  List.filter p l = [] <-> forall x, In x l -> p x = false.
Proof.
  induction l as [|a l IH]; cbn [List.filter].
  - split; [intros _ x [] | reflexivity].
  - destruct (p a) eqn:E.
    + split; [discriminate |]. intros H. specialize (H a (or_introl eq_refl)). congruence.
    + rewrite IH. split.
      * intros H x [<- | Hx]; [exact E | apply H, Hx].
      * intros H x Hx. apply H. right. exact Hx.
Qed.

Lemma filter_sublist {A : Type} (p : A -> bool) (l : list A) : sublist (List.filter p l) l.
Proof.
  induction l as [|a l IH]; cbn [List.filter]; [constructor |].
  destruct (p a); [apply sublist_skip | apply sublist_cons]; exact IH.
Qed.

(** X1. [filterVoicesByLocale] stores the locale and does not use it for the
    pool: whatever the locale, the pool is made of the voices of the browser
    whose language is [en] or begins with [en-], in their order, or of all
    the voices when none is English; it is empty only when the browser has
    no voice. *)
Theorem voice_pool_ignores_locale :
  forall (locale : string) (s : Content.State),
    let s' := Content.filterVoicesByLocale locale s in
    Content.voiceLocale s' = locale
    /\ Content.availableVoices s' = Content.availableVoices s
    /\ (forall locale' : string,
          Content.filteredVoices (Content.filterVoicesByLocale locale' s)
          = Content.filteredVoices s')
    /\ sublist (Content.filteredVoices s') (Content.availableVoices s)
    /\ ((exists v, In v (Content.availableVoices s) /\ isEnglish (Speech.voiceLang v)) ->
        forall v, In v (Content.filteredVoices s')
                  <-> In v (Content.availableVoices s) /\ isEnglish (Speech.voiceLang v))
    /\ ((forall v, In v (Content.availableVoices s) -> ~ isEnglish (Speech.voiceLang v)) ->
        Content.filteredVoices s' = Content.availableVoices s)
    /\ (Content.filteredVoices s' = [] <-> Content.availableVoices s = []).
Proof.
  intros locale s s'. subst s'. unfold Content.filterVoicesByLocale.
  cbn [Content.setVoices Content.voiceLocale Content.availableVoices Content.filteredVoices].
  set (english := List.filter _ (Content.availableVoices s)).
  assert (Hin : forall v, In v english
                          <-> In v (Content.availableVoices s) /\ isEnglish (Speech.voiceLang v)).
  { intros v. subst english. rewrite filter_In, english_spec. reflexivity. }
  repeat apply conj; try reflexivity.
  - destruct english eqn:E; cbn [length Nat.eqb]; [reflexivity |].
    rewrite <- E. apply filter_sublist.
  - intros (v & Hv & He) w.
    destruct english as [|a l] eqn:E; cbn [length Nat.eqb].
    + exfalso. exact (proj2 (Hin v) (conj Hv He)).
    + apply Hin.
  - intros Hnone. destruct english as [|a l] eqn:E; cbn [length Nat.eqb]; [reflexivity |].
    exfalso. apply (Hnone a); apply (Hin a); left; reflexivity.
  - destruct english as [|a l] eqn:E; cbn [length Nat.eqb]; [tauto | discriminate].
  - intros Hempty. subst english. rewrite Hempty. reflexivity.
Qed.

Lemma voice_pool_ignores_locale_witness :
  (exists v, In v (Content.availableVoices (Content.loaded sampleVoices))
             /\ isEnglish (Speech.voiceLang v))
  /\ In (Speech.mkVoice "Google US English" "en-US")
       (Content.filteredVoices
          (Content.filterVoicesByLocale "fr-FR" (Content.loaded sampleVoices))).
Proof.
  assert (Hv : In (Speech.mkVoice "Google US English" "en-US")
                 (Content.availableVoices (Content.loaded sampleVoices)))
    by (vm_compute; tauto).
  assert (He : isEnglish "en-US") by (left; exists "US"; reflexivity).
  assert (H : exists v, In v (Content.availableVoices (Content.loaded sampleVoices))
                        /\ isEnglish (Speech.voiceLang v))
    by (exists (Speech.mkVoice "Google US English" "en-US"); split; [exact Hv | exact He]).
  split; [exact H |].
  destruct (voice_pool_ignores_locale "fr-FR" (Content.loaded sampleVoices))
    as (_ & _ & _ & _ & Hin & _).
  exact (proj2 (Hin H (Speech.mkVoice "Google US English" "en-US")) (conj Hv He)).
Defined.

(** The fields that [readContent] leaves alone. *)
Lemma readContent_keeps (i : Z) (s : Content.State) :
  Content.comments (Content.readContent i s) = Content.comments s
  /\ Content.postTitle (Content.readContent i s) = Content.postTitle s
  /\ Content.postBody (Content.readContent i s) = Content.postBody s
  /\ Content.availableVoices (Content.readContent i s) = Content.availableVoices s
  /\ Content.filteredVoices (Content.readContent i s) = Content.filteredVoices s
  /\ Content.selectedVoiceNames (Content.readContent i s) = Content.selectedVoiceNames s
  /\ Content.voiceLocale (Content.readContent i s) = Content.voiceLocale s
  /\ Content.playbackSpeed (Content.readContent i s) = Content.playbackSpeed s
  /\ Content.useUniqueVoices (Content.readContent i s) = Content.useUniqueVoices s.
Proof.
  destruct (Z_lt_le_dec i 0) as [Hneg | Hpos];
    [| destruct (Z_lt_le_dec i (Z.of_nat (length (Content.allContent s)))) as [Hlt | Hge]].
  - rewrite readContent_out_of_range by lia. repeat split.
  - destruct (readContent_in_range i s ltac:(lia)) as (item & _ & ->).
    unfold Content.highlight.
    destruct (Content.Item.type item);
      [| | destruct (Content.Item.id item) as [c|]; [destruct (JS.truthy c) |]];
      repeat split.
  - rewrite readContent_out_of_range by lia. repeat split.
Qed.

Lemma filterVoicesByLocale_pooled locale s : pooled (Content.filterVoicesByLocale locale s).
Proof.
  unfold pooled, Content.filterVoicesByLocale.
  cbn [Content.setVoices Content.availableVoices Content.filteredVoices].
  destruct (List.filter _ (Content.availableVoices s)); reflexivity.
Qed.

Lemma step_pooled (e : Content.Event) (s : Content.State) :
  pooled s -> pooled (Content.step e s).
Proof.
  unfold pooled. intros H.
  destruct e as [request | u | u | | locale names | doc | voices |]; cbn [Content.step].
  - destruct request; cbn [Content.onMessage];
      try exact H; try apply filterVoicesByLocale_pooled.
    + destruct (Speech.paused (Content.synthesis s)); [exact H |].
      destruct (negb (Speech.speaking (Content.synthesis s))); [| exact H].
      destruct (readContent_keeps (Content.currentIndex s) s) as (_ & _ & _ & -> & -> & _).
      exact H.
    + destruct (Speech.speaking (Content.synthesis s)); exact H.
    + cbn [Content.setSynthesis Content.currentIndex Content.allContent].
      destruct (_ <? _)%Z; [| exact H].
      match goal with |- context [Content.readContent ?i ?x] =>
        destruct (readContent_keeps i x) as (_ & _ & _ & -> & -> & _)
      end. exact H.
    + cbn [Content.setSynthesis Content.currentIndex Content.allContent].
      destruct (0 <? _)%Z;
        match goal with |- context [Content.readContent ?i ?x] =>
          destruct (readContent_keeps i x) as (_ & _ & _ & -> & -> & _)
        end; exact H.
  - destruct (Speech.heap (Content.synthesis s) !! u); [| exact H].
    unfold Content.onend.
    cbn [Content.setSynthesis Content.currentIndex Content.allContent].
    destruct (_ <? _)%Z; exact H.
  - destruct (Speech.heap (Content.synthesis s) !! u); exact H.
  - destruct (Content.timers s) as [|n]; [exact H |]. cbv zeta.
    match goal with |- context [Content.readContent ?i ?x] =>
      destruct (readContent_keeps i x) as (_ & _ & _ & -> & -> & _)
    end. exact H.
  - unfold Content.extractionRequested.
    cbn [Content.setSelectedVoiceNames Content.voiceLocale].
    destruct (String.eqb locale (Content.voiceLocale s)); [exact H |].
    apply (filterVoicesByLocale_pooled locale (Content.setSelectedVoiceNames names s)).
  - unfold Content.extracted. destruct (Content.extractPostContent doc) as [t b]. exact H.
  - apply filterVoicesByLocale_pooled.
  - exact H.
Qed.

Lemma run_pooled (events : list Content.Event) (voices : list Speech.Voice) :
  pooled (Content.run events (Content.loaded voices)).
Proof.
  assert (H : forall s, pooled s -> pooled (Content.run events s)).
  { induction events as [|e events IH]; intros s Hs; [exact Hs |].
    apply IH, step_pooled, Hs. }
  apply H, filterVoicesByLocale_pooled.
Qed.

Lemma pooled_inhabited (s : Content.State) :
  pooled s -> Content.availableVoices s <> [] -> Content.filteredVoices s <> [].
Proof.
  unfold pooled. intros -> H.
  destruct (List.filter _ (Content.availableVoices s)); [exact H | discriminate].
Qed.

(** The allocator answers a voice of the pool as soon as the pool is not
    empty and the index is not negative. *)
Lemma getVoiceForIndex_some pool rotate allowlist index :
  pool <> [] -> (0 <= index)%Z ->
  exists v, Content.getVoiceForIndex pool rotate allowlist index = Some v /\ In v pool.
Proof.
  intros Hpool Hindex. destruct rotate.
  - rewrite getVoiceForIndex_rotating by exact Hpool.
    pose proof (restrictedPool_nonempty pool allowlist Hpool) as Hne.
    set (P := restrictedPool pool allowlist) in *.
    assert (Hn : (0 < Z.of_nat (length P))%Z)
      by (destruct P; [congruence | cbn [length]; lia]).
    rewrite Z.rem_mod_nonneg by lia.
    destruct (nth_in_range P (index mod Z.of_nat (length P))
                ltac:(apply Z.mod_pos_bound; exact Hn)) as [v Hv].
    exists v. split; [exact Hv |].
    rewrite nth_nonneg in Hv by (apply Z.mod_pos_bound; exact Hn).
    apply list_elem_of_lookup_2, list_elem_of_In in Hv.
    subst P. unfold restrictedPool in Hv.
    destruct (List.filter _ pool) eqn:E; [exact Hv |].
    rewrite <- E in Hv. apply filter_In in Hv. tauto.
  - destruct pool as [|v pool]; [congruence |].
    exists v. split; [reflexivity | left; reflexivity].
Qed.

(** X2. Whatever happened since the script was loaded, the pages having
    comment ids that [highlightComment] can quote and the speeds set being
    rates that an utterance takes, when the browser has a voice,
    [readContent] on an index of the queue makes an utterance with a voice
    of the pool, and with the stored locale as its language. *)
Theorem utterance_has_voice :
  forall (voices : list Speech.Voice) (events : list Content.Event) (i : Z),
    let s := Content.run events (Content.loaded voices) in
    forallb readableEvent events = true ->
    Content.availableVoices s <> [] ->
    (0 <= i < Z.of_nat (length (Content.allContent s)))%Z ->
    exists ut v,
      Speech.heap (Content.synthesis (Content.readContent i s))
        !! Speech.fresh (Content.synthesis s) = Some ut
      /\ Speech.voice ut = Some v
      /\ In v (Content.filteredVoices s)
      /\ Speech.lang ut = Some (Content.voiceLocale s).
Proof.
  intros voices events i s _ Hvoices Hi.
  assert (Hpool : Content.filteredVoices s <> []).
  { apply pooled_inhabited; [apply run_pooled | exact Hvoices]. }
  destruct (getVoiceForIndex_some (Content.filteredVoices s) (Content.useUniqueVoices s)
              (Content.selectedVoiceNames s) i Hpool ltac:(lia)) as (v & Hv & Hin).
  destruct (readContent_in_range i s Hi) as (item & _ & ->).
  eexists _, v. cbn. rewrite lookup_insert_eq.
  split; [reflexivity |]. cbn. rewrite Hv.
  unfold Content.highlight.
  destruct (Content.Item.type item);
    [| | destruct (Content.Item.id item) as [c|]; [destruct (JS.truthy c) |]];
    repeat split; exact Hin.
Qed.

Lemma utterance_has_voice_witness :
  forallb readableEvent sampleEvents = true
  /\ Content.availableVoices sampleExtracted <> []
  /\ (0 <= 0 < Z.of_nat (length (Content.allContent sampleExtracted)))%Z
  /\ exists ut v,
       Speech.heap (Content.synthesis (Content.readContent 0 sampleExtracted))
         !! Speech.fresh (Content.synthesis sampleExtracted) = Some ut
       /\ Speech.voice ut = Some v
       /\ In v (Content.filteredVoices sampleExtracted)
       /\ Speech.lang ut = Some (Content.voiceLocale sampleExtracted).
Proof.
  assert (H1 : Content.availableVoices sampleExtracted <> []) by (vm_compute; discriminate).
  assert (H2 : (0 <= 0 < Z.of_nat (length (Content.allContent sampleExtracted)))%Z)
    by (vm_compute; split; [discriminate | reflexivity]).
  assert (H0 : forallb readableEvent sampleEvents = true) by (vm_compute; reflexivity).
  split; [exact H0 | split; [exact H1 | split; [exact H2 |]]].
  exact (utterance_has_voice sampleVoices sampleEvents 0 H0 H1 H2).
Defined.

Lemma allEnglish_voiceOptions (voices : list Speech.Voice) :
  Popup.allEnglish (Popup.voiceOptions voices)
  = Popup.voiceOptions
      (List.filter
         (fun v => JS.startsWith (Speech.voiceLang v) "en-"
                   || String.eqb (Speech.voiceLang v) "en") voices).
Proof.
  unfold Popup.allEnglish, Popup.voiceOptions.
  induction voices as [|v voices IH]; [reflexivity |].
  cbn [List.map List.filter Popup.lang].
  destruct (JS.startsWith (Speech.voiceLang v) "en-" || String.eqb (Speech.voiceLang v) "en");
    cbn [List.map]; rewrite IH; reflexivity.
Qed.

(** X3. The voices the popup lists for selection are the voices of the pool
    of the content script when one voice or more is English; when none is,
    the popup lists no voice and the content script reads with all the
    voices of the browser. *)
Theorem popup_lists_the_pool :
  forall (voices : list Speech.Voice) (events : list Content.Event),
    let s := Content.run events (Content.loaded voices) in
    let englishVoices := Popup.allEnglish (Popup.voiceOptions (Content.availableVoices s)) in
    (englishVoices <> [] -> englishVoices = Popup.voiceOptions (Content.filteredVoices s))
    /\ (englishVoices = [] -> Content.filteredVoices s = Content.availableVoices s)
    /\ forall o, In o englishVoices -> isEnglish (Popup.lang o).
Proof.
  intros voices events s englishVoices.
  pose proof (run_pooled events voices) as Hp. fold s in Hp. unfold pooled in Hp.
  subst englishVoices. rewrite allEnglish_voiceOptions.
  destruct (List.filter _ (Content.availableVoices s)) as [|v l] eqn:E.
  - split; [intros H; exfalso; apply H; reflexivity |].
    split; [intros _; exact Hp | intros o []].
  - split; [intros _; rewrite Hp; reflexivity |].
    split; [discriminate |].
    intros o Ho. unfold Popup.voiceOptions in Ho.
      apply in_map_iff in Ho as (w & <- & Hw). rewrite <- E in Hw.
      apply filter_In in Hw as [_ Hw]. apply english_spec, Hw.
Qed.

Lemma popup_lists_the_pool_witness :
  Popup.allEnglish (Popup.voiceOptions (Content.availableVoices sampleExtracted)) <> []
  /\ Popup.allEnglish (Popup.voiceOptions (Content.availableVoices sampleExtracted))
     = Popup.voiceOptions (Content.filteredVoices sampleExtracted).
Proof.
  assert (H : Popup.allEnglish (Popup.voiceOptions (Content.availableVoices sampleExtracted))
              <> []) by (vm_compute; discriminate).
  split; [exact H |].
  exact (proj1 (popup_lists_the_pool sampleVoices sampleEvents) H).
Defined.

(** ** The work of an expansion run *)

Section ExpansionBudget.

Context {W : Type} (host : Content.Host W).

Variables (targetDepth maxTopLevel maxTotal : Z) (strategy : Content.Strategy).

(** The loop over the batches clicks buttons of its list, each once at most. *)
Lemma clickBatches_count fuel i buttons (x : Content.Extraction W) :
  (length (Content.clicks (Content.clickBatches host maxTotal strategy fuel i buttons x))
   <= length (Content.clicks x) + (length buttons - i))%nat.
Proof.
  revert i x. induction fuel as [|fuel IH]; intros i x; cbn [Content.clickBatches]; [lia |].
  destruct (Nat.leb_spec (length buttons) i); [lia |].
  destruct (Content.shouldStopExtraction x); [lia |].
  cbn [Content.setProgress Content.document Content.world Content.clicks
       Content.isExtracting Content.shouldStopExtraction Content.extractionProgress].
  destruct (maxTotal <=? Content.countComments (Content.document x))%Z;
    [rewrite clicks_setProgress; lia |].
  destruct (Content.settleBatch host _ _ _) as [[w d] stop].
  etransitivity; [apply IH |].
  cbn [Content.clicks]. rewrite length_app, length_firstn, length_skipn.
  assert (1 <= Content.batchSize strategy)%nat by (destruct strategy; cbn; lia).
  lia.
Qed.

Lemma iterate_count remaining (x : Content.Extraction W) :
  (Z.of_nat (length (Content.clicks
                       (Content.iterate host targetDepth maxTopLevel maxTotal strategy
                          remaining x)))
   <= Z.of_nat (length (Content.clicks x))
      + Z.of_nat remaining * Z.max 1 (maxTotal / 7))%Z.
Proof.
  revert x. induction remaining as [|remaining IH]; intros x;
    cbn [Content.iterate]; [lia |].
  assert (Hpos : (0 <= Z.of_nat remaining * Z.max 1 (maxTotal / 7))%Z) by lia.
  destruct (Content.shouldStopExtraction x); [lia |].
  cbn [Content.setProgress Content.document Content.world Content.clicks
       Content.isExtracting Content.shouldStopExtraction Content.extractionProgress].
  destruct (maxTotal <=? Content.countComments (Content.document x))%Z;
    [rewrite clicks_setProgress; lia |].
  match goal with |- context [if ?c then _ else _] => destruct c end;
    [rewrite clicks_setProgress; lia |].
  match goal with |- context [if ?c then _ else _] => destruct c end;
    [rewrite clicks_setProgress; lia |].
  match goal with |- context [if ?c then _ else _] => destruct c end;
    [rewrite clicks_setProgress; lia |].
  match goal with
  | |- context [Content.clickBatches host maxTotal strategy ?f ?i ?b ?y] =>
      pose proof (clickBatches_count f i b y) as Hb;
      assert (Hlen : (Z.of_nat (length b) <= Z.max 1 (maxTotal / 7))%Z);
      [| destruct (Content.settleIteration host
                     (Content.world (Content.clickBatches host maxTotal strategy f i b y))
                     (Content.document (Content.clickBatches host maxTotal strategy f i b y)))
           as [[w d] stop]]
  end.
  { rewrite length_firstn.
    pose proof (countComments_nonneg (Content.document x)).
    assert ((maxTotal - Content.countComments (Content.document x)) / 7 <= maxTotal / 7)%Z
      by (apply Z.div_le_mono; lia).
    lia. }
  etransitivity; [apply IH |].
  cbn [Content.clicks]. rewrite clicks_setProgress in Hb.
  match type of Hb with
  | (length ?a <= _ + (length ?b - 0))%nat =>
      generalize dependent (length a); generalize dependent (length b)
  end.
  generalize dependent (Z.max 1 (maxTotal / 7)).
  intros. lia.
Qed.

Lemma expand_count (x : Content.Extraction W) :
  (Z.of_nat (length (Content.clicks
                       (Content.expandCommentsToDepth host targetDepth maxTopLevel maxTotal
                          strategy x)))
   <= Z.of_nat (length (Content.clicks x)) + 50 * Z.max 1 (maxTotal / 7))%Z.
Proof.
  unfold Content.expandCommentsToDepth. cbv zeta.
  match goal with |- context [if ?c then _ else _] => destruct c end;
    rewrite clicks_setExtracting, clicks_setProgress; [cbn [Content.clicks]; lia |].
  etransitivity; [apply (iterate_count Content.maxIterations) |].
  rewrite clicks_setProgress. cbn [Content.clicks]. reflexivity.
Qed.

End ExpansionBudget.


Lemma expand_progress {W : Type} (host : Content.Host W) targetDepth maxTopLevel maxTotal
    strategy (x : Content.Extraction W) :
  let x' := Content.expandCommentsToDepth host targetDepth maxTopLevel maxTotal strategy x in
  Content.isExtracting x' = false
  /\ Content.extractionProgress x' = Content.countComments (Content.document x').
Proof.
  unfold Content.expandCommentsToDepth. cbv zeta.
  match goal with |- context [if ?c then _ else _] => destruct c end.
  - split; reflexivity.
  - match goal with |- context [Content.iterate ?h ?a ?b ?c ?d ?n ?y] =>
      generalize (Content.iterate h a b c d n y)
    end.
    intros y. split; reflexivity.
Qed.

(** X4. An expansion run clicks at most [50 * max(1, floor(maxTotal / 7))]
    buttons, whatever the page does; when it returns, [isExtracting] is off
    and [extractionProgress] is the number of comments of the document. *)
Theorem expansion_click_budget :
  forall (W : Type) (host : Content.Host W) (targetDepth maxTopLevel maxTotal : Z)
         (strategy : Content.Strategy) (x : Content.Extraction W),
    let x' := Content.expandCommentsToDepth host targetDepth maxTopLevel maxTotal strategy x in
    (Z.of_nat (length (Content.clicks x'))
     <= Z.of_nat (length (Content.clicks x)) + 50 * Z.max 1 (maxTotal / 7))%Z
    /\ Content.isExtracting x' = false
    /\ Content.extractionProgress x' = Content.countComments (Content.document x').
Proof.
  intros W host targetDepth maxTopLevel maxTotal strategy x x'.
  split; [apply expand_count |].
  subst x'. unfold Content.expandCommentsToDepth. cbv zeta.
  match goal with |- context [if ?c then _ else _] => destruct c end.
  - split; reflexivity.
  - generalize (Content.iterate host targetDepth maxTopLevel maxTotal strategy
                  Content.maxIterations
                  (Content.setProgress
                     (Content.countComments
                        (Content.document
                           (Content.mkExtraction (Content.world x) (Content.document x)
                              true false (Content.extractionProgress x) (Content.clicks x))))
                     (Content.mkExtraction (Content.world x) (Content.document x)
                        true false (Content.extractionProgress x) (Content.clicks x)))).
    intros y. split; reflexivity.
Qed.

Section StopRequest.

Context {W : Type} (host : Content.Host W).

Variables (targetDepth maxTopLevel maxTotal : Z) (strategy : Content.Strategy).

Lemma clickBatches_halt fuel i buttons (x : Content.Extraction W) :
  Content.shouldStopExtraction x = true ->
  Content.clickBatches host maxTotal strategy fuel i buttons x = x.
Proof.
  intros H. destruct fuel; cbn [Content.clickBatches]; [reflexivity |].
  destruct (length buttons <=? i)%nat; [reflexivity |]. rewrite H. reflexivity.
Qed.

Lemma iterate_halt remaining (x : Content.Extraction W) :
  Content.shouldStopExtraction x = true ->
  Content.iterate host targetDepth maxTopLevel maxTotal strategy remaining x = x.
Proof.
  intros H. destruct remaining; cbn [Content.iterate]; [reflexivity |].
  rewrite H. reflexivity.
Qed.

Hypothesis stopped :
  forall w doc batch, snd (Content.settleBatch host w doc batch) = true.

Lemma clickBatches_stopped fuel i buttons (x : Content.Extraction W) :
  let x' := Content.clickBatches host maxTotal strategy fuel i buttons x in
  Content.clicks x' = Content.clicks x
  \/ (Content.shouldStopExtraction x' = true
      /\ length (Content.clicks x')
         <= length (Content.clicks x) + Content.batchSize strategy)%nat.
Proof.
  destruct fuel as [|fuel]; cbn [Content.clickBatches]; [left; reflexivity |].
  destruct (length buttons <=? i)%nat; [left; reflexivity |].
  destruct (Content.shouldStopExtraction x) eqn:Hs; [left; reflexivity |].
  cbn [Content.setProgress Content.document Content.world Content.clicks
       Content.isExtracting Content.shouldStopExtraction Content.extractionProgress].
  destruct (maxTotal <=? Content.countComments (Content.document x))%Z;
    [left; reflexivity |].
  pose proof (stopped (Content.world x) (Content.document x)
                (firstn (Content.batchSize strategy) (skipn i buttons))) as Hstop.
  destruct (Content.settleBatch host _ _ _) as [[w d] stop]. cbn [snd] in Hstop. subst stop.
  rewrite Hs. cbn [orb].
  rewrite clickBatches_halt by reflexivity.
  right. cbn [Content.shouldStopExtraction Content.clicks].
  split; [reflexivity |]. rewrite length_app, length_firstn. lia.
Qed.

Lemma iterate_stopped remaining (x : Content.Extraction W) :
  (length (Content.clicks
             (Content.iterate host targetDepth maxTopLevel maxTotal strategy remaining x))
   <= length (Content.clicks x) + Content.batchSize strategy)%nat.
Proof.
  revert x. induction remaining as [|remaining IH]; intros x;
    cbn [Content.iterate]; [lia |].
  destruct (Content.shouldStopExtraction x); [lia |].
  cbn [Content.setProgress Content.document Content.world Content.clicks
       Content.isExtracting Content.shouldStopExtraction Content.extractionProgress].
  destruct (maxTotal <=? Content.countComments (Content.document x))%Z;
    [rewrite clicks_setProgress; lia |].
  match goal with |- context [if ?c then _ else _] => destruct c end;
    [rewrite clicks_setProgress; lia |].
  match goal with |- context [if ?c then _ else _] => destruct c end;
    [rewrite clicks_setProgress; lia |].
  match goal with |- context [if ?c then _ else _] => destruct c end;
    [rewrite clicks_setProgress; lia |].
  match goal with
  | |- context [Content.clickBatches host maxTotal strategy ?f ?i ?b ?y] =>
      pose proof (clickBatches_stopped f i b y) as Hb; cbv zeta in Hb;
      rewrite clicks_setProgress in Hb;
      generalize dependent (Content.clickBatches host maxTotal strategy f i b y)
  end.
  intros x1 Hb.
  destruct (Content.settleIteration host (Content.world x1) (Content.document x1))
    as [[w d] stop].
  destruct Hb as [Hsame | [Hstop Hlen]].
  - etransitivity; [apply IH |]. cbn [Content.clicks]. rewrite Hsame. lia.
  - rewrite Hstop. cbn [orb]. rewrite iterate_halt by reflexivity.
    cbn [Content.clicks]. exact Hlen.
Qed.

Lemma expand_stopped (x : Content.Extraction W) :
  (length (Content.clicks
             (Content.expandCommentsToDepth host targetDepth maxTopLevel maxTotal
                strategy x))
   <= length (Content.clicks x) + Content.batchSize strategy)%nat.
Proof.
  unfold Content.expandCommentsToDepth. cbv zeta.
  match goal with |- context [if ?c then _ else _] => destruct c end;
    rewrite clicks_setExtracting, clicks_setProgress; [cbn [Content.clicks]; lia |].
  etransitivity; [apply (iterate_stopped Content.maxIterations) |].
  rewrite clicks_setProgress. cbn [Content.clicks]. lia.
Qed.

End StopRequest.


(** X5. A stop request that arrives during the wait after a batch ends the
    clicking: with a user who asks to stop at every such wait, the run
    clicks one batch at most, of 3 buttons at most. *)
Theorem stop_request_ends_clicking :
  forall (W : Type) (host : Content.Host W) (targetDepth maxTopLevel maxTotal : Z)
         (strategy : Content.Strategy) (x : Content.Extraction W),
    (forall w doc batch, snd (Content.settleBatch host w doc batch) = true) ->
    (length (Content.clicks
               (Content.expandCommentsToDepth host targetDepth maxTopLevel maxTotal
                  strategy x))
     <= length (Content.clicks x) + Content.batchSize strategy)%nat
    /\ (Content.batchSize strategy <= 3)%nat.
Proof.
  intros W host targetDepth maxTopLevel maxTotal strategy x Hstop.
  split; [apply expand_stopped, Hstop | destruct strategy; cbn; lia].
Qed.

Lemma stop_request_ends_clicking_witness :
  (forall w doc batch, snd (Content.settleBatch stoppingHost w doc batch) = true)
  /\ (length (Content.clicks
                (Content.expandCommentsToDepth stoppingHost 3 50 300 Content.Balanced
                   (freshExtraction sampleThread)))
      <= length (Content.clicks (freshExtraction sampleThread))
         + Content.batchSize Content.Balanced)%nat.
Proof.
  assert (H : forall w doc batch, snd (Content.settleBatch stoppingHost w doc batch) = true)
    by (intros w doc batch; reflexivity).
  split; [exact H |].
  exact (proj1 (stop_request_ends_clicking unit stoppingHost 3 50 300 Content.Balanced
                  (freshExtraction sampleThread) H)).
Defined.

Section Sorting.

Context {A : Type} (cmp : A -> A -> JS.number).

Lemma insertSorted_Permutation (x : A) (l : list A) :
  Permutation (JS.insertSorted cmp x l) (x :: l).
Proof.
  induction l as [|y l IH]; cbn [JS.insertSorted]; [reflexivity |].
  destruct (JS.lt (Some 0%Z) (cmp x y)); [| reflexivity].
  rewrite IH. apply perm_swap.
Qed.

Lemma sort_Permutation (l : list A) : Permutation (JS.sort cmp l) l.
Proof.
  unfold JS.sort. induction l as [|x l IH]; cbn [List.fold_right]; [reflexivity |].
  rewrite insertSorted_Permutation, IH. reflexivity.
Qed.

(** The sort keeps the order of the elements that a class [p] holds, when
    the comparator never moves an element of the class behind another. *)
Lemma insertSorted_filter (p : A -> bool) (x : A) (l : list A) :
  (forall y, In y l -> p x = true -> p y = true -> JS.lt (Some 0%Z) (cmp x y) = false) ->
  List.filter p (JS.insertSorted cmp x l) = List.filter p (x :: l).
Proof.
  induction l as [|y l IH]; intros H; cbn [JS.insertSorted]; [reflexivity |].
  destruct (JS.lt (Some 0%Z) (cmp x y)) eqn:E; [| reflexivity].
  cbn [List.filter]. rewrite IH by (intros z Hz; apply H; right; exact Hz).
  cbn [List.filter].
  destruct (p x) eqn:Hx, (p y) eqn:Hy; try reflexivity.
  rewrite (H y (or_introl eq_refl) eq_refl Hy) in E. discriminate.
Qed.

Lemma sort_filter (p : A -> bool) (l : list A) :
  (forall x y, p x = true -> p y = true -> JS.lt (Some 0%Z) (cmp x y) = false) ->
  List.filter p (JS.sort cmp l) = List.filter p l.
Proof.
  intros H. unfold JS.sort. induction l as [|x l IH]; cbn [List.fold_right]; [reflexivity |].
  rewrite insertSorted_filter by (intros y _; apply H).
  cbn [List.filter]. rewrite IH. reflexivity.
Qed.

Variable R : A -> A -> Prop.
Variable D : A -> Prop.

Hypothesis R_trans : forall x y z, R x y -> R y z -> R x z.
Hypothesis behind : forall x y, D x -> D y -> JS.lt (Some 0%Z) (cmp x y) = true -> R y x.
Hypothesis ahead : forall x y, D x -> D y -> JS.lt (Some 0%Z) (cmp x y) = false -> R x y.

Lemma insertSorted_sorted (x : A) (l : list A) :
  D x -> Forall D l -> StronglySorted R l -> StronglySorted R (JS.insertSorted cmp x l).
Proof.
  intros Hx Hl Hs. induction Hs as [|y l Hs IH Hy]; cbn [JS.insertSorted].
  - constructor; constructor.
  - apply Forall_cons in Hl as [Hdy Hl].
    destruct (JS.lt (Some 0%Z) (cmp x y)) eqn:E.
    + constructor; [apply IH, Hl |].
      rewrite (insertSorted_Permutation x l). constructor; [| exact Hy].
      apply behind; assumption.
    + assert (Hxy : R x y) by (apply ahead; assumption).
      constructor; [constructor; assumption |].
      constructor; [exact Hxy |].
      eapply Forall_impl; [exact Hy |]. intros z Hz. eapply R_trans; eassumption.
Qed.

Lemma sort_sorted (l : list A) : Forall D l -> StronglySorted R (JS.sort cmp l).
Proof.
  unfold JS.sort. induction l as [|x l IH]; intros Hl; cbn [List.fold_right]; [constructor |].
  apply Forall_cons in Hl as [Hx Hl].
  apply insertSorted_sorted; [exact Hx | | apply IH, Hl].
  fold (JS.sort cmp l). rewrite sort_Permutation. exact Hl.
Qed.

End Sorting.


(** X6. The buttons of an iteration are the buttons labelled "more replies"
    or "more comment" that pass the strategy filter, each once, sorted by
    depth: the shallowest first for the breadth and balanced strategies,
    the deepest first for the depth strategy, and buttons of the same depth
    in the order of the document. *)
Theorem buttons_clicked_in_depth_order :
  forall (targetDepth maxTopLevel : Z) (strategy : Content.Strategy) (doc : Dom.Node)
         (topLevelCount : Z),
    let buttons := Content.moreButtons targetDepth maxTopLevel strategy doc topLevelCount in
    let found := candidates targetDepth maxTopLevel strategy doc topLevelCount in
    Permutation buttons found
    /\ StronglySorted (before strategy) buttons
    /\ forall d : Z, List.filter (atDepth d) buttons = List.filter (atDepth d) found.
Proof.
  intros targetDepth maxTopLevel strategy doc topLevelCount buttons found.
  subst buttons found. unfold Content.moreButtons, candidates.
  set (l := List.filter _ _).
  assert (Hl : Forall (fun c => exists d, Content.Control.depth c = Some d) l).
  { apply List.Forall_forall. intros c Hc. subst l. apply filter_In in Hc as [_ Hc].
    apply strategyFilter_sound in Hc as [(d & Hd & _) _]. eauto. }
  split; [apply sort_Permutation | split].
  - apply sort_sorted with (D := fun c => exists d, Content.Control.depth c = Some d);
      [| | | exact Hl].
    + intros x y z (a & b & Ha & Hb & Hab) (b' & c & Hb' & Hc & Hbc).
      exists a, c. rewrite Hb in Hb'. injection Hb' as <-.
      split; [exact Ha | split; [exact Hc |]]. destruct strategy; lia.
    + intros x y [a Ha] [b Hb] H. exists b, a.
      split; [exact Hb | split; [exact Ha |]].
      unfold Content.order in H. rewrite Ha, Hb in H.
      destruct strategy; cbn in H; apply Z.ltb_lt in H; lia.
    + intros x y [a Ha] [b Hb] H. exists a, b.
      split; [exact Ha | split; [exact Hb |]].
      unfold Content.order in H. rewrite Ha, Hb in H.
      destruct strategy; cbn in H; apply Z.ltb_ge in H; lia.
  - intros d. apply sort_filter. intros x y Hx Hy.
    unfold atDepth, JS.strictEq in Hx, Hy.
    destruct (Content.Control.depth x) as [a|] eqn:Ha; [| discriminate].
    destruct (Content.Control.depth y) as [b|] eqn:Hb; [| discriminate].
    apply Z.eqb_eq in Hx, Hy. subst a b.
    unfold Content.order. rewrite Ha, Hb.
    destruct strategy; cbn; apply Z.ltb_ge; lia.
Qed.

(** ** Numerals, depths and ids *)

Ltac digit_values :=
  repeat match goal with
         | |- context [JS.digitValue ?c] =>
             let v := eval vm_compute in (JS.digitValue c) in
             change (JS.digitValue c) with v
         | |- context [JS.isDigit ?c] =>
             let v := eval vm_compute in (JS.isDigit c) in
             change (JS.isDigit c) with v; cbv iota
         | |- context [JS.isSpace ?c] =>
             let v := eval vm_compute in (JS.isSpace c) in
             change (JS.isSpace c) with v; cbv iota
         end.

Lemma digits_uint (d : Decimal.uint) (acc : Z) :
  (0 <= acc)%Z ->
  JS.digits (NilEmpty.string_of_uint d) acc true
  = Some (Z.of_nat (Nat.of_uint_acc d (Z.to_nat acc))).
Proof.
  revert acc. induction d as [|d IH|d IH|d IH|d IH|d IH|d IH|d IH|d IH|d IH|d IH];
    intros acc Hacc;
    [cbn; f_equal; lia | ..];
    cbn [NilEmpty.string_of_uint JS.digits Nat.of_uint_acc];
    digit_values;
    rewrite IH by lia;
    rewrite Nat.tail_mul_spec; do 3 f_equal; lia.
Qed.

Lemma to_uint_nonnil (n : nat) : Nat.to_uint n <> Decimal.Nil.
Proof.
  rewrite <- (Unsigned.of_to n) at 1. rewrite Unsigned.to_of. apply unorm_nonnil.
Qed.

Lemma trimStart_clean (s : string) : JS.spaceWidth s = 0%nat -> JS.trimStart s = s.
Proof.
  destruct s as [|c r]; [reflexivity |].
  unfold JS.trimStart. cbn [JS.dropSpace]. intros ->. reflexivity.
Qed.

Lemma spaceWidth_digit (c : ascii) (r : string) :
  JS.isDigit c = true -> JS.spaceWidth (String c r) = 0%nat.
Proof.
  intros Hd. unfold JS.isDigit in Hd. cbv zeta in Hd. bools.
  destruct (Nat.eq_dec (JS.spaceWidth (String c r)) 0) as [E | E]; [exact E |].
  apply spaceWidth_head in E. lia.
Qed.

(** [parseInt] reads back the numeral of a natural number. *)
Lemma parseInt_ofNat (n : nat) : JS.parseInt (JS.ofNat n) = Some (Z.of_nat n).
Proof.
  unfold JS.ofNat. pose proof (to_uint_nonnil n) as Hnil.
  pose proof (Unsigned.of_to n) as Hof. unfold Nat.of_uint in Hof.
  destruct (Nat.to_uint n) as [|d|d|d|d|d|d|d|d|d|d]; [congruence | ..];
    unfold JS.parseInt; cbn [NilEmpty.string_of_uint];
    rewrite trimStart_clean by (apply spaceWidth_digit; reflexivity);
    digit_values; cbn [JS.digits]; digit_values;
    rewrite digits_uint by lia;
    cbn [Nat.of_uint_acc] in Hof; rewrite Nat.tail_mul_spec in Hof;
    rewrite <- Hof; do 3 f_equal; lia.
Qed.

Lemma ofNat_inj (n m : nat) : JS.ofNat n = JS.ofNat m -> n = m.
Proof.
  unfold JS.ofNat. intros H. apply Unsigned.to_uint_inj.
  pose proof (NilEmpty.usu (Nat.to_uint n)) as Hn.
  rewrite H, NilEmpty.usu in Hn. congruence.
Qed.

(** X7. The depth of a button is 0 when no element above it is a comment;
    it is one more than the [depth] attribute of the nearest comment above
    it when this attribute is the decimal numeral of a number below 2^53,
    which [parseInt] reads without rounding, and 1 when that comment has no
    [depth] attribute or an empty one. *)
Theorem button_depth :
  (forall parents : list Dom.Node,
     Forall (fun p => ~ isComment p) parents -> Content.depthFrom parents = Some 0%Z)
  /\ (forall (outside above : list Dom.Node) (c : Dom.Node),
        Forall (fun p => ~ isComment p) outside -> isComment c ->
        (forall n : nat,
           (Z.of_nat n < 2 ^ 53)%Z ->
           Dom.getAttribute c "depth" = Some (JS.ofNat n) ->
           Content.depthFrom (outside ++ c :: above) = Some (Z.of_nat n + 1)%Z)
        /\ (Dom.getAttribute c "depth" = None \/ Dom.getAttribute c "depth" = Some EmptyString ->
            Content.depthFrom (outside ++ c :: above) = Some 1%Z)).
Proof.
  assert (Hskip : forall outside rest,
             Forall (fun p => ~ isComment p) outside ->
             Content.depthFrom (outside ++ rest) = Content.depthFrom rest).
  { intros outside rest H. induction H as [|p outside Hp _ IH]; [reflexivity |].
    cbn [app Content.depthFrom].
    destruct (String.eqb_spec (JS.toLowerCase (Dom.localNameOf p)) "shreddit-comment");
      [contradiction | exact IH]. }
  split.
  - intros parents H. rewrite <- (app_nil_r parents), Hskip by exact H. reflexivity.
  - intros outside above c H Hc.
    rewrite Hskip by exact H. cbn [Content.depthFrom].
    unfold isComment in Hc. rewrite Hc. cbn [String.eqb Ascii.eqb Bool.eqb andb].
    change (String.eqb "shreddit-comment" "shreddit-comment") with true. cbv iota.
    split.
    + intros n _ Hn. rewrite Hn. unfold JS.orElse.
      destruct (JS.truthy (JS.ofNat n)) eqn:E; [rewrite parseInt_ofNat; reflexivity |].
      pose proof (parseInt_ofNat n) as Hp. destruct (JS.ofNat n); discriminate.
    + intros [Hn | Hn]; rewrite Hn; reflexivity.
Qed.

Lemma button_depth_witness :
  Forall (fun p => ~ isComment p) [Dom.Element "div" [] []]
  /\ isComment (Dom.Element "shreddit-comment" [("depth", "2")] [])
  /\ (Z.of_nat 2 < 2 ^ 53)%Z
  /\ Content.depthFrom
       ([Dom.Element "div" [] []]
        ++ Dom.Element "shreddit-comment" [("depth", "2")] [] :: [Dom.Element "html" [] []])
     = Some (Z.of_nat 2 + 1)%Z.
Proof.
  assert (H1 : Forall (fun p => ~ isComment p) [Dom.Element "div" [] []])
    by (constructor; [intros H; discriminate H | constructor]).
  assert (H2 : isComment (Dom.Element "shreddit-comment" [("depth", "2")] []))
    by reflexivity.
  assert (H3 : (Z.of_nat 2 < 2 ^ 53)%Z) by reflexivity.
  split; [exact H1 | split; [exact H2 | split; [exact H3 |]]].
  exact (proj1 (proj2 button_depth [Dom.Element "div" [] []] [Dom.Element "html" [] []]
                  (Dom.Element "shreddit-comment" [("depth", "2")] []) H1 H2)
           2%nat H3 eq_refl).
Defined.

Lemma append_inj_l (p a b : string) : p +:+ a = p +:+ b -> a = b.
Proof.
  induction p as [|c p IH]; [intros H; exact H |].
  rewrite !append_cons. intros [= H]. apply IH, H.
Qed.

Lemma visitComment_position (acc : list Content.CommentData.t * Z) (h : Dom.Handle) :
  fst (Content.visitComment acc h) = fst acc
  \/ exists r,
       fst (Content.visitComment acc h) = fst acc ++ [r]
       /\ Content.CommentData.element r = h
       /\ Content.CommentData.id r
          = JS.orElse (Dom.getAttribute (Dom.node h) "thingid")
              ("comment-" +:+ JS.ofNat (length (fst acc)))
       /\ Content.CommentData.permalink r
          = JS.orElse (Dom.getAttribute (Dom.node h) "permalink")
              ("#" +:+ Content.CommentData.id r)
       /\ Content.CommentData.depth r
          = JS.parseInt (JS.orElse (Dom.getAttribute (Dom.node h) "depth") "0").
Proof.
  destruct acc as [extractedComments n]. unfold Content.visitComment. cbn [fst].
  destruct (Content.shouldFilterAuthor _); [left; reflexivity |].
  destruct (negb _); [left; reflexivity |].
  right. eexists. split; [reflexivity |]. cbn.
  repeat split.
  unfold JS.orElse. destruct (Dom.getAttribute (Dom.node h) "thingid") as [t|];
    [destruct (JS.truthy t) eqn:E; [rewrite E |]; reflexivity | reflexivity].
Qed.

Section Positions.

Variable P : nat -> Content.CommentData.t -> Prop.

Hypothesis pushed :
  forall acc h r,
    fst (Content.visitComment acc h) = fst acc ++ [r] ->
    fst (Content.visitComment acc h) <> fst acc ->
    P (length (fst acc)) r.

Lemma walk_positions (l : list Dom.Handle) (acc : list Content.CommentData.t * Z) :
  (forall k r, fst acc !! k = Some r -> P k r) ->
  forall k r, fst (List.fold_left Content.visitComment l acc) !! k = Some r -> P k r.
Proof.
  revert acc. induction l as [|h l IH]; intros acc Hacc; cbn [List.fold_left]; [exact Hacc |].
  apply IH. intros k r Hk.
  destruct (visitComment_position acc h) as [E | (r' & E & _)].
  - rewrite E in Hk. apply Hacc, Hk.
  - rewrite E in Hk.
    destruct (Nat.lt_ge_cases k (length (fst acc))) as [Hlt | Hge].
    + rewrite lookup_app_l in Hk by exact Hlt. apply Hacc, Hk.
    + rewrite lookup_app_r in Hk by exact Hge.
      destruct (k - length (fst acc))%nat as [|j] eqn:Ej; [| destruct j; discriminate].
      cbn in Hk. injection Hk as ->.
      replace k with (length (fst acc)) by lia.
      apply (pushed acc h r E). rewrite E. intros Habs.
      apply (f_equal (@length _)) in Habs. rewrite length_app in Habs. cbn in Habs. lia.
Qed.

End Positions.


(** X8. The record at position [k] of an extraction has as id the [thingid]
    of its element, or [comment-k] when the element has none or an empty
    one; as permalink the [permalink] attribute, or [#] and the id; as depth
    the number its [depth] attribute writes when this is the decimal
    numeral of a number below 2^53, which [parseInt] reads without
    rounding, and 0 without the attribute. Two records without [thingid]
    never share an id. *)
Theorem extractComments_ids :
  forall (doc : Dom.Node) (k : nat) (r : Content.CommentData.t),
    Content.extractComments doc !! k = Some r ->
    let attr := Dom.getAttribute (Dom.node (Content.CommentData.element r)) in
    Content.CommentData.id r
    = match attr "thingid" with
      | Some (String c t) => String c t
      | _ => "comment-" +:+ JS.ofNat k
      end
    /\ Content.CommentData.permalink r
       = match attr "permalink" with
         | Some (String c p) => String c p
         | _ => "#" +:+ Content.CommentData.id r
         end
    /\ (attr "depth" = None \/ attr "depth" = Some EmptyString ->
        Content.CommentData.depth r = Some 0%Z)
    /\ (forall n : nat,
          (Z.of_nat n < 2 ^ 53)%Z ->
          attr "depth" = Some (JS.ofNat n) ->
          Content.CommentData.depth r = Some (Z.of_nat n))
    /\ (forall (k' : nat) (r' : Content.CommentData.t),
          Content.extractComments doc !! k' = Some r' ->
          JS.orNull (attr "thingid") = None ->
          JS.orNull (Dom.getAttribute (Dom.node (Content.CommentData.element r')) "thingid")
          = None ->
          Content.CommentData.id r = Content.CommentData.id r' -> k = k').
Proof.
  intros doc k r Hr attr.
  set (P := fun (k : nat) (r : Content.CommentData.t) =>
              let attr := Dom.getAttribute (Dom.node (Content.CommentData.element r)) in
              Content.CommentData.id r
              = JS.orElse (attr "thingid") ("comment-" +:+ JS.ofNat k)
              /\ Content.CommentData.permalink r
                 = JS.orElse (attr "permalink") ("#" +:+ Content.CommentData.id r)
              /\ Content.CommentData.depth r
                 = JS.parseInt (JS.orElse (attr "depth") "0")).
  assert (HP : forall k r, Content.extractComments doc !! k = Some r -> P k r).
  { unfold Content.extractComments, Content.walkComments.
    apply walk_positions.
    - intros acc h r0 E Hne.
      destruct (visitComment_position acc h) as [E' | (r1 & E1 & Hel & Hid & Hperm & Hdepth)];
        [congruence |].
      rewrite E in E1. apply app_inj_tail in E1 as [_ <-].
      unfold P. cbv zeta. rewrite Hel. repeat split; assumption.
    - intros k0 r0 H0. cbn in H0. rewrite lookup_nil in H0. discriminate. }
  destruct (HP k r Hr) as (Hid & Hperm & Hdepth). fold attr in Hid, Hperm, Hdepth.
  repeat apply conj.
  - rewrite Hid. unfold JS.orElse. destruct (attr "thingid") as [[|c t]|]; reflexivity.
  - rewrite Hperm. unfold JS.orElse. destruct (attr "permalink") as [[|c t]|]; reflexivity.
  - intros [H | H]; rewrite Hdepth, H; reflexivity.
  - intros n _ Hn. rewrite Hdepth, Hn. unfold JS.orElse.
    destruct (JS.truthy (JS.ofNat n)) eqn:E; [apply parseInt_ofNat |].
    pose proof (parseInt_ofNat n) as Hp. destruct (JS.ofNat n); [discriminate | discriminate].
  - intros k' r' Hr' Hno Hno' Heq.
    destruct (HP k' r' Hr') as (Hid' & _).
    rewrite Hid, Hid' in Heq.
    assert (Hor : forall a fallback, JS.orNull a = None -> JS.orElse a fallback = fallback).
    { intros a fallback Ha. unfold JS.orNull, JS.orElse in *.
      destruct a as [t|]; [destruct (JS.truthy t); [discriminate |] |]; reflexivity. }
    rewrite !Hor in Heq by assumption.
    apply append_inj_l, ofNat_inj in Heq. exact Heq.
Qed.

Lemma extractComments_ids_witness :
  Content.extractComments sampleThread !! 1%nat = Some sampleRecord
  /\ (Z.of_nat 1 < 2 ^ 53)%Z
  /\ Dom.getAttribute (Dom.node (Content.CommentData.element sampleRecord)) "depth"
     = Some (JS.ofNat 1)
  /\ Content.CommentData.id sampleRecord = "comment-1"
  /\ Content.CommentData.depth sampleRecord = Some (Z.of_nat 1).
Proof.
  assert (H : Content.extractComments sampleThread !! 1%nat = Some sampleRecord)
    by (vm_compute; reflexivity).
  assert (H1 : (Z.of_nat 1 < 2 ^ 53)%Z) by reflexivity.
  assert (H2 : Dom.getAttribute (Dom.node (Content.CommentData.element sampleRecord)) "depth"
               = Some (JS.ofNat 1)) by (vm_compute; reflexivity).
  split; [exact H | split; [exact H1 | split; [exact H2 |]]].
  destruct (extractComments_ids sampleThread 1%nat sampleRecord H) as (Hid & _ & _ & Hd & _).
  split; [exact Hid | exact (Hd 1%nat H1 H2)].
Defined.

(** ** The queue and the answers of the listener *)

(** Only the end of an extraction and a change of address touch the
    comments, the post and the queue. *)
Lemma step_contentOf (e : Content.Event) (s : Content.State) :
  contentOf (Content.step e s) = contentOf s
  \/ (exists doc, e = Content.Extracted doc)
  \/ e = Content.UrlChanged.
Proof.
  assert (Hread : forall i x, contentOf x = contentOf s ->
                              contentOf (Content.readContent i x) = contentOf s).
  { intros i x <-. unfold contentOf.
    destruct (readContent_keeps i x) as (-> & -> & -> & _).
    destruct (readContent_frame i x) as (_ & -> & _). reflexivity. }
  destruct e as [request | u | u | | locale names | doc | voices |]; cbn [Content.step];
    [left | left | left | left | left | right; left; eauto | left | right; right; reflexivity].
  - destruct request; cbn [Content.onMessage]; try reflexivity.
    + destruct (Speech.paused (Content.synthesis s)); [reflexivity |].
      destruct (negb (Speech.speaking (Content.synthesis s))); [| reflexivity].
      apply Hread. reflexivity.
    + destruct (Speech.speaking (Content.synthesis s)); reflexivity.
    + cbn [Content.setSynthesis Content.currentIndex Content.allContent].
      destruct (_ <? _)%Z; [apply Hread |]; reflexivity.
    + cbn [Content.setSynthesis Content.currentIndex Content.allContent].
      destruct (0 <? _)%Z; apply Hread; reflexivity.
  - destruct (Speech.heap (Content.synthesis s) !! u); [| reflexivity].
    unfold Content.onend.
    cbn [Content.setSynthesis Content.currentIndex Content.allContent].
    destruct (_ <? _)%Z; reflexivity.
  - destruct (Speech.heap (Content.synthesis s) !! u); reflexivity.
  - destruct (Content.timers s) as [|n]; [reflexivity |]. apply Hread. reflexivity.
  - unfold Content.extractionRequested.
    cbn [Content.setSelectedVoiceNames Content.voiceLocale].
    destruct (String.eqb locale (Content.voiceLocale s)); reflexivity.
  - reflexivity.
Qed.

Lemma step_queueBuilt (e : Content.Event) (s : Content.State) :
  queueBuilt s -> queueBuilt (Content.step e s).
Proof.
  intros H. destruct (step_contentOf e s) as [E | [[doc ->] | ->]].
  - unfold queueBuilt, contentOf in *. injection E as -> -> -> ->. exact H.
  - cbn [Content.step]. unfold Content.extracted.
    destruct (Content.extractPostContent doc) as [t b]. reflexivity.
  - reflexivity.
Qed.

Lemma run_queueBuilt (events : list Content.Event) (s : Content.State) :
  queueBuilt s -> queueBuilt (Content.run events s).
Proof.
  revert s. induction events as [|e events IH]; intros s H; [exact H |].
  apply IH, step_queueBuilt, H.
Qed.

Lemma loaded_queueBuilt voices : queueBuilt (Content.loaded voices).
Proof. reflexivity. Qed.

(** The layout of the queue: the title if there is one, the body if there
    is one, then the comments in their order. *)
Lemma buildContent_length t b cs :
  Z.of_nat (length (Content.buildContent t b cs))
  = (b2z (JS.truthy t) + b2z (JS.truthy b) + Z.of_nat (length cs))%Z.
Proof.
  unfold Content.buildContent. rewrite !length_app, length_map.
  destruct (JS.truthy t), (JS.truthy b); cbn [length b2z]; lia.
Qed.

Lemma map_lookup {A B : Type} (f : A -> B) (l : list A) (i : nat) :
  List.map f l !! i = option_map f (l !! i).
Proof.
  revert i. induction l as [|a l IH]; intros [|i]; cbn; try reflexivity. apply IH.
Qed.

Lemma buildContent_lookup t b cs (i : Z) :
  (0 <= i)%Z ->
  JS.nth (Content.buildContent t b cs) i =
  if (i <? b2z (JS.truthy t))%Z then Some (Content.Item.mk Content.title t None None None)
  else if (i <? b2z (JS.truthy t) + b2z (JS.truthy b))%Z
       then Some (Content.Item.mk Content.body b None None None)
       else
         option_map
           (fun c =>
              Content.Item.mk Content.comment (Content.CommentData.text c)
                (Content.CommentData.author c) (Some (Content.CommentData.depth c))
                (Some (Content.CommentData.id c)))
           (JS.nth cs (i - (b2z (JS.truthy t) + b2z (JS.truthy b)))).
Proof.
  intros Hi. unfold Content.buildContent.
  rewrite !nth_nonneg by (destruct (JS.truthy t), (JS.truthy b); cbn [b2z]; lia || exact Hi).
  destruct (JS.truthy t), (JS.truthy b); cbn [b2z app].
  - destruct (Z.ltb_spec i 1).
    { replace i with 0%Z by lia. reflexivity. }
    destruct (Z.ltb_spec i (1 + 1)).
    { replace i with 1%Z by lia. reflexivity. }
    replace (Z.to_nat i) with (S (S (Z.to_nat (i - (1 + 1))))) by lia.
    rewrite ?lookup_cons. rewrite map_lookup.
    rewrite nth_nonneg by lia. reflexivity.
  - destruct (Z.ltb_spec i 1).
    { replace i with 0%Z by lia. reflexivity. }
    destruct (Z.ltb_spec i (1 + 0)); [lia |].
    replace (Z.to_nat i) with (S (Z.to_nat (i - (1 + 0)))) by lia.
    rewrite ?lookup_cons. rewrite map_lookup.
    rewrite nth_nonneg by lia. reflexivity.
  - destruct (Z.ltb_spec i 0); [lia |].
    destruct (Z.ltb_spec i (0 + 1)).
    { replace i with 0%Z by lia. reflexivity. }
    replace (Z.to_nat i) with (S (Z.to_nat (i - (0 + 1)))) by lia.
    rewrite ?lookup_cons. rewrite map_lookup.
    rewrite nth_nonneg by lia. reflexivity.
  - destruct (Z.ltb_spec i 0); [lia |].
    destruct (Z.ltb_spec i (0 + 0)); [lia |].
    replace (i - (0 + 0))%Z with i by lia.
    rewrite map_lookup, nth_nonneg by lia. reflexivity.
Qed.

Lemma b2z_range b : (0 <= b2z b <= 1)%Z.
Proof. destruct b; cbn; lia. Qed.

Lemma extractComments_count doc :
  (Z.of_nat (length (Content.extractComments doc)) <= Content.countComments doc)%Z.
Proof.
  unfold Content.extractComments, Content.walkComments, Content.countComments.
  destruct (walk_spec (Dom.querySelectorAll Content.commentSelector doc) ([], 0%Z))
    as (_ & H & _); [constructor |].
  apply (f_equal (@length _)) in H. rewrite length_map in H. cbn [fst List.map app] in H.
  rewrite H. pose proof (List.filter_length_le recorded
                           (Dom.querySelectorAll Content.commentSelector doc)). lia.
Qed.

(** X9. An [extractComments] request leaves the comments extracted from the
    document as the expansion left it and the cursor at 0; its answer
    carries these comments, their number as [count] and, as [totalItems],
    this number and one for a title and one for a body; [count] is at most
    the [extractionProgress] the run ends with; [getState] right after
    answers the same comments and the same total. *)
Theorem extractComments_answer :
  forall (W : Type) (host : Content.Host W) (request : Listener.ExtractRequest.t)
         (x : Listener.Script W),
    let x' := fst (Listener.extractComments host request x) in
    let a := snd (Listener.extractComments host request x) in
    let s := Listener.playback x' in
    Content.comments s = Content.extractComments (Content.document (Listener.page x'))
    /\ Listener.ExtractAnswer.comments a = List.map Listener.summary (Content.comments s)
    /\ Listener.ExtractAnswer.count a = Z.of_nat (length (Content.comments s))
    /\ Listener.ExtractAnswer.totalItems a
       = (b2z (Listener.ExtractAnswer.hasTitle a) + b2z (Listener.ExtractAnswer.hasBody a)
          + Listener.ExtractAnswer.count a)%Z
    /\ (Listener.ExtractAnswer.count a <= Content.extractionProgress (Listener.page x'))%Z
    /\ Content.isExtracting (Listener.page x') = false
    /\ Content.currentIndex s = 0%Z
    /\ Listener.StateAnswer.comments (Listener.getState x') = Listener.ExtractAnswer.comments a
    /\ Listener.StateAnswer.totalItems (Listener.getState x')
       = Listener.ExtractAnswer.totalItems a.
Proof.
  intros W host request x x' a s. subst s a x'. unfold Listener.extractComments.
  cbv zeta. cbn [fst snd Listener.playback Listener.page].
  match goal with
  | |- context [Content.expandCommentsToDepth ?h ?a ?b ?c ?d ?y] =>
      destruct (expand_progress h a b c d y) as [Hx Hp];
      generalize dependent (Content.expandCommentsToDepth h a b c d y)
  end.
  intros p Hx Hp.
  match goal with
  | |- context [Content.extractionRequested ?l ?v ?y] =>
      generalize (Content.extractionRequested l v y)
  end.
  intros s0. unfold Content.extracted.
  destruct (Content.extractPostContent (Content.document p)) as [t b] eqn:Epost.
  cbn [Content.setContent Content.setCurrentIndex Content.comments Content.allContent
       Content.postTitle Content.postBody Content.currentIndex
       Listener.ExtractAnswer.comments Listener.ExtractAnswer.count
       Listener.ExtractAnswer.totalItems Listener.ExtractAnswer.hasTitle
       Listener.ExtractAnswer.hasBody].
  repeat apply conj; try reflexivity.
  - rewrite buildContent_length. reflexivity.
  - rewrite Hp. apply extractComments_count.
  - exact Hx.
Qed.

(** What a request leaves in the script and says in its answer. *)
Lemma extractComments_settings {W : Type} (host : Content.Host W)
    (request : Listener.ExtractRequest.t) (x : Listener.Script W) :
  let x' := fst (Listener.extractComments host request x) in
  let a := snd (Listener.extractComments host request x) in
  (Listener.maxDepth x' = Listener.ExtractAnswer.maxDepth a
   /\ Listener.ExtractAnswer.maxDepth a
      = Listener.given (Listener.ExtractRequest.maxDepth request) (Listener.maxDepth x))
  /\ (Listener.maxTopLevelComments x' = Listener.ExtractAnswer.maxTopLevelComments a
      /\ Listener.ExtractAnswer.maxTopLevelComments a
         = Listener.given (Listener.ExtractRequest.maxTopLevelComments request)
             (Listener.maxTopLevelComments x))
  /\ (Listener.maxTotalComments x' = Listener.ExtractAnswer.maxTotalComments a
      /\ Listener.ExtractAnswer.maxTotalComments a
         = Listener.given (Listener.ExtractRequest.maxTotalComments request)
             (Listener.maxTotalComments x))
  /\ (Listener.expansionStrategy x' = Listener.ExtractAnswer.expansionStrategy a
      /\ Listener.ExtractAnswer.expansionStrategy a
         = Listener.given (Listener.ExtractRequest.expansionStrategy request)
             (Listener.expansionStrategy x))
  /\ (Content.voiceLocale (Listener.playback x') = Listener.ExtractAnswer.voiceLocale a
      /\ Listener.ExtractAnswer.voiceLocale a
         = JS.orElse (Listener.ExtractRequest.voiceLocale request)
             (Content.voiceLocale (Listener.playback x)))
  /\ Content.selectedVoiceNames (Listener.playback x')
     = Listener.given (Listener.ExtractRequest.selectedVoices request) [].
Proof.
  unfold Listener.extractComments. cbv zeta.
  cbn [fst snd Listener.playback Listener.maxDepth Listener.maxTopLevelComments
       Listener.maxTotalComments Listener.expansionStrategy
       Listener.ExtractAnswer.maxDepth Listener.ExtractAnswer.maxTopLevelComments
       Listener.ExtractAnswer.maxTotalComments Listener.ExtractAnswer.expansionStrategy
       Listener.ExtractAnswer.voiceLocale].
  match goal with
  | |- context [Content.expandCommentsToDepth ?h ?a ?b ?c ?d ?y] =>
      generalize (Content.expandCommentsToDepth h a b c d y)
  end.
  intros p. unfold Content.extracted.
  destruct (Content.extractPostContent (Content.document p)) as [t b].
  cbn [Content.setContent Content.setCurrentIndex Content.voiceLocale
       Content.selectedVoiceNames].
  unfold Content.extractionRequested.
  cbn [Content.setSelectedVoiceNames Content.voiceLocale].
  repeat split;
    match goal with
    | |- context [String.eqb ?l ?v] => destruct (String.eqb_spec l v) as [E | E]
    end; try reflexivity.
  symmetry. exact E.
Qed.

(** X10. A request that gives no field runs with the depth, the limits, the
    strategy and the locale of the request before it, and with no voice
    name selected: the voice names are the one setting that a request does
    not keep. *)
Theorem extraction_settings_persist :
  forall (W : Type) (host : Content.Host W) (request : Listener.ExtractRequest.t)
         (x : Listener.Script W),
    let first := Listener.extractComments host request x in
    let second := Listener.extractComments host bareRequest (fst first) in
    Listener.ExtractAnswer.maxDepth (snd second) = Listener.ExtractAnswer.maxDepth (snd first)
    /\ Listener.ExtractAnswer.maxTopLevelComments (snd second)
       = Listener.ExtractAnswer.maxTopLevelComments (snd first)
    /\ Listener.ExtractAnswer.maxTotalComments (snd second)
       = Listener.ExtractAnswer.maxTotalComments (snd first)
    /\ Listener.ExtractAnswer.expansionStrategy (snd second)
       = Listener.ExtractAnswer.expansionStrategy (snd first)
    /\ Listener.ExtractAnswer.voiceLocale (snd second)
       = Listener.ExtractAnswer.voiceLocale (snd first)
    /\ Content.selectedVoiceNames (Listener.playback (fst first))
       = Listener.given (Listener.ExtractRequest.selectedVoices request) []
    /\ Content.selectedVoiceNames (Listener.playback (fst second)) = [].
Proof.
  intros W host request x first second.
  destruct (extractComments_settings host request x)
    as ((A1 & _) & (B1 & _) & (C1 & _) & (D1 & _) & (E1 & _) & F1).
  destruct (extractComments_settings host bareRequest (fst first))
    as ((_ & A2) & (_ & B2) & (_ & C2) & (_ & D2) & (_ & E2) & F2).
  fold first in A1, B1, C1, D1, E1, F1. fold second in A2, B2, C2, D2, E2, F2.
  cbn [bareRequest Listener.given Listener.ExtractRequest.maxDepth
       Listener.ExtractRequest.maxTopLevelComments Listener.ExtractRequest.maxTotalComments
       Listener.ExtractRequest.expansionStrategy Listener.ExtractRequest.voiceLocale
       Listener.ExtractRequest.selectedVoices JS.orElse] in A2, B2, C2, D2, E2, F2.
  rewrite A2, B2, C2, D2, E2, A1, B1, C1, D1, E1.
  repeat split; assumption.
Qed.

(** X11. In the answer to [getState], whatever happened since the script was
    loaded: [totalItems] is [totalComments] and one for a title and one for
    a body; the cursor is within the items; [currentType] is null exactly
    when there is no item, ['title'] exactly at index 0 under a title,
    ['body'] exactly at the last index before the comments under a body, and
    ['comment'] exactly from there on. *)
Theorem getState_counts :
  forall (W : Type) (voices : list Speech.Voice) (events : list Content.Event)
         (maxDepth maxTopLevel maxTotal : Z) (strategy : Content.Strategy)
         (page : Content.Extraction W),
    let a :=
      Listener.getState
        (Listener.mkScript (Content.run events (Content.loaded voices))
           maxDepth maxTopLevel maxTotal strategy page) in
    let offset := Popup.titleBodyOffset (Some a) in
    Listener.StateAnswer.totalItems a = (offset + Listener.StateAnswer.totalComments a)%Z
    /\ Listener.StateAnswer.totalComments a
       = Z.of_nat (length (Listener.StateAnswer.comments a))
    /\ (0 <= Listener.StateAnswer.currentIndex a
          <= Z.max 0 (Listener.StateAnswer.totalItems a - 1))%Z
    /\ (Listener.StateAnswer.currentType a = None
        <-> Listener.StateAnswer.totalItems a = 0%Z)
    /\ (Listener.StateAnswer.currentType a = Some Content.title
        <-> Listener.StateAnswer.hasTitle a = true
            /\ Listener.StateAnswer.currentIndex a = 0%Z)
    /\ (Listener.StateAnswer.currentType a = Some Content.body
        <-> Listener.StateAnswer.hasBody a = true
            /\ Listener.StateAnswer.currentIndex a = (offset - 1)%Z)
    /\ (Listener.StateAnswer.currentType a = Some Content.comment
        <-> (offset <= Listener.StateAnswer.currentIndex a
               < Listener.StateAnswer.totalItems a)%Z).
Proof.
  intros W voices events maxDepth maxTopLevel maxTotal strategy page a offset.
  set (s := Content.run events (Content.loaded voices)) in *.
  assert (Hq : queueBuilt s) by apply run_queueBuilt, loaded_queueBuilt.
  assert (Hb : inBounds (Content.currentIndex s) (length (Content.allContent s))).
  { apply run_bounds. unfold inBounds. cbn. lia. }
  unfold inBounds in Hb. unfold queueBuilt in Hq.
  subst a offset. unfold Listener.getState, Popup.titleBodyOffset.
  cbn [Listener.playback Popup.titleBodyOffset
       Listener.StateAnswer.totalItems Listener.StateAnswer.totalComments
       Listener.StateAnswer.comments Listener.StateAnswer.currentIndex
       Listener.StateAnswer.currentType Listener.StateAnswer.hasTitle
       Listener.StateAnswer.hasBody].
  rewrite length_map.
  pose proof (buildContent_length (Content.postTitle s) (Content.postBody s)
                (Content.comments s)) as Hlen.
  pose proof (buildContent_lookup (Content.postTitle s) (Content.postBody s)
                (Content.comments s) (Content.currentIndex s) ltac:(lia)) as Hlook.
  rewrite <- Hq in Hlen, Hlook. rewrite Hlook. clear Hlook.
  set (n := Z.of_nat (length (Content.allContent s))) in *.
  set (i := Content.currentIndex s) in *.
  set (t := JS.truthy (Content.postTitle s)) in *.
  set (b := JS.truthy (Content.postBody s)) in *.
  assert (Ht : b2z t = if t then 1%Z else 0%Z) by reflexivity.
  assert (Hbb : b2z b = if b then 1%Z else 0%Z) by reflexivity.
  rewrite <- Ht, <- Hbb.
  pose proof (b2z_range t) as Rt. pose proof (b2z_range b) as Rb.
  assert (Hc : forall k, (0 <= k)%Z ->
             (k < Z.of_nat (length (Content.comments s)))%Z
             <-> exists c, JS.nth (Content.comments s) k = Some c).
  { intros k Hk. rewrite nth_nonneg by exact Hk. split.
    - intros H. apply lookup_lt_is_Some. lia.
    - intros H. apply lookup_lt_is_Some in H. lia. }
  assert (Hnth : match JS.nth (Content.comments s) (i - (b2z t + b2z b)) with
                 | Some _ => (i - (b2z t + b2z b) < Z.of_nat (length (Content.comments s)))%Z
                 | None => (b2z t + b2z b <= i)%Z ->
                           (Z.of_nat (length (Content.comments s)) <= i - (b2z t + b2z b))%Z
                 end).
  { destruct (JS.nth (Content.comments s) (i - (b2z t + b2z b))) as [c|] eqn:E.
    - destruct (Z_lt_le_dec (i - (b2z t + b2z b)) 0) as [Hneg | Hpos].
      + unfold JS.nth in E. destruct (Z.ltb_spec (i - (b2z t + b2z b)) 0); [discriminate | lia].
      + apply Hc; eauto.
    - intros Hoff.
      destruct (Z_lt_le_dec (i - (b2z t + b2z b)) (Z.of_nat (length (Content.comments s))))
        as [Hlt | Hge]; [| exact Hge].
      apply Hc in Hlt as [c Hc']; [congruence | lia]. }
  clear Hc.
  destruct (Z.ltb_spec i (b2z t));
    [| destruct (Z.ltb_spec i (b2z t + b2z b));
       [| destruct (JS.nth (Content.comments s) (i - (b2z t + b2z b)))]];
    cbn [option_map Content.Item.type];
    destruct t, b; cbn [b2z] in *;
    repeat apply conj; try lia;
    intros Hx; try discriminate Hx; try reflexivity; try lia;
    try (destruct Hx as [Hx1 Hx2]; try discriminate Hx1; lia);
    try (split; [reflexivity | lia]).
Qed.

Lemma getState_counts_witness :
  let a :=
    Listener.getState
      (Listener.mkScript
         (Content.run (sampleEvents ++ [Content.Message Content.play])
            (Content.loaded sampleVoices))
         3 50 300 Content.Balanced (freshExtraction sampleThread)) in
  Listener.StateAnswer.hasTitle a = true
  /\ Listener.StateAnswer.currentIndex a = 0%Z
  /\ Listener.StateAnswer.currentType a = Some Content.title.
Proof.
  intros a.
  assert (H : Listener.StateAnswer.hasTitle a = true
              /\ Listener.StateAnswer.currentIndex a = 0%Z)
    by (vm_compute; split; reflexivity).
  split; [exact (proj1 H) | split; [exact (proj2 H) |]].
  destruct (getState_counts unit sampleVoices
              (sampleEvents ++ [Content.Message Content.play]) 3 50 300 Content.Balanced
              (freshExtraction sampleThread)) as (_ & _ & _ & _ & Ht & _).
  exact (proj2 Ht H).
Defined.

(** X12. When the item under the cursor is a comment, the comment that the
    progress display of the popup names,
    [comments[currentIndex - titleBodyOffset]], is the record of that item:
    it has its text, its author and its id. *)
Theorem popup_names_current_comment :
  forall (W : Type) (voices : list Speech.Voice) (events : list Content.Event)
         (maxDepth maxTopLevel maxTotal : Z) (strategy : Content.Strategy)
         (page : Content.Extraction W),
    let s := Content.run events (Content.loaded voices) in
    let state :=
      Some (Listener.getState
              (Listener.mkScript s maxDepth maxTopLevel maxTotal strategy page)) in
    forall item : Content.Item.t,
      JS.nth (Content.allContent s) (Content.currentIndex s) = Some item ->
      Content.Item.type item = Content.comment ->
      exists c : Content.CommentData.t,
        JS.nth (Content.comments s) (Popup.currentCommentIndex state) = Some c
        /\ Popup.displayedComment state = Some (Listener.summary c)
        /\ Content.Item.text item = Content.CommentData.text c
        /\ Content.Item.author item = Content.CommentData.author c
        /\ Content.Item.id item = Some (Content.CommentData.id c).
Proof.
  intros W voices events maxDepth maxTopLevel maxTotal strategy page s state item Hitem Htype.
  assert (Hq : queueBuilt s) by apply run_queueBuilt, loaded_queueBuilt.
  assert (Hb : inBounds (Content.currentIndex s) (length (Content.allContent s))).
  { apply run_bounds. unfold inBounds. cbn. lia. }
  unfold inBounds in Hb. unfold queueBuilt in Hq.
  pose proof (buildContent_lookup (Content.postTitle s) (Content.postBody s)
                (Content.comments s) (Content.currentIndex s) ltac:(lia)) as Hlook.
  rewrite <- Hq, Hitem in Hlook.
  assert (Hidx : Popup.currentCommentIndex state
                 = (Content.currentIndex s
                    - (b2z (JS.truthy (Content.postTitle s))
                       + b2z (JS.truthy (Content.postBody s))))%Z
                 /\ Listener.StateAnswer.currentType
                      (Listener.getState
                         (Listener.mkScript s maxDepth maxTopLevel maxTotal strategy page))
                    = Some Content.comment).
  { subst state. unfold Popup.currentCommentIndex, Listener.getState.
    cbn [Listener.playback Listener.StateAnswer.currentType].
    rewrite Hitem. cbn [option_map]. rewrite Htype. split; reflexivity. }
  destruct Hidx as [Hidx Hty].
  destruct (Z.ltb_spec (Content.currentIndex s) (b2z (JS.truthy (Content.postTitle s)))).
  { injection Hlook as ->. discriminate. }
  destruct (Z.ltb_spec (Content.currentIndex s)
              (b2z (JS.truthy (Content.postTitle s))
               + b2z (JS.truthy (Content.postBody s)))).
  { injection Hlook as ->. discriminate. }
  destruct (JS.nth (Content.comments s)
              (Content.currentIndex s
               - (b2z (JS.truthy (Content.postTitle s))
                  + b2z (JS.truthy (Content.postBody s))))) as [c|] eqn:Ec;
    [| discriminate].
  injection Hlook as ->.
  exists c. rewrite Hidx. split; [exact Ec |].
  split; [| repeat split].
  unfold Popup.displayedComment. subst state. cbv beta iota. rewrite Hty, Hidx.
  destruct (Z.leb_spec 0 (Content.currentIndex s
                          - (b2z (JS.truthy (Content.postTitle s))
                             + b2z (JS.truthy (Content.postBody s))))); [| lia].
  unfold Popup.comments, Listener.getState. cbn [Listener.StateAnswer.comments Listener.playback].
  rewrite nth_nonneg in Ec by lia. rewrite nth_nonneg by lia.
  rewrite map_lookup, Ec. reflexivity.
Qed.

Lemma popup_names_current_comment_witness :
  JS.nth
    (Content.allContent
       (Content.run (sampleEvents ++ [Content.Message Content.next])
          (Content.loaded sampleVoices)))
    (Content.currentIndex
       (Content.run (sampleEvents ++ [Content.Message Content.next])
          (Content.loaded sampleVoices)))
  = Some (Content.Item.mk Content.comment "See now" (Some "alice") (Some (Some 0%Z))
            (Some "t1_a"))
  /\ exists c : Content.CommentData.t,
       Popup.displayedComment
         (Some (Listener.getState
                  (Listener.mkScript
                     (Content.run (sampleEvents ++ [Content.Message Content.next])
                        (Content.loaded sampleVoices))
                     3 50 300 Content.Balanced (freshExtraction sampleThread))))
       = Some (Listener.summary c)
       /\ Content.CommentData.author c = Some "alice".
Proof.
  match goal with |- ?A /\ _ => assert (H : A) by (vm_compute; reflexivity) end.
  split; [exact H |].
  destruct (popup_names_current_comment unit sampleVoices
              (sampleEvents ++ [Content.Message Content.next]) 3 50 300 Content.Balanced
              (freshExtraction sampleThread) _ H eq_refl)
    as (c & _ & Hd & _ & Ha & _).
  exists c. split; [exact Hd | symmetry; exact Ha].
Defined.

(** X13. The voice count of [getState] is the size of the pool when no voice
    name is selected, and the size of the pool the allocator rotates over
    when a selected name is the name of a voice of the pool; when names are
    selected and none is, the count is 0 while the allocator rotates over
    the whole pool. *)
Theorem getState_voiceCount :
  forall (W : Type) (x : Listener.Script W),
    let s := Listener.playback x in
    let pool := Content.filteredVoices s in
    let names := Content.selectedVoiceNames s in
    let count := Listener.StateAnswer.voiceCount (Listener.getState x) in
    (names = [] -> count = Z.of_nat (length pool))
    /\ ((exists v, In v pool /\ In (Speech.name v) names) ->
        count = Z.of_nat (length (restrictedPool pool names)))
    /\ (names <> [] -> (forall v, In v pool -> ~ In (Speech.name v) names) ->
        count = 0%Z
        /\ forall index : Z,
             Content.getVoiceForIndex pool true names index
             = JS.nth pool (Z.rem index (Z.of_nat (length pool)))).
Proof.
  intros W x s pool names count. subst count. unfold Listener.getState.
  cbn [Listener.StateAnswer.voiceCount]. fold s. fold pool. fold names.
  repeat apply conj.
  - intros ->. reflexivity.
  - intros (v & Hv & Hn).
    destruct names as [|a names']; [destruct Hn |]. cbn [length Nat.ltb Nat.leb].
    unfold restrictedPool.
    destruct (List.filter _ pool) as [|w l] eqn:E; [| reflexivity].
    exfalso. apply (proj1 (filter_nil_iff _ _)) with (x := v) in E; [| exact Hv].
    apply not_true_iff_false in E. apply E, listIncludes_spec, Hn.
  - intros Hne Hnone.
    assert (E : List.filter (fun v => Content.listIncludes names (Speech.name v)) pool = []).
    { apply filter_nil_iff. intros v Hv. apply not_true_iff_false.
      rewrite listIncludes_spec. apply Hnone, Hv. }
    destruct names as [|a names'] eqn:En; [congruence |]. cbn [length Nat.ltb Nat.leb].
    rewrite E. split; [reflexivity |]. intros index.
    destruct pool as [|v0 pool'] eqn:Ep.
    + cbn. unfold JS.nth. destruct (_ <? 0)%Z; reflexivity.
    + rewrite getVoiceForIndex_rotating by discriminate.
      unfold restrictedPool. rewrite E. reflexivity.
Qed.

Lemma getState_voiceCount_witness :
  Content.selectedVoiceNames (Listener.playback sampleScript) = []
  /\ Listener.StateAnswer.voiceCount (Listener.getState sampleScript)
     = Z.of_nat (length (Content.filteredVoices (Listener.playback sampleScript))).
Proof.
  assert (H : Content.selectedVoiceNames (Listener.playback sampleScript) = [])
    by (vm_compute; reflexivity).
  split; [exact H |].
  exact (proj1 (getState_voiceCount unit sampleScript) H).
Defined.

(** ** What is read, and when *)

Lemma spoken_app j1 j2 : spoken (j1 ++ j2) = spoken j1 ++ spoken j2.
Proof. apply omap_app. Qed.

Lemma spoken_silent new : Forall (speaksWithin 0) new -> spoken new = [].
Proof.
  induction 1 as [|e new He _ IH]; [reflexivity |].
  destruct e; cbn in *; try exact IH. lia.
Qed.

(** The utterances of the engine after [readContent]: those before, and
    one for the item read. *)
Lemma readContent_heap (i : Z) (s : Content.State) u ut :
  Speech.heap (Content.synthesis (Content.readContent i s)) !! u = Some ut ->
  Speech.heap (Content.synthesis s) !! u = Some ut
  \/ exists item, In item (Content.allContent s) /\ Speech.text ut = Content.Item.text item.
Proof.
  destruct (Z_lt_le_dec i 0) as [Hneg | Hpos];
    [| destruct (Z_lt_le_dec i (Z.of_nat (length (Content.allContent s)))) as [Hlt | Hge]].
  - rewrite readContent_out_of_range by lia. tauto.
  - destruct (readContent_in_range i s ltac:(lia)) as (item & Hitem & ->).
    cbn.
    destruct (Nat.eq_dec (Speech.fresh (Content.synthesis s)) u) as [<- | Hne].
    + rewrite lookup_insert_eq. intros [= <-]. right. exists item. split; [| reflexivity].
      rewrite nth_nonneg in Hitem by lia.
      apply list_elem_of_lookup_2, list_elem_of_In in Hitem. exact Hitem.
    + rewrite lookup_insert_ne by exact Hne. tauto.
  - rewrite readContent_out_of_range by lia. tauto.
Qed.

Lemma finish_heap u y : Speech.heap (Speech.finish u y) = Speech.heap y.
Proof.
  unfold Speech.finish. destruct (Speech.queue y) as [|v rest]; [reflexivity |].
  destruct (v =? u)%nat; reflexivity.
Qed.

Lemma extractComments_texts doc :
  Forall (fun c => Content.CommentData.text c <> EmptyString) (Content.extractComments doc).
Proof.
  unfold Content.extractComments, Content.walkComments.
  destruct (walk_spec (Dom.querySelectorAll Content.commentSelector doc) ([], 0%Z))
    as (H & _); [constructor |].
  eapply Forall_impl; [exact H |]. intros c Hc. apply Hc.
Qed.

Lemma step_speakable (e : Content.Event) (s : Content.State) :
  speakable s -> speakable (Content.step e s).
Proof.
  intros [Hq Hh].
  assert (Hread : forall i x,
             Content.allContent x = Content.allContent s ->
             Speech.heap (Content.synthesis x) = Speech.heap (Content.synthesis s) ->
             speakable (Content.readContent i x)).
  { intros i x Ha Hs. split.
    - destruct (readContent_frame i x) as (_ & -> & _). rewrite Ha. exact Hq.
    - intros u ut Hu. apply readContent_heap in Hu as [Hu | (item & Hin & ->)].
      + rewrite Hs in Hu. eapply Hh, Hu.
      + rewrite Ha in Hin. eapply List.Forall_forall in Hq; [exact Hq | exact Hin]. }
  assert (Hsame : forall x,
             Content.allContent x = Content.allContent s ->
             Speech.heap (Content.synthesis x) = Speech.heap (Content.synthesis s) ->
             speakable x).
  { intros x Ha Hs. split; [rewrite Ha; exact Hq | rewrite Hs; exact Hh]. }
  destruct e as [request | u | u | | locale names | doc | voices |]; cbn [Content.step].
  - destruct request; cbn [Content.onMessage]; try (apply Hsame; reflexivity).
    + destruct (Speech.paused (Content.synthesis s)); [apply Hsame; reflexivity |].
      destruct (negb (Speech.speaking (Content.synthesis s))); [| apply Hsame; reflexivity].
      apply Hread; reflexivity.
    + destruct (Speech.speaking (Content.synthesis s)); apply Hsame; reflexivity.
    + cbn [Content.setSynthesis Content.currentIndex Content.allContent].
      destruct (_ <? _)%Z; [apply Hread | apply Hsame]; reflexivity.
    + cbn [Content.setSynthesis Content.currentIndex Content.allContent].
      destruct (0 <? _)%Z; apply Hread; reflexivity.
  - destruct (Speech.heap (Content.synthesis s) !! u); [| apply Hsame; reflexivity].
    unfold Content.onend.
    cbn [Content.setSynthesis Content.currentIndex Content.allContent].
    destruct (_ <? _)%Z; apply Hsame; try reflexivity; cbn; apply finish_heap.
  - destruct (Speech.heap (Content.synthesis s) !! u); [| apply Hsame; reflexivity].
    apply Hsame; [reflexivity |]. cbn. apply finish_heap.
  - destruct (Content.timers s) as [|n]; [apply Hsame; reflexivity |].
    apply Hread; reflexivity.
  - unfold Content.extractionRequested.
    cbn [Content.setSelectedVoiceNames Content.voiceLocale].
    destruct (String.eqb locale (Content.voiceLocale s)); apply Hsame; reflexivity.
  - unfold Content.extracted, Content.extractPostContent.
    split; [| exact Hh].
    cbn [Content.setContent Content.allContent]. unfold Content.buildContent.
    repeat apply Forall_app_2.
    + match goal with |- context [JS.truthy ?t] => destruct (JS.truthy t) eqn:E end;
        [| constructor].
      constructor; [| constructor]. apply truthy_nonempty, E.
    + match goal with |- context [JS.truthy ?t] => destruct (JS.truthy t) eqn:E end;
        [| constructor].
      constructor; [| constructor]. apply truthy_nonempty, E.
    + apply List.Forall_forall. intros item Hitem.
      apply in_map_iff in Hitem as (c & <- & Hc).
      pose proof (extractComments_texts doc) as Ht.
      eapply List.Forall_forall in Ht; [exact Ht | exact Hc].
  - apply Hsame; reflexivity.
  - split; [constructor | exact Hh].
Qed.

Lemma run_speakable (events : list Content.Event) (s : Content.State) :
  speakable s -> speakable (Content.run events s).
Proof.
  revert s. induction events as [|e events IH]; intros s H; [exact H |].
  apply IH, step_speakable, H.
Qed.

(** X14. Whatever happened since the script was loaded, no item of the queue
    has an empty text, and no utterance the script made has one. *)
Theorem no_empty_utterance :
  forall (voices : list Speech.Voice) (events : list Content.Event),
    let s := Content.run events (Content.loaded voices) in
    (forall item, In item (Content.allContent s) -> Content.Item.text item <> EmptyString)
    /\ (forall u ut, Speech.heap (Content.synthesis s) !! u = Some ut ->
                     Speech.text ut <> EmptyString).
Proof.
  intros voices events s.
  assert (H : speakable s).
  { apply run_speakable. split; [constructor |]. intros u ut Hu. cbn in Hu.
    rewrite lookup_empty in Hu. discriminate. }
  destruct H as [Hq Hh]. split; [| exact Hh].
  intros item Hitem. eapply List.Forall_forall in Hq; [exact Hq | exact Hitem].
Qed.

Lemma no_empty_utterance_witness :
  Speech.heap
    (Content.synthesis
       (Content.run (sampleEvents ++ [Content.Message Content.play])
          (Content.loaded sampleVoices)))
    !! 0%nat
  = Some sampleUtterance
  /\ Speech.text sampleUtterance <> EmptyString.
Proof.
  match goal with |- ?A /\ _ => assert (H : A) by (vm_compute; reflexivity) end.
  split; [exact H |].
  exact (proj2 (no_empty_utterance sampleVoices
                  (sampleEvents ++ [Content.Message Content.play]))
           0%nat sampleUtterance H).
Defined.

Lemma extractComments_identified doc :
  Forall (fun c => JS.truthy (Content.CommentData.id c) = true) (Content.extractComments doc).
Proof.
  apply List.Forall_forall. intros r Hr.
  apply list_elem_of_In, list_elem_of_lookup_1 in Hr as [k Hk].
  revert k r Hk. unfold Content.extractComments, Content.walkComments.
  apply walk_positions.
  - intros acc h r E Hne.
    destruct (visitComment_position acc h) as [E' | (r1 & E1 & _ & Hid & _)]; [congruence |].
    rewrite E in E1. apply app_inj_tail in E1 as [_ <-]. rewrite Hid.
    unfold JS.orElse.
    destruct (Dom.getAttribute (Dom.node h) "thingid") as [t|];
      [destruct (JS.truthy t) eqn:Et; [exact Et |] |]; reflexivity.
  - intros k r Hk. cbn in Hk. rewrite lookup_nil in Hk. discriminate.
Qed.

Lemma step_identified (e : Content.Event) (s : Content.State) :
  identified s -> identified (Content.step e s).
Proof.
  intros H. destruct (step_contentOf e s) as [E | [[doc ->] | ->]].
  - unfold identified, contentOf in *. injection E as -> _ _ _. exact H.
  - cbn [Content.step]. unfold Content.extracted, identified.
    destruct (Content.extractPostContent doc) as [t b].
    cbn [Content.setContent Content.comments]. apply extractComments_identified.
  - constructor.
Qed.

Lemma run_identified (events : list Content.Event) (voices : list Speech.Voice) :
  identified (Content.run events (Content.loaded voices)).
Proof.
  assert (H : forall s, identified s -> identified (Content.run events s)).
  { induction events as [|e events IH]; intros s Hs; [exact Hs |].
    apply IH, step_identified, Hs. }
  apply H. constructor.
Qed.

Lemma step_quotable (e : Content.Event) (s : Content.State) :
  readableEvent e = true ->
  Forall (fun c => quotable (Content.CommentData.id c) = true) (Content.comments s) ->
  Forall (fun c => quotable (Content.CommentData.id c) = true)
    (Content.comments (Content.step e s)).
Proof.
  intros He H. destruct (step_contentOf e s) as [E | [[doc ->] | ->]].
  - unfold contentOf in E. injection E as -> _ _ _. exact H.
  - cbn [Content.step]. unfold Content.extracted.
    destruct (Content.extractPostContent doc) as [t b].
    cbn [Content.setContent Content.comments].
    cbn [readableEvent] in He. unfold quotablePage in He.
    apply List.Forall_forall. intros c Hc.
    rewrite List.forallb_forall in He. apply He, Hc.
  - constructor.
Qed.

Lemma run_quotable (events : list Content.Event) (voices : list Speech.Voice) :
  forallb readableEvent events = true ->
  Forall (fun c => quotable (Content.CommentData.id c) = true)
    (Content.comments (Content.run events (Content.loaded voices))).
Proof.
  assert (H : forall s,
             forallb readableEvent events = true ->
             Forall (fun c => quotable (Content.CommentData.id c) = true)
               (Content.comments s) ->
             Forall (fun c => quotable (Content.CommentData.id c) = true)
               (Content.comments (Content.run events s))).
  { induction events as [|e events IH]; intros s He Hs; [exact Hs |].
    cbn [forallb] in He. apply andb_true_iff in He as [He Hes].
    apply IH; [exact Hes | apply step_quotable; assumption]. }
  intros He. apply H; [exact He | constructor].
Qed.

(** X15. Whatever happened since the script was loaded, the pages having
    comment ids that [highlightComment] can quote and the speeds set being
    rates that an utterance takes, [readContent] highlights an item right
    before it speaks it: the post for the title and for the body, and for a
    comment the comment of its id, which is never empty and is one of
    those ids. *)
Theorem highlight_precedes_speech :
  forall (voices : list Speech.Voice) (events : list Content.Event) (i : Z),
    let s := Content.run events (Content.loaded voices) in
    let offset := (b2z (JS.truthy (Content.postTitle s))
                   + b2z (JS.truthy (Content.postBody s)))%Z in
    let u := Speech.fresh (Content.synthesis s) in
    forallb readableEvent events = true ->
    (0 <= i < Z.of_nat (length (Content.allContent s)))%Z ->
    ((i < offset)%Z ->
     Content.journal (Content.readContent i s)
     = Content.journal s ++ [Content.HighlightPost; Content.Speak i u])
    /\ ((offset <= i)%Z ->
        exists c, JS.nth (Content.comments s) (i - offset) = Some c
                  /\ Content.CommentData.id c <> EmptyString
                  /\ quotable (Content.CommentData.id c) = true
                  /\ Content.journal (Content.readContent i s)
                     = Content.journal s
                       ++ [Content.HighlightComment (Content.CommentData.id c);
                           Content.Speak i u]).
Proof.
  intros voices events i s offset u Hplain Hi.
  pose proof (run_quotable events voices Hplain) as Hquot. fold s in Hquot.
  assert (Hq : queueBuilt s) by apply run_queueBuilt, loaded_queueBuilt.
  pose proof (run_identified events voices) as Hid. fold s in Hid.
  unfold queueBuilt in Hq.
  pose proof (buildContent_lookup (Content.postTitle s) (Content.postBody s)
                (Content.comments s) i ltac:(lia)) as Hlook.
  rewrite <- Hq in Hlook. fold offset in Hlook.
  destruct (readContent_in_range i s Hi) as (item & Hitem & ->). cbv zeta.
  rewrite Hitem in Hlook. fold u.
  pose proof (b2z_range (JS.truthy (Content.postTitle s))) as Rt.
  pose proof (b2z_range (JS.truthy (Content.postBody s))) as Rb.
  split.
  - intros Hlt.
    assert (Hty : Content.Item.type item = Content.title
                  \/ Content.Item.type item = Content.body).
    { destruct (Z.ltb_spec i (b2z (JS.truthy (Content.postTitle s))));
        [injection Hlook as ->; left; reflexivity |].
      destruct (Z.ltb_spec i offset); [injection Hlook as ->; right; reflexivity | lia]. }
    unfold Content.highlight. destruct Hty as [-> | ->]; cbn; rewrite <- app_assoc; reflexivity.
  - intros Hge.
    destruct (Z.ltb_spec i (b2z (JS.truthy (Content.postTitle s)))); [subst offset; lia |].
    destruct (Z.ltb_spec i offset); [lia |].
    destruct (JS.nth (Content.comments s) (i - offset)) as [c|] eqn:Ec; [| discriminate].
    injection Hlook as ->. exists c. split; [reflexivity |].
    assert (Hin : In c (Content.comments s)).
    { rewrite nth_nonneg in Ec by lia.
      apply list_elem_of_lookup_2, list_elem_of_In in Ec. exact Ec. }
    assert (Hc : JS.truthy (Content.CommentData.id c) = true).
    { eapply List.Forall_forall in Hid; [exact Hid | exact Hin]. }
    split; [intros Hempty; rewrite Hempty in Hc; discriminate |].
    split; [eapply List.Forall_forall in Hquot; [exact Hquot | exact Hin] |].
    unfold Content.highlight. cbn. rewrite Hc. cbn. rewrite <- app_assoc. reflexivity.
Qed.

Lemma highlight_precedes_speech_witness :
  forallb readableEvent sampleEvents = true
  /\ (0 <= 0 < Z.of_nat (length (Content.allContent sampleExtracted)))%Z
  /\ (0 < b2z (JS.truthy (Content.postTitle sampleExtracted))
          + b2z (JS.truthy (Content.postBody sampleExtracted)))%Z
  /\ Content.journal (Content.readContent 0 sampleExtracted)
     = Content.journal sampleExtracted
       ++ [Content.HighlightPost;
           Content.Speak 0 (Speech.fresh (Content.synthesis sampleExtracted))].
Proof.
  assert (H1 : (0 <= 0 < Z.of_nat (length (Content.allContent sampleExtracted)))%Z)
    by (vm_compute; split; [discriminate | reflexivity]).
  assert (H2 : (0 < b2z (JS.truthy (Content.postTitle sampleExtracted))
                    + b2z (JS.truthy (Content.postBody sampleExtracted)))%Z)
    by (vm_compute; reflexivity).
  assert (H0 : forallb readableEvent sampleEvents = true) by (vm_compute; reflexivity).
  split; [exact H0 | split; [exact H1 | split; [exact H2 |]]].
  exact (proj1 (highlight_precedes_speech sampleVoices sampleEvents 0 H0 H1) H2).
Defined.

(** X16. While an utterance is in flight and the engine is not paused,
    [play] changes nothing; [pause] pauses the engine and leaves its queue,
    a second [pause] changes nothing, and [play] after [pause] gives back
    the state before the pause, with the flags of a playing script. *)
Theorem pause_then_play_resumes :
  forall s : Content.State,
    Speech.speaking (Content.synthesis s) = true ->
    Speech.paused (Content.synthesis s) = false ->
    let s1 := Content.onMessage Content.pause s in
    Content.onMessage Content.play s = s
    /\ Speech.paused (Content.synthesis s1) = true
    /\ Speech.queue (Content.synthesis s1) = Speech.queue (Content.synthesis s)
    /\ Content.onMessage Content.pause s1 = s1
    /\ Content.onMessage Content.play s1 = Content.setFlags true false s.
Proof.
  intros s Hsp Hpa s1. subst s1. cbn [Content.onMessage].
  rewrite Hpa, Hsp. cbn [negb].
  cbn [Content.setFlags Content.setSynthesis Content.synthesis Speech.pause Speech.paused
       Speech.queue Speech.speaking].
  unfold Speech.speaking in Hsp. 
  destruct s as [cs i r pl pa [h fr q p] cu av fv uu vl sv pt pb ac tm j].
  cbn in *. subst p. destruct q; [discriminate |]. repeat split.
Qed.

Lemma pause_then_play_resumes_witness :
  Speech.speaking (Content.synthesis samplePlaying) = true
  /\ Speech.paused (Content.synthesis samplePlaying) = false
  /\ Content.onMessage Content.play (Content.onMessage Content.pause samplePlaying)
     = Content.setFlags true false samplePlaying.
Proof.
  assert (H1 : Speech.speaking (Content.synthesis samplePlaying) = true)
    by (vm_compute; reflexivity).
  assert (H2 : Speech.paused (Content.synthesis samplePlaying) = false)
    by (vm_compute; reflexivity).
  split; [exact H1 | split; [exact H2 |]].
  exact (proj2 (proj2 (proj2 (proj2 (pause_then_play_resumes samplePlaying H1 H2))))).
Defined.

Lemma reading_cons c f m : reading c f (S m) = (c, f) :: reading (c + 1) (S f) m.
Proof.
  unfold reading. cbn [seq List.map]. rewrite Z.add_0_r, Nat.add_0_r. f_equal.
  rewrite <- seq_shift, List.map_map. apply List.map_ext. intros k. f_equal; lia.
Qed.

(** What [readContent] does to the cursor, the engine and the journal on
    an index of the queue. *)
Lemma readContent_reads (i : Z) (x : Content.State) :
  (0 <= i < Z.of_nat (length (Content.allContent x)))%Z ->
  let s := Content.readContent i x in
  Content.currentIndex s = Content.currentIndex x
  /\ Content.allContent s = Content.allContent x
  /\ Content.timers s = Content.timers x
  /\ Speech.queue (Content.synthesis s)
     = Speech.queue (Content.synthesis x) ++ [Speech.fresh (Content.synthesis x)]
  /\ Speech.fresh (Content.synthesis s) = S (Speech.fresh (Content.synthesis x))
  /\ is_Some (Speech.heap (Content.synthesis s) !! Speech.fresh (Content.synthesis x))
  /\ Speech.paused (Content.synthesis s) = Speech.paused (Content.synthesis x)
  /\ Content.isPlaying s = true
  /\ spoken (Content.journal s)
     = spoken (Content.journal x) ++ [(i, Speech.fresh (Content.synthesis x))].
Proof.
  intros Hi s. subst s.
  destruct (readContent_in_range i x Hi) as (item & _ & ->). cbv zeta.
  destruct (highlight_frame item x) as (H1 & H2 & H3 & _ & new & H4 & H5).
  cbn. rewrite H1, H2, H3, H4, lookup_insert_eq.
  repeat split; [eexists; reflexivity |].
  rewrite !spoken_app, (spoken_silent new (H5 0%nat)), app_nil_r. reflexivity.
Qed.

Lemma listening_reads (m : nat) :
  forall (s : Content.State) (c : Z) (u : nat),
    Content.currentIndex s = c -> (0 <= c)%Z ->
    Z.of_nat (length (Content.allContent s)) = (c + 1 + Z.of_nat m)%Z ->
    Speech.queue (Content.synthesis s) = [u] ->
    is_Some (Speech.heap (Content.synthesis s) !! u) ->
    Content.timers s = 0%nat ->
    let f := Speech.fresh (Content.synthesis s) in
    let s' := Content.run (listening m u f) s in
    spoken (Content.journal s') = spoken (Content.journal s) ++ reading (c + 1) f m
    /\ Content.currentIndex s' = (c + Z.of_nat m)%Z
    /\ Content.isPlaying s' = false
    /\ Speech.queue (Content.synthesis s') = []
    /\ Content.timers s' = 0%nat
    /\ Content.allContent s' = Content.allContent s.
Proof.
  induction m as [|m IH]; intros s c u Hc Hc0 Hlen Hq [ut Hu] Ht f s'; subst s'.
  - cbn [listening Content.run List.fold_left Content.step]. rewrite Hu.
    unfold Content.onend.
    cbn [Content.setSynthesis Content.currentIndex Content.allContent].
    destruct (Z.ltb_spec (Content.currentIndex s)
                (Z.of_nat (length (Content.allContent s)) - 1)); [lia |].
    cbn. unfold Speech.finish. rewrite Hq, Nat.eqb_refl. cbn.
    rewrite spoken_app. cbn. rewrite app_nil_r.
    repeat split; [lia | exact Ht].
  - cbn [listening Content.run List.fold_left].
    change (List.fold_left (fun s e => Content.step e s) ?l ?x) with (Content.run l x).
    set (s1 := Content.step (Content.UtteranceEnd u) s).
    assert (E1 : s1 = Content.setTimers 1
                        (Content.setCurrentIndex (c + 1)
                           (Content.setSynthesis
                              (Speech.finish u (Content.synthesis s)) s))).
    { subst s1. cbn [Content.step]. rewrite Hu. unfold Content.onend.
      cbn [Content.setSynthesis Content.currentIndex Content.allContent Content.timers].
      destruct (Z.ltb_spec (Content.currentIndex s)
                  (Z.of_nat (length (Content.allContent s)) - 1)); [| lia].
      rewrite Ht, Hc. reflexivity. }
    set (x := Content.setTimers 0
                (Content.setCurrentIndex (c + 1)
                   (Content.setSynthesis (Speech.finish u (Content.synthesis s)) s))).
    assert (E2 : Content.step Content.Timeout s1 = Content.readContent (c + 1) x).
    { rewrite E1. reflexivity. }
    rewrite E2.
    assert (Hfin : Speech.finish u (Content.synthesis s)
                   = Speech.mkSynthesis (Speech.heap (Content.synthesis s))
                       (Speech.fresh (Content.synthesis s)) []
                       (Speech.paused (Content.synthesis s))).
    { unfold Speech.finish. rewrite Hq, Nat.eqb_refl. reflexivity. }
    destruct (readContent_reads (c + 1) x) as (R1 & R2 & R3 & R4 & R5 & R6 & _ & _ & R9).
    { subst x. cbn. lia. }
    assert (Hx : Speech.fresh (Content.synthesis x) = f
                 /\ Speech.queue (Content.synthesis x) = []
                 /\ Content.journal x = Content.journal s
                 /\ Content.allContent x = Content.allContent s).
    { subst x. cbn. rewrite Hfin. repeat split. }
    destruct Hx as (Hx1 & Hx2 & Hx3 & Hx4).
    rewrite Hx1 in R4, R5, R6, R9. rewrite Hx2 in R4. rewrite Hx3 in R9. rewrite Hx4 in R2.
    cbn [app] in R4.
    assert (P1 : Content.currentIndex (Content.readContent (c + 1) x) = (c + 1)%Z)
      by (rewrite R1; reflexivity).
    assert (P2 : Z.of_nat (length (Content.allContent (Content.readContent (c + 1) x)))
                 = (c + 1 + 1 + Z.of_nat m)%Z) by (rewrite R2; lia).
    assert (P3 : Content.timers (Content.readContent (c + 1) x) = 0%nat)
      by (rewrite R3; reflexivity).
    pose proof (IH (Content.readContent (c + 1) x) (c + 1)%Z f P1 ltac:(lia) P2 R4 R6 P3)
      as H.
    cbv zeta in H. rewrite R5 in H.
    destruct H as (I1 & I2 & I3 & I4 & I5 & I6).
    rewrite I1, R9, <- app_assoc, reading_cons.
    repeat split; [lia | exact I3 | exact I4 | exact I5 | rewrite I6; exact R2].
Qed.

(** X17. From a script at rest on a queue that [readContent] can read (ids
    that [highlightComment] can quote, a speed that an utterance takes as
    its rate), [play] and then the completion of each utterance and the
    timer it sets speak the items from the cursor to the last one, each
    once and in order, each with a new utterance; the script then rests
    with the cursor on the last item and nothing in flight. *)
Theorem reads_queue_in_order :
  forall (s : Content.State) (m : nat),
    let c := Content.currentIndex s in
    let f := Speech.fresh (Content.synthesis s) in
    (0 <= c)%Z ->
    Z.of_nat (length (Content.allContent s)) = (c + 1 + Z.of_nat m)%Z ->
    Speech.queue (Content.synthesis s) = [] ->
    Speech.paused (Content.synthesis s) = false ->
    Content.timers s = 0%nat ->
    readableQueue s = true ->
    let s' := Content.run (Content.Message Content.play :: listening m f (S f)) s in
    spoken (Content.journal s') = spoken (Content.journal s) ++ reading c f (S m)
    /\ Content.currentIndex s' = (c + Z.of_nat m)%Z
    /\ Content.isPlaying s' = false
    /\ Speech.queue (Content.synthesis s') = []
    /\ Content.timers s' = 0%nat.
Proof.
  intros s m c f Hc Hlen Hq Hp Ht _ s'. subst s'.
  cbn [Content.run List.fold_left Content.step Content.onMessage].
  change (List.fold_left (fun s e => Content.step e s) ?l ?x) with (Content.run l x).
  rewrite Hp. unfold Speech.speaking. rewrite Hq. cbn [negb].
  destruct (readContent_reads c s) as (R1 & R2 & R3 & R4 & R5 & R6 & _ & _ & R9);
    [subst c; lia |].
  fold c in R1. fold f in R4, R5, R6, R9. rewrite Hq in R4. cbn [app] in R4.
  assert (P2 : Z.of_nat (length (Content.allContent (Content.readContent c s)))
               = (c + 1 + Z.of_nat m)%Z) by (rewrite R2; exact Hlen).
  assert (P3 : Content.timers (Content.readContent c s) = 0%nat)
    by (rewrite R3; exact Ht).
  pose proof (listening_reads m (Content.readContent c s) c f R1 Hc P2 R4 R6 P3) as H.
  cbv zeta in H. rewrite R5 in H.
  destruct H as (I1 & I2 & I3 & I4 & I5 & _).
  fold c. rewrite I1, R9, <- app_assoc, reading_cons.
  repeat split; assumption.
Qed.

Lemma reads_queue_in_order_witness :
  (0 <= Content.currentIndex sampleExtracted)%Z
  /\ Z.of_nat (length (Content.allContent sampleExtracted))
     = (Content.currentIndex sampleExtracted + 1 + Z.of_nat 2)%Z
  /\ Speech.queue (Content.synthesis sampleExtracted) = []
  /\ Speech.paused (Content.synthesis sampleExtracted) = false
  /\ Content.timers sampleExtracted = 0%nat
  /\ readableQueue sampleExtracted = true
  /\ spoken
       (Content.journal
          (Content.run
             (Content.Message Content.play
              :: listening 2 (Speech.fresh (Content.synthesis sampleExtracted))
                   (S (Speech.fresh (Content.synthesis sampleExtracted))))
             sampleExtracted))
     = spoken (Content.journal sampleExtracted)
       ++ reading (Content.currentIndex sampleExtracted)
            (Speech.fresh (Content.synthesis sampleExtracted)) 3.
Proof.
  assert (H1 : (0 <= Content.currentIndex sampleExtracted)%Z) by (vm_compute; discriminate).
  assert (H2 : Z.of_nat (length (Content.allContent sampleExtracted))
               = (Content.currentIndex sampleExtracted + 1 + Z.of_nat 2)%Z)
    by (vm_compute; reflexivity).
  assert (H3 : Speech.queue (Content.synthesis sampleExtracted) = [])
    by (vm_compute; reflexivity).
  assert (H4 : Speech.paused (Content.synthesis sampleExtracted) = false)
    by (vm_compute; reflexivity).
  assert (H5 : Content.timers sampleExtracted = 0%nat) by (vm_compute; reflexivity).
  assert (H6 : readableQueue sampleExtracted = true) by (vm_compute; reflexivity).
  repeat (split; [assumption |]).
  exact (proj1 (reads_queue_in_order sampleExtracted 2 H1 H2 H3 H4 H5 H6)).
Defined.

Lemma step_idle (e : Content.Event) (s : Content.State) :
  (forall doc, e <> Content.Extracted doc) ->
  idle s -> idle (Content.step e s) /\ spoken (Content.journal (Content.step e s))
                                       = spoken (Content.journal s).
Proof.
  intros He [Ha Hq].
  assert (Hread : forall i x, Content.allContent x = [] -> Content.readContent i x = x).
  { intros i x Hx. apply readContent_out_of_range. rewrite Hx. cbn. lia. }
  split.
  - destruct e as [request | u | u | | locale names | doc | voices |]; cbn [Content.step].
    + destruct request; cbn [Content.onMessage].
      * destruct (Speech.paused (Content.synthesis s)); [split; [exact Ha | exact Hq] |].
        destruct (negb (Speech.speaking (Content.synthesis s))); [| split; assumption].
        rewrite Hread by exact Ha. split; assumption.
      * unfold Speech.speaking. rewrite Hq. split; assumption.
      * split; [exact Ha | reflexivity].
      * cbn [Content.setSynthesis Content.currentIndex Content.allContent].
        rewrite Ha. cbn [length].
        destruct (Z.ltb_spec (Content.currentIndex s) (Z.of_nat 0 - 1));
          [rewrite Hread by exact Ha |]; (split; [exact Ha | reflexivity]).
      * cbn [Content.setSynthesis Content.currentIndex Content.allContent].
        destruct (0 <? _)%Z; rewrite Hread by exact Ha; (split; [exact Ha | reflexivity]).
      * split; assumption.
      * split; assumption.
      * split; assumption.
      * split; [exact Ha | reflexivity].
    + destruct (Speech.heap (Content.synthesis s) !! u); [| split; assumption].
      unfold Content.onend.
      cbn [Content.setSynthesis Content.currentIndex Content.allContent].
      destruct (_ <? _)%Z; (split; [exact Ha |]); cbn; unfold Speech.finish; rewrite Hq;
        exact Hq.
    + destruct (Speech.heap (Content.synthesis s) !! u); [| split; assumption].
      split; [exact Ha |]. cbn. unfold Speech.finish. rewrite Hq. exact Hq.
    + destruct (Content.timers s) as [|n]; [split; assumption |].
      cbv zeta. rewrite Hread by exact Ha. split; assumption.
    + unfold Content.extractionRequested.
      cbn [Content.setSelectedVoiceNames Content.voiceLocale].
      destruct (String.eqb locale (Content.voiceLocale s)); split; assumption.
    + exfalso. exact (He doc eq_refl).
    + split; assumption.
    + split; reflexivity.
  - destruct (step_journal e s) as (new & -> & Hnew).
    rewrite spoken_app.
    assert (E : Content.allContent (Content.step e s) = []).
    { destruct (step_contentOf e s) as [E | [[doc ->] | ->]].
      - unfold contentOf in E. injection E as _ _ _ ->. exact Ha.
      - exfalso. exact (He doc eq_refl).
      - reflexivity. }
    rewrite E in Hnew. rewrite (spoken_silent new Hnew). apply app_nil_r.
Qed.

(** X18. After a change of address and until an extraction ends, the queue
    is empty, nothing is in flight and nothing is spoken, whatever the
    messages, callbacks and timers. *)
Theorem nothing_spoken_after_navigation :
  forall (s : Content.State) (events : list Content.Event),
    Forall (fun e => forall doc, e <> Content.Extracted doc) events ->
    let s' := Content.run events (Content.urlChanged s) in
    Content.allContent s' = []
    /\ Speech.queue (Content.synthesis s') = []
    /\ spoken (Content.journal s') = spoken (Content.journal s).
Proof.
  intros s events Hev s'.
  assert (H : forall x, idle x ->
                idle (Content.run events x)
                /\ spoken (Content.journal (Content.run events x))
                   = spoken (Content.journal x)).
  { induction Hev as [|e events He _ IH]; intros x Hx; [split; [exact Hx | reflexivity] |].
    destruct (step_idle e x He Hx) as [Hi Hs].
    destruct (IH (Content.step e x) Hi) as [Hi' Hs'].
    split; [exact Hi' |]. cbn [Content.run List.fold_left] in *. rewrite <- Hs. exact Hs'. }
  destruct (H (Content.urlChanged s)) as [[Ha Hq] Hs]; [split; reflexivity |].
  split; [exact Ha | split; [exact Hq |]].
  subst s'. rewrite Hs. cbn [Content.urlChanged Content.cleanup Content.journal
    Content.setCurrentIndex Content.setContent Content.setCurrentUtterance Content.setFlags
    Content.perform Content.setSynthesis].
  rewrite spoken_app. apply app_nil_r.
Qed.

Lemma nothing_spoken_after_navigation_witness :
  Forall (fun e => forall doc, e <> Content.Extracted doc)
    [Content.Message Content.play; Content.Timeout]
  /\ spoken
       (Content.journal
          (Content.run [Content.Message Content.play; Content.Timeout]
             (Content.urlChanged samplePlaying)))
     = spoken (Content.journal samplePlaying).
Proof.
  assert (H : Forall (fun e => forall doc, e <> Content.Extracted doc)
                [Content.Message Content.play; Content.Timeout])
    by (repeat constructor; intros doc; discriminate).
  split; [exact H |].
  exact (proj2 (proj2 (nothing_spoken_after_navigation samplePlaying
                         [Content.Message Content.play; Content.Timeout] H))).
Defined.

(** X19. [cleanup] empties the engine's queue and drops the utterance and
    the flags; it keeps the cursor and the queue, so that [play] after it,
    the engine not being paused, speaks the item under the cursor again,
    when this item is one that [readContent] can read: an id that
    [highlightComment] can quote, a speed that an utterance takes as its
    rate. *)
Theorem cleanup_keeps_position :
  forall s : Content.State,
    let s' := Content.cleanup s in
    Speech.queue (Content.synthesis s') = []
    /\ Content.currentUtterance s' = None
    /\ Content.isPlaying s' = false /\ Content.isPaused s' = false
    /\ Content.currentIndex s' = Content.currentIndex s
    /\ Content.allContent s' = Content.allContent s
    /\ spoken (Content.journal s') = spoken (Content.journal s)
    /\ (Speech.paused (Content.synthesis s) = false ->
        (0 <= Content.currentIndex s < Z.of_nat (length (Content.allContent s)))%Z ->
        readableAt s (Content.currentIndex s) = true ->
        beginsSpeaking s (Content.currentIndex s) (Content.onMessage Content.play s')).
Proof.
  intros s s'. subst s'. unfold Content.cleanup. cbv zeta.
  cbn [Content.setCurrentUtterance Content.setFlags Content.perform Content.setSynthesis
       Content.synthesis Content.currentUtterance Content.isPlaying Content.isPaused
       Content.currentIndex Content.allContent Content.journal Speech.cancel Speech.queue].
  repeat apply conj; try reflexivity.
  - rewrite spoken_app. apply app_nil_r.
  - intros Hp Hi _.
    cbn [Content.onMessage Content.synthesis Speech.paused Speech.speaking Speech.cancel
         Speech.queue Content.currentIndex negb Content.setCurrentUtterance Content.setFlags
         Content.perform Content.setSynthesis].
    rewrite Hp.
    match goal with |- beginsSpeaking _ ?i (Content.readContent _ ?x) =>
      destruct (readContent_hands s x i Hi) as [Hhands Hkeeps]; try reflexivity
    end.
    split; [exact Hhands |]. rewrite Hkeeps. exact Hp.
Qed.

Lemma cleanup_keeps_position_witness :
  Speech.paused (Content.synthesis samplePlaying) = false
  /\ (0 <= Content.currentIndex samplePlaying
        < Z.of_nat (length (Content.allContent samplePlaying)))%Z
  /\ readableAt samplePlaying (Content.currentIndex samplePlaying) = true
  /\ beginsSpeaking samplePlaying (Content.currentIndex samplePlaying)
       (Content.onMessage Content.play (Content.cleanup samplePlaying)).
Proof.
  assert (H1 : Speech.paused (Content.synthesis samplePlaying) = false)
    by (vm_compute; reflexivity).
  assert (H2 : (0 <= Content.currentIndex samplePlaying
                  < Z.of_nat (length (Content.allContent samplePlaying)))%Z)
    by (vm_compute; split; [discriminate | reflexivity]).
  assert (H3 : readableAt samplePlaying (Content.currentIndex samplePlaying) = true)
    by (vm_compute; reflexivity).
  split; [exact H1 | split; [exact H2 | split; [exact H3 |]]].
  destruct (cleanup_keeps_position samplePlaying) as (_ & _ & _ & _ & _ & _ & _ & H).
  exact (H H1 H2 H3).
Defined.

(** ** The playback engine on its own *)

Lemma stop_rates (e : PlaybackEngine.Engine) :
  Speech.heap (PlaybackEngine.synthesis (PlaybackEngine.stop e))
  = Speech.heap (PlaybackEngine.synthesis e)
  /\ PlaybackEngine.playbackSpeed (PlaybackEngine.stop e) = PlaybackEngine.playbackSpeed e.
Proof.
  unfold PlaybackEngine.stop. cbv zeta.
  match goal with |- context [PlaybackEngine.emitStateChange ?x] =>
    destruct (emitStateChange_frame x) as (_ & _ & -> & _ & -> & _)
  end. split; reflexivity.
Qed.

Lemma readComment_rates (i : Z) (e : PlaybackEngine.Engine) :
  ratesInRange e -> ratesInRange (PlaybackEngine.readComment i e).
Proof.
  intros [Hs Hh].
  destruct (Z_lt_le_dec i 0) as [Hneg | Hpos];
    [| destruct (Z_lt_le_dec i (Z.of_nat (length (PlaybackEngine.comments e))))
         as [Hlt | Hge]].
  - rewrite readComment_out_of_range by lia. split; assumption.
  - destruct (readComment_in_range i e ltac:(lia)) as (c & _ & ->). cbv zeta.
    unfold ratesInRange.
    match goal with |- context [PlaybackEngine.emitStateChange ?x] =>
      destruct (emitStateChange_frame x) as (_ & _ & -> & _ & -> & _)
    end.
    assert (Hsp : PlaybackEngine.playbackSpeed
                    (if PlaybackEngine.onCommentChange e
                     then PlaybackEngine.emit (PlaybackEngine.CommentChange i) e else e)
                  = PlaybackEngine.playbackSpeed e)
      by (destruct (PlaybackEngine.onCommentChange e); reflexivity).
    cbn. rewrite Hsp. split; [exact Hs |]. intros u ut.
    destruct (Nat.eq_dec (Speech.fresh (PlaybackEngine.synthesis e)) u) as [<- | Hne].
    + rewrite lookup_insert_eq. intros [= <-]. exact Hs.
    + rewrite lookup_insert_ne by exact Hne. apply Hh.
  - rewrite readComment_out_of_range by lia. split; assumption.
Qed.

Lemma engine_step_rates (ev : PlaybackEngine.Event) (e : PlaybackEngine.Engine) :
  ratesInRange e -> ratesInRange (PlaybackEngine.step ev e).
Proof.
  intros H.
  assert (Hsame : forall x,
             Speech.heap (PlaybackEngine.synthesis x)
             = Speech.heap (PlaybackEngine.synthesis e) ->
             PlaybackEngine.playbackSpeed x = PlaybackEngine.playbackSpeed e ->
             ratesInRange x).
  { intros x Hh Hs. unfold ratesInRange. rewrite Hh, Hs. exact H. }
  assert (Hemit : forall x, ratesInRange x -> ratesInRange (PlaybackEngine.emitStateChange x)).
  { intros x Hx. unfold ratesInRange.
    destruct (emitStateChange_frame x) as (_ & _ & -> & _ & -> & _). exact Hx. }
  assert (Hstop : forall x, ratesInRange x -> ratesInRange (PlaybackEngine.stop x)).
  { intros x Hx. unfold ratesInRange. destruct (stop_rates x) as [-> ->]. exact Hx. }
  destruct ev as [c | u | u |]; cbn [PlaybackEngine.step].
  - destruct c; cbn [PlaybackEngine.call].
    + apply Hemit, Hsame; reflexivity.
    + unfold PlaybackEngine.play.
      destruct (length (PlaybackEngine.comments e) =? 0)%nat; [exact H |].
      destruct (Speech.paused (PlaybackEngine.synthesis e));
        [apply Hemit, Hsame; reflexivity |].
      destruct (Speech.speaking (PlaybackEngine.synthesis e)); [exact H |].
      apply readComment_rates, H.
    + unfold PlaybackEngine.pause.
      destruct (_ && _); [apply Hemit, Hsame; reflexivity | exact H].
    + apply Hstop, H.
    + unfold PlaybackEngine.next.
      cbn [PlaybackEngine.setSynthesis PlaybackEngine.currentIndex PlaybackEngine.comments].
      destruct (_ <? _)%Z;
        [apply readComment_rates | apply Hstop]; apply Hsame; reflexivity.
    + unfold PlaybackEngine.previous.
      cbn [PlaybackEngine.setSynthesis PlaybackEngine.currentIndex PlaybackEngine.comments].
      destruct (0 <? _)%Z; apply readComment_rates, Hsame; reflexivity.
    + unfold PlaybackEngine.setSpeed.
      cbn [PlaybackEngine.setPlaybackSpeed PlaybackEngine.utterance
           PlaybackEngine.playbackSpeed PlaybackEngine.synthesis].
      destruct H as [Hs Hh].
      destruct (PlaybackEngine.utterance e) as [v|]; split; cbn;
        try apply clamp_bounds; [| exact Hh].
      intros u ut.
      destruct (Nat.eq_dec v u) as [<- | Hne].
      * rewrite lookup_alter_eq.
        destruct (Speech.heap (PlaybackEngine.synthesis e) !! v); [| discriminate].
        intros [= <-]. apply clamp_bounds.
      * rewrite lookup_alter_ne by exact Hne. apply Hh.
    + apply Hsame; reflexivity.
    + apply Hsame; reflexivity.
  - destruct (Speech.heap (PlaybackEngine.synthesis e) !! u); [| exact H].
    assert (Hf : ratesInRange
                   (PlaybackEngine.setSynthesis
                      (Speech.finish u (PlaybackEngine.synthesis e)) e))
      by (apply Hsame; [apply finish_heap | reflexivity]).
    unfold PlaybackEngine.onend.
    cbn [PlaybackEngine.setSynthesis PlaybackEngine.currentIndex PlaybackEngine.comments].
    destruct (_ <? _)%Z; [| apply Hstop, Hf].
    apply Hsame; [apply finish_heap | reflexivity].
  - destruct (Speech.heap (PlaybackEngine.synthesis e) !! u); [| exact H].
    apply Hemit, Hsame; [apply finish_heap | reflexivity].
  - destruct (PlaybackEngine.timers e) as [|n]; [exact H |].
    apply readComment_rates, Hsame; reflexivity.
Qed.

(** X20. From a new playback engine, whatever the calls, callbacks and
    timers, the speeds given to [setSpeed] being rational numbers (every
    finite number is one; [NaN] is not), the stored rate and the rate of
    every utterance the engine made are between 0.5 and 2. *)
Theorem engine_rates_in_range :
  forall events : list PlaybackEngine.Event,
    let e := PlaybackEngine.run events PlaybackEngine.create in
    ((1 # 2 <= PlaybackEngine.playbackSpeed e)%Q /\ (PlaybackEngine.playbackSpeed e <= 2)%Q)
    /\ forall (u : nat) (ut : Speech.Utterance),
         Speech.heap (PlaybackEngine.synthesis e) !! u = Some ut ->
         (1 # 2 <= Speech.rate ut)%Q /\ (Speech.rate ut <= 2)%Q.
Proof.
  intros events e.
  assert (H : forall x, ratesInRange x -> ratesInRange (PlaybackEngine.run events x)).
  { induction events as [|ev events IH]; intros x Hx; [exact Hx |].
    apply IH, engine_step_rates, Hx. }
  apply H. split.
  - split; unfold Qle; cbn; lia.
  - intros u ut Hu. cbn in Hu. rewrite lookup_empty in Hu. discriminate.
Qed.

Lemma engine_rates_in_range_witness :
  Speech.heap
    (PlaybackEngine.synthesis
       (PlaybackEngine.run
          [PlaybackEngine.Method (PlaybackEngine.LoadComments sampleComments);
           PlaybackEngine.Method PlaybackEngine.Play;
           PlaybackEngine.Method (PlaybackEngine.SetSpeed 3)]
          PlaybackEngine.create))
    !! 0%nat
  = Some (Speech.mkUtterance "See now" 2 1 1 None None)
  /\ (1 # 2 <= Speech.rate (Speech.mkUtterance "See now" 2 1 1 None None))%Q
  /\ (Speech.rate (Speech.mkUtterance "See now" 2 1 1 None None) <= 2)%Q.
Proof.
  match goal with |- ?A /\ _ => assert (H : A) by (vm_compute; reflexivity) end.
  split; [exact H |].
  exact (proj2 (engine_rates_in_range
                  [PlaybackEngine.Method (PlaybackEngine.LoadComments sampleComments);
                   PlaybackEngine.Method PlaybackEngine.Play;
                   PlaybackEngine.Method (PlaybackEngine.SetSpeed 3)])
           0%nat (Speech.mkUtterance "See now" 2 1 1 None None) H).
Defined.

Lemma engineSpoken_app j1 j2 : engineSpoken (j1 ++ j2) = engineSpoken j1 ++ engineSpoken j2.
Proof. apply omap_app. Qed.

Lemma engineSpoken_silent new : Forall (engineSpeaksWithin 0) new -> engineSpoken new = [].
Proof.
  induction 1 as [|x new Hx _ IH]; [reflexivity |].
  destruct x; cbn in *; try exact IH. lia.
Qed.

Lemma emitStateChange_spoken (e : PlaybackEngine.Engine) :
  engineSpoken (PlaybackEngine.journal (PlaybackEngine.emitStateChange e))
  = engineSpoken (PlaybackEngine.journal e).
Proof.
  destruct (emitStateChange_frame e) as (_ & _ & _ & _ & _ & _ & new & -> & Hn).
  rewrite engineSpoken_app, (engineSpoken_silent new (Hn 0%nat)). apply app_nil_r.
Qed.

(** What [readComment] does to the cursor, the engine and the journal on
    an index of the queue. *)
Lemma readComment_reads (i : Z) (x : PlaybackEngine.Engine) :
  (0 <= i < Z.of_nat (length (PlaybackEngine.comments x)))%Z ->
  let e := PlaybackEngine.readComment i x in
  PlaybackEngine.currentIndex e = PlaybackEngine.currentIndex x
  /\ PlaybackEngine.comments e = PlaybackEngine.comments x
  /\ PlaybackEngine.timers e = PlaybackEngine.timers x
  /\ Speech.queue (PlaybackEngine.synthesis e)
     = Speech.queue (PlaybackEngine.synthesis x) ++ [Speech.fresh (PlaybackEngine.synthesis x)]
  /\ Speech.fresh (PlaybackEngine.synthesis e) = S (Speech.fresh (PlaybackEngine.synthesis x))
  /\ is_Some (Speech.heap (PlaybackEngine.synthesis e)
                !! Speech.fresh (PlaybackEngine.synthesis x))
  /\ engineSpoken (PlaybackEngine.journal e)
     = engineSpoken (PlaybackEngine.journal x)
       ++ [(i, Speech.fresh (PlaybackEngine.synthesis x))].
Proof.
  intros Hi e. subst e.
  destruct (readComment_in_range i x Hi) as (c & _ & ->). cbv zeta.
  rewrite emitStateChange_spoken.
  match goal with |- context [PlaybackEngine.emitStateChange ?y] =>
    destruct (emitStateChange_frame y) as (-> & -> & -> & _ & _ & -> & _)
  end.
  destruct (PlaybackEngine.onCommentChange x); cbn; rewrite lookup_insert_eq;
    rewrite ?engineSpoken_app; cbn; rewrite ?app_nil_r;
    repeat split; eexists; reflexivity.
Qed.

Lemma engineListening_reads (m : nat) :
  forall (e : PlaybackEngine.Engine) (c : Z) (u : nat),
    PlaybackEngine.currentIndex e = c -> (0 <= c)%Z ->
    Z.of_nat (length (PlaybackEngine.comments e)) = (c + 1 + Z.of_nat m)%Z ->
    Speech.queue (PlaybackEngine.synthesis e) = [u] ->
    is_Some (Speech.heap (PlaybackEngine.synthesis e) !! u) ->
    PlaybackEngine.timers e = 0%nat ->
    let f := Speech.fresh (PlaybackEngine.synthesis e) in
    let e' := PlaybackEngine.run (engineListening m u f) e in
    engineSpoken (PlaybackEngine.journal e')
    = engineSpoken (PlaybackEngine.journal e) ++ reading (c + 1) f m
    /\ PlaybackEngine.currentIndex e' = 0%Z
    /\ PlaybackEngine.utterance e' = None
    /\ Speech.queue (PlaybackEngine.synthesis e') = []
    /\ PlaybackEngine.timers e' = 0%nat.
Proof.
  induction m as [|m IH]; intros e c u Hc Hc0 Hlen Hq [ut Hu] Ht f e'; subst e'.
  - cbn [engineListening PlaybackEngine.run List.fold_left PlaybackEngine.step]. rewrite Hu.
    unfold PlaybackEngine.onend.
    cbn [PlaybackEngine.setSynthesis PlaybackEngine.currentIndex PlaybackEngine.comments].
    destruct (Z.ltb_spec (PlaybackEngine.currentIndex e)
                (Z.of_nat (length (PlaybackEngine.comments e)) - 1)); [lia |].
    match goal with |- context [PlaybackEngine.stop ?x] =>
      destruct (stop_frame x) as (S1 & _ & S3 & S4 & S5 & new & S6 & S7)
    end.
    rewrite S1, S3, S4, S5, S6, engineSpoken_app, (engineSpoken_silent new (S7 0%nat)).
    cbn. repeat split. exact Ht.
  - cbn [engineListening PlaybackEngine.run List.fold_left].
    change (List.fold_left (fun e ev => PlaybackEngine.step ev e) ?l ?x)
      with (PlaybackEngine.run l x).
    set (e1 := PlaybackEngine.step (PlaybackEngine.UtteranceEnd u) e).
    assert (E1 : e1 = PlaybackEngine.setTimers 1
                        (PlaybackEngine.setCurrentIndex (c + 1)
                           (PlaybackEngine.setSynthesis
                              (Speech.finish u (PlaybackEngine.synthesis e)) e))).
    { subst e1. cbn [PlaybackEngine.step]. rewrite Hu. unfold PlaybackEngine.onend.
      cbn [PlaybackEngine.setSynthesis PlaybackEngine.currentIndex PlaybackEngine.comments
           PlaybackEngine.timers].
      destruct (Z.ltb_spec (PlaybackEngine.currentIndex e)
                  (Z.of_nat (length (PlaybackEngine.comments e)) - 1)); [| lia].
      rewrite Ht, Hc. reflexivity. }
    set (x := PlaybackEngine.setTimers 0
                (PlaybackEngine.setCurrentIndex (c + 1)
                   (PlaybackEngine.setSynthesis
                      (Speech.finish u (PlaybackEngine.synthesis e)) e))).
    assert (E2 : PlaybackEngine.step PlaybackEngine.Timeout e1
                 = PlaybackEngine.readComment (c + 1) x).
    { rewrite E1. reflexivity. }
    rewrite E2.
    assert (Hfin : Speech.finish u (PlaybackEngine.synthesis e)
                   = Speech.mkSynthesis (Speech.heap (PlaybackEngine.synthesis e))
                       (Speech.fresh (PlaybackEngine.synthesis e)) []
                       (Speech.paused (PlaybackEngine.synthesis e))).
    { unfold Speech.finish. rewrite Hq, Nat.eqb_refl. reflexivity. }
    destruct (readComment_reads (c + 1) x) as (R1 & R2 & R3 & R4 & R5 & R6 & R9).
    { subst x. cbn. lia. }
    assert (Hx : Speech.fresh (PlaybackEngine.synthesis x) = f
                 /\ Speech.queue (PlaybackEngine.synthesis x) = []
                 /\ PlaybackEngine.journal x = PlaybackEngine.journal e
                 /\ PlaybackEngine.comments x = PlaybackEngine.comments e).
    { subst x. cbn. rewrite Hfin. repeat split. }
    destruct Hx as (Hx1 & Hx2 & Hx3 & Hx4).
    rewrite Hx1 in R4, R5, R6, R9. rewrite Hx2 in R4. rewrite Hx3 in R9. rewrite Hx4 in R2.
    cbn [app] in R4.
    assert (P1 : PlaybackEngine.currentIndex (PlaybackEngine.readComment (c + 1) x)
                 = (c + 1)%Z) by (rewrite R1; reflexivity).
    assert (P2 : Z.of_nat (length (PlaybackEngine.comments
                                     (PlaybackEngine.readComment (c + 1) x)))
                 = (c + 1 + 1 + Z.of_nat m)%Z) by (rewrite R2; lia).
    assert (P3 : PlaybackEngine.timers (PlaybackEngine.readComment (c + 1) x) = 0%nat)
      by (rewrite R3; reflexivity).
    pose proof (IH (PlaybackEngine.readComment (c + 1) x) (c + 1)%Z f
                  P1 ltac:(lia) P2 R4 R6 P3) as H.
    cbv zeta in H. rewrite R5 in H.
    destruct H as (I1 & I2 & I3 & I4 & I5).
    rewrite I1, R9, <- app_assoc, reading_cons.
    repeat split; assumption.
Qed.

(** X21. From a playback engine at rest, [play()] and then the completion of
    each utterance and the timer it sets speak the comments from the cursor
    to the last one, each once and in order; [stop()] then brings the cursor
    back to 0 and drops the utterance. *)
Theorem engine_reads_comments_in_order :
  forall (e : PlaybackEngine.Engine) (m : nat),
    let c := PlaybackEngine.currentIndex e in
    let f := Speech.fresh (PlaybackEngine.synthesis e) in
    (0 <= c)%Z ->
    Z.of_nat (length (PlaybackEngine.comments e)) = (c + 1 + Z.of_nat m)%Z ->
    Speech.queue (PlaybackEngine.synthesis e) = [] ->
    Speech.paused (PlaybackEngine.synthesis e) = false ->
    PlaybackEngine.timers e = 0%nat ->
    let e' :=
      PlaybackEngine.run
        (PlaybackEngine.Method PlaybackEngine.Play :: engineListening m f (S f)) e in
    engineSpoken (PlaybackEngine.journal e')
    = engineSpoken (PlaybackEngine.journal e) ++ reading c f (S m)
    /\ PlaybackEngine.currentIndex e' = 0%Z
    /\ PlaybackEngine.utterance e' = None
    /\ Speech.queue (PlaybackEngine.synthesis e') = []
    /\ PlaybackEngine.timers e' = 0%nat.
Proof.
  intros e m c f Hc Hlen Hq Hp Ht e'. subst e'.
  cbn [PlaybackEngine.run List.fold_left PlaybackEngine.step PlaybackEngine.call].
  change (List.fold_left (fun e ev => PlaybackEngine.step ev e) ?l ?x)
    with (PlaybackEngine.run l x).
  unfold PlaybackEngine.play.
  destruct (Nat.eqb_spec (length (PlaybackEngine.comments e)) 0) as [H0 | _];
    [rewrite H0 in Hlen; cbn in Hlen; lia |].
  rewrite Hp. unfold Speech.speaking. rewrite Hq.
  destruct (readComment_reads c e) as (R1 & R2 & R3 & R4 & R5 & R6 & R9);
    [subst c; lia |].
  fold c in R1. fold f in R4, R5, R6, R9. rewrite Hq in R4. cbn [app] in R4.
  assert (P2 : Z.of_nat (length (PlaybackEngine.comments (PlaybackEngine.readComment c e)))
               = (c + 1 + Z.of_nat m)%Z) by (rewrite R2; exact Hlen).
  assert (P3 : PlaybackEngine.timers (PlaybackEngine.readComment c e) = 0%nat)
    by (rewrite R3; exact Ht).
  pose proof (engineListening_reads m (PlaybackEngine.readComment c e) c f
                R1 Hc P2 R4 R6 P3) as H.
  cbv zeta in H. rewrite R5 in H.
  destruct H as (I1 & I2 & I3 & I4 & I5).
  fold c. rewrite I1, R9, <- app_assoc, reading_cons.
  repeat split; assumption.
Qed.

Lemma engine_reads_comments_in_order_witness :
  (0 <= PlaybackEngine.currentIndex (PlaybackEngine.loadComments sampleComments
                                       PlaybackEngine.create))%Z
  /\ PlaybackEngine.currentIndex
       (PlaybackEngine.run
          (PlaybackEngine.Method PlaybackEngine.Play :: engineListening 1 0 1)
          (PlaybackEngine.loadComments sampleComments PlaybackEngine.create))
     = 0%Z.
Proof.
  assert (H1 : (0 <= PlaybackEngine.currentIndex
                       (PlaybackEngine.loadComments sampleComments PlaybackEngine.create))%Z)
    by (vm_compute; discriminate).
  split; [exact H1 |].
  exact (proj1 (proj2 (engine_reads_comments_in_order
                         (PlaybackEngine.loadComments sampleComments PlaybackEngine.create)
                         1 H1 eq_refl eq_refl eq_refl eq_refl))).
Defined.

Lemma commentChanges_app j1 j2 :
  commentChanges (j1 ++ j2) = commentChanges j1 ++ commentChanges j2.
Proof. apply omap_app. Qed.

Lemma emitStateChange_notified (e : PlaybackEngine.Engine) :
  notified e -> notified (PlaybackEngine.emitStateChange e).
Proof.
  unfold notified, PlaybackEngine.emitStateChange. intros [H1 H2].
  destruct (PlaybackEngine.onStateChange e); [| split; assumption].
  cbn. rewrite commentChanges_app, engineSpoken_app, List.map_app, H2. cbn.
  split; [exact H1 | reflexivity].
Qed.

Lemma readComment_notified (i : Z) (e : PlaybackEngine.Engine) :
  notified e -> notified (PlaybackEngine.readComment i e).
Proof.
  intros H.
  destruct (Z_lt_le_dec i 0) as [Hneg | Hpos];
    [| destruct (Z_lt_le_dec i (Z.of_nat (length (PlaybackEngine.comments e))))
         as [Hlt | Hge]].
  - rewrite readComment_out_of_range by lia. exact H.
  - destruct (readComment_in_range i e ltac:(lia)) as (c & _ & ->). cbv zeta.
    apply emitStateChange_notified. destruct H as [H1 H2]. rewrite H1.
    unfold notified. cbn.
    rewrite !commentChanges_app, !engineSpoken_app, !List.map_app, H2. cbn.
    split; [exact H1 |]. rewrite !app_nil_r. reflexivity.
  - rewrite readComment_out_of_range by lia. exact H.
Qed.

Lemma engine_step_notified (ev : PlaybackEngine.Event) (e : PlaybackEngine.Engine) :
  notified e -> notified (PlaybackEngine.step ev e).
Proof.
  intros H.
  assert (Hsame : forall x,
             PlaybackEngine.onCommentChange x = PlaybackEngine.onCommentChange e ->
             PlaybackEngine.journal x = PlaybackEngine.journal e -> notified x).
  { intros x H1 H2. unfold notified. rewrite H1, H2. exact H. }
  assert (Hstop : forall x, notified x -> notified (PlaybackEngine.stop x)).
  { intros x Hx. unfold PlaybackEngine.stop. apply emitStateChange_notified.
    unfold notified in *. exact Hx. }
  destruct ev as [c | u | u |]; cbn [PlaybackEngine.step].
  - destruct c; cbn [PlaybackEngine.call].
    + apply emitStateChange_notified, Hsame; reflexivity.
    + unfold PlaybackEngine.play.
      destruct (length (PlaybackEngine.comments e) =? 0)%nat; [exact H |].
      destruct (Speech.paused (PlaybackEngine.synthesis e));
        [apply emitStateChange_notified, Hsame; reflexivity |].
      destruct (Speech.speaking (PlaybackEngine.synthesis e)); [exact H |].
      apply readComment_notified, H.
    + unfold PlaybackEngine.pause.
      destruct (_ && _); [apply emitStateChange_notified, Hsame; reflexivity | exact H].
    + apply Hstop, H.
    + unfold PlaybackEngine.next.
      cbn [PlaybackEngine.setSynthesis PlaybackEngine.currentIndex PlaybackEngine.comments].
      destruct (_ <? _)%Z;
        [apply readComment_notified | apply Hstop]; apply Hsame; reflexivity.
    + unfold PlaybackEngine.previous.
      cbn [PlaybackEngine.setSynthesis PlaybackEngine.currentIndex PlaybackEngine.comments].
      destruct (0 <? _)%Z; apply readComment_notified, Hsame; reflexivity.
    + unfold PlaybackEngine.setSpeed.
      cbn [PlaybackEngine.setPlaybackSpeed PlaybackEngine.utterance].
      destruct (PlaybackEngine.utterance e); apply Hsame; reflexivity.
    + apply Hsame; reflexivity.
    + apply Hsame; [| reflexivity]. cbn. symmetry. apply H.
  - destruct (Speech.heap (PlaybackEngine.synthesis e) !! u); [| exact H].
    unfold PlaybackEngine.onend.
    cbn [PlaybackEngine.setSynthesis PlaybackEngine.currentIndex PlaybackEngine.comments].
    destruct (_ <? _)%Z; [| apply Hstop]; apply Hsame; reflexivity.
  - destruct (Speech.heap (PlaybackEngine.synthesis e) !! u); [| exact H].
    apply emitStateChange_notified, Hsame; reflexivity.
  - destruct (PlaybackEngine.timers e) as [|n]; [exact H |].
    apply readComment_notified, Hsame; reflexivity.
Qed.

(** X22. When the comment callback of the playback engine is set before
    anything else, the indices it is called with are the indices of the
    comments spoken, in order. *)
Theorem engine_comment_changes_match_speech :
  forall events : list PlaybackEngine.Event,
    let e :=
      PlaybackEngine.run
        (PlaybackEngine.Method PlaybackEngine.OnCommentChangeCallback :: events)
        PlaybackEngine.create in
    commentChanges (PlaybackEngine.journal e)
    = List.map fst (engineSpoken (PlaybackEngine.journal e)).
Proof.
  intros events e.
  assert (H : forall x, notified x -> notified (PlaybackEngine.run events x)).
  { clear e. induction events as [|ev events IH]; intros x Hx; [exact Hx |].
    apply IH, engine_step_notified, Hx. }
  apply H. split; reflexivity.
Qed.

(** ** The flattener and the popup *)

(** X23. [flattenComments] gives back its input: the same comments in the
    same order, whatever their depths. *)
Theorem flattenComments_is_identity :
  forall comments : list Content.CommentData.t, Utils.flattenComments comments = comments.
Proof.
  intros comments. unfold Utils.flattenComments.
  assert (H : forall acc, List.fold_left (fun flattened comment => flattened ++ [comment])
                            comments acc = acc ++ comments).
  { induction comments as [|c comments IH]; intros acc; cbn [List.fold_left].
    - symmetry. apply app_nil_r.
    - rewrite IH, <- app_assoc. reflexivity. }
  apply (H []).
Qed.

Lemma filter_other_In (voiceName : string) (l : list string) (v : string) :
  In v (List.filter (fun w => negb (String.eqb w voiceName)) l) <-> In v l /\ v <> voiceName.
Proof.
  rewrite filter_In, negb_true_iff. split; intros [H1 H2]; (split; [exact H1 |]).
  - intros ->. rewrite String.eqb_refl in H2. discriminate.
  - apply String.eqb_neq, H2.
Qed.

Lemma filter_other_absent (voiceName : string) (l : list string) :
  ~ In voiceName l -> List.filter (fun w => negb (String.eqb w voiceName)) l = l.
Proof.
  induction l as [|a l IH]; intros H; cbn [List.filter]; [reflexivity |].
  destruct (String.eqb_spec a voiceName) as [-> | Hne]; cbn [negb].
  - exfalso. apply H. left. reflexivity.
  - rewrite IH by (intros Hin; apply H; right; exact Hin). reflexivity.
Qed.

Lemma NoDup_filter_list {A : Type} (p : A -> bool) (l : list A) :
  List.NoDup l -> List.NoDup (List.filter p l).
Proof.
  induction 1 as [|a l Ha _ IH]; cbn [List.filter]; [constructor |].
  destruct (p a); [| exact IH].
  constructor; [| exact IH]. intros Hin. apply filter_In in Hin. tauto.
Qed.

Lemma toggleVoice_selection (voiceName : string) (settings : Popup.Settings) :
  List.NoDup (Popup.selectedVoices settings) -> Popup.selectedVoices settings <> [] ->
  List.NoDup (Popup.selectedVoices (Popup.toggleVoice voiceName settings))
  /\ Popup.selectedVoices (Popup.toggleVoice voiceName settings) <> [].
Proof.
  intros Hnd Hne. unfold Popup.toggleVoice.
  destruct (Content.listIncludes (Popup.selectedVoices settings) voiceName) eqn:Hin.
  - destruct (Nat.ltb_spec 1 (length (Popup.selectedVoices settings))) as [Hlen | Hlen];
      [| split; assumption].
    cbn [Popup.withSelectedVoices Popup.selectedVoices].
    split; [apply NoDup_filter_list, Hnd |].
    destruct (Popup.selectedVoices settings) as [|a [|b l]] eqn:E; cbn [length] in Hlen;
      try lia.
    intros Hnil.
    assert (Ha : In a (List.filter (fun w => negb (String.eqb w voiceName)) (a :: b :: l))
                 \/ In b (List.filter (fun w => negb (String.eqb w voiceName)) (a :: b :: l))).
    { destruct (String.eqb_spec a voiceName) as [-> | Ha].
      - right. apply filter_other_In. split; [right; left; reflexivity |].
        intros ->. apply List.NoDup_cons_iff in Hnd as [Hnd _]. apply Hnd. left. reflexivity.
      - left. apply filter_other_In. split; [left; reflexivity | exact Ha]. }
    rewrite Hnil in Ha. destruct Ha as [[] | []].
  - assert (Hno : ~ In voiceName (Popup.selectedVoices settings)).
    { intros H. apply listIncludes_spec in H. congruence. }
    cbn [Popup.withSelectedVoices Popup.selectedVoices]. split.
    + apply List.NoDup_app; [exact Hnd | constructor; [intros [] | constructor] |].
      intros x Hx [<- | []]. apply Hno, Hx.
    + destruct (Popup.selectedVoices settings); discriminate.
Qed.

(** X24. On a selection without duplicates that is not empty, [toggleVoice]
    leaves such a selection and changes nothing else of the settings: it
    takes a selected voice out when another one stays, keeps a voice that
    is the only one selected, and puts a voice that is not selected at the
    end; toggling such a voice twice gives back the settings. *)
Theorem toggleVoice_keeps_a_voice :
  forall (voiceName : string) (settings : Popup.Settings),
    let selected := Popup.selectedVoices settings in
    let settings' := Popup.toggleVoice voiceName settings in
    let selected' := Popup.selectedVoices settings' in
    List.NoDup selected -> selected <> [] ->
    selected' <> [] /\ List.NoDup selected'
    /\ Popup.withSelectedVoices selected settings' = settings
    /\ (In voiceName selected -> (1 < length selected)%nat ->
        forall v, In v selected' <-> In v selected /\ v <> voiceName)
    /\ (selected = [voiceName] -> settings' = settings)
    /\ (~ In voiceName selected ->
        selected' = selected ++ [voiceName]
        /\ Popup.toggleVoice voiceName settings' = settings).
Proof.
  intros voiceName settings selected settings' selected' Hnd Hne.
  subst selected' settings'. unfold Popup.toggleVoice. fold selected.
  assert (Heta : Popup.withSelectedVoices selected settings = settings)
    by (subst selected; destruct settings; reflexivity).
  destruct (Content.listIncludes selected voiceName) eqn:Hin.
  - apply listIncludes_spec in Hin.
    destruct (Nat.ltb_spec 1 (length selected)) as [Hlen | Hlen].
    + cbn [Popup.withSelectedVoices Popup.selectedVoices].
      repeat apply conj.
      * destruct selected as [|a [|b l]] eqn:E; cbn [length] in Hlen; try lia.
        intros Hnil.
        assert (Ha : In a (List.filter (fun w => negb (String.eqb w voiceName)) (a :: b :: l))
                     \/ In b (List.filter (fun w => negb (String.eqb w voiceName))
                                (a :: b :: l))).
        { destruct (String.eqb_spec a voiceName) as [-> | Ha].
          - right. apply filter_other_In. split; [right; left; reflexivity |].
            intros ->. apply List.NoDup_cons_iff in Hnd as [Hnd _]. apply Hnd. left. reflexivity.
          - left. apply filter_other_In. split; [left; reflexivity | exact Ha]. }
        rewrite Hnil in Ha. destruct Ha as [[] | []].
      * apply NoDup_filter_list, Hnd.
      * exact Heta.
      * intros _ _ v. apply filter_other_In.
      * intros E. rewrite E in Hlen. cbn in Hlen. lia.
      * intros Hno. contradiction.
    + repeat apply conj; try assumption.
      * intros _ Hlt. lia.
      * reflexivity.
      * intros Hno. contradiction.
  - assert (Hno : ~ In voiceName selected).
    { intros H. apply listIncludes_spec in H. congruence. }
    cbn [Popup.withSelectedVoices Popup.selectedVoices].
    repeat apply conj.
    + destruct selected; discriminate.
    + apply List.NoDup_app; [exact Hnd | constructor; [intros [] | constructor] |].
      intros x Hx [<- | []]. apply Hno, Hx.
    + exact Heta.
    + intros H. contradiction.
    + intros E. exfalso. apply Hno. rewrite E. left. reflexivity.
    + intros _. split; [reflexivity |].
      unfold Popup.toggleVoice. cbn [Popup.withSelectedVoices Popup.selectedVoices].
      assert (Hin' : Content.listIncludes (selected ++ [voiceName]) voiceName = true).
      { apply listIncludes_spec, in_or_app. right. left. reflexivity. }
      rewrite Hin'.
      destruct (Nat.ltb_spec 1 (length (selected ++ [voiceName]))) as [_ | Hlen].
      * rewrite List.filter_app, filter_other_absent by exact Hno.
        cbn [List.filter]. rewrite String.eqb_refl. cbn [negb].
        rewrite app_nil_r. exact Heta.
      * rewrite length_app in Hlen. cbn in Hlen.
        destruct selected; [congruence | cbn in Hlen; lia].
Qed.

Lemma toggleVoice_keeps_a_voice_witness :
  List.NoDup (Popup.selectedVoices Popup.DEFAULT_SETTINGS)
  /\ Popup.selectedVoices Popup.DEFAULT_SETTINGS <> []
  /\ Popup.selectedVoices (Popup.toggleVoice "Google US English" Popup.DEFAULT_SETTINGS)
     <> [].
Proof.
  assert (H1 : List.NoDup (Popup.selectedVoices Popup.DEFAULT_SETTINGS))
    by (repeat constructor; cbn; intuition discriminate).
  assert (H2 : Popup.selectedVoices Popup.DEFAULT_SETTINGS <> []) by discriminate.
  split; [exact H1 | split; [exact H2 |]].
  exact (proj1 (toggleVoice_keeps_a_voice "Google US English" Popup.DEFAULT_SETTINGS H1 H2)).
Defined.

(** X25. From the settings loaded from the storage, the stored selection
    having no duplicate, whatever check boxes are toggled and however often
    the default voices are asked for, one voice or more stays selected; an
    empty stored selection is replaced by the default voices. *)
Theorem voice_selection_never_empty :
  forall (items : Popup.Settings) (actions : list VoiceAction),
    List.NoDup (Popup.selectedVoices items) ->
    let settings := List.fold_left (fun s a => select a s) actions (Popup.loadedSettings items) in
    Popup.selectedVoices settings <> []
    /\ List.NoDup (Popup.selectedVoices settings)
    /\ (Popup.selectedVoices items = [] ->
        Popup.selectedVoices (Popup.loadedSettings items) = Popup.DEFAULT_VOICES)
    /\ (Popup.selectedVoices items <> [] -> Popup.loadedSettings items = items).
Proof.
  intros items actions Hnd settings.
  assert (Hdef : List.NoDup Popup.DEFAULT_VOICES).
  { unfold Popup.DEFAULT_VOICES. repeat constructor; cbn; intuition discriminate. }
  assert (Hload : List.NoDup (Popup.selectedVoices (Popup.loadedSettings items))
                  /\ Popup.selectedVoices (Popup.loadedSettings items) <> []).
  { unfold Popup.loadedSettings.
    destruct (Popup.selectedVoices items) as [|a l] eqn:E; cbn [length Nat.eqb].
    - split; [exact Hdef | discriminate].
    - rewrite E. split; [exact Hnd | discriminate]. }
  assert (Hrun : forall s,
             List.NoDup (Popup.selectedVoices s) /\ Popup.selectedVoices s <> [] ->
             List.NoDup (Popup.selectedVoices (List.fold_left (fun s a => select a s) actions s))
             /\ Popup.selectedVoices (List.fold_left (fun s a => select a s) actions s) <> []).
  { clear settings. induction actions as [|a actions IH]; intros s Hs; [exact Hs |].
    cbn [List.fold_left]. apply IH. destruct a as [v |]; cbn [select].
    - apply toggleVoice_selection; apply Hs.
    - split; [exact Hdef | discriminate]. }
  destruct (Hrun _ Hload) as [H1 H2].
  repeat apply conj; [exact H2 | exact H1 | |].
  - intros E. unfold Popup.loadedSettings. rewrite E. reflexivity.
  - intros E. unfold Popup.loadedSettings.
    destruct (Popup.selectedVoices items); [congruence | reflexivity].
Qed.

Lemma voice_selection_never_empty_witness :
  List.NoDup (Popup.selectedVoices Popup.DEFAULT_SETTINGS)
  /\ Popup.selectedVoices
       (List.fold_left (fun s a => select a s)
          [ToggleVoice "Google US English"; ToggleVoice "Google UK English Male";
           ToggleVoice "Google UK English Female"]
          (Popup.loadedSettings Popup.DEFAULT_SETTINGS))
     <> [].
Proof.
  assert (H1 : List.NoDup (Popup.selectedVoices Popup.DEFAULT_SETTINGS))
    by (repeat constructor; cbn; intuition discriminate).
  split; [exact H1 |].
  exact (proj1 (voice_selection_never_empty Popup.DEFAULT_SETTINGS
                  [ToggleVoice "Google US English"; ToggleVoice "Google UK English Male";
                   ToggleVoice "Google UK English Female"] H1)).
Defined.
